(** * News dashboard backend: enrichment, caching and persistence layer

    A shallow embedding of [nlp_utils.py], [api_utils.py] and [db_utils.py].

    Conventions of the embedding.
    - Python values that travel through caches, JSON bodies and SQL rows are
      terms of [pyval]; a [dict] is an association list in insertion order.
    - An exception that leaves a function is the [Raise] outcome of [result];
      a [try]/[except] block is [try_except].
    - Module-level globals ([cache], [news_cache], the SQLite file) are
      fields of explicit state records threaded through every call.
    - External services (polarity scorer, tokenizer, page extractor,
      translator, vectoriser, remote news API, [hash], [json.dumps]) are
      fields of an environment record; every invocation is appended to a log
      so that "was the service called" is observable.
    - In [NLP], [API], [DB] and [Store] the clock is read once per call
      and passed as [now]: a call during which no cache entry expires.  In
      [Timed] the monotonic timer is part of the state and every operation
      on the annotator's cache takes a reading of its own, so that an entry
      can expire between [key in cache] and [cache[key]]; with a timer that
      stands still the two agree ([timer_standing_still]).
    - A [float] is the rational a binary64 number denotes and its
      arithmetic rounds ([Binary64]); an [int] bound to a SQL statement has
      to fit 64 bits ([int64]). *)

From Stdlib Require Import ZArith List String Ascii Bool Lia QArith Lqa Sorted.
From Stdlib Require Import Qround Qpower Permutation.
From Stdlib Require Import DecimalString DecimalZ DecimalPos.
Import ListNotations.

Local Open Scope Z_scope.
Local Open Scope string_scope.

Set Implicit Arguments.
Set Warnings "-register-all".

(** ** Python values *)

Inductive pyval : Type :=
| PNone
| PBool (b : bool)
| PInt (n : Z)
| PFloat (x : Q)
| PStr (s : string)
| PList (items : list pyval)
| PTuple (items : list pyval)
| PDict (entries : list (string * pyval)).

Definition dict := list (string * pyval).

(** [bool(v)]: the truth value Python gives an object in [if v:]. *)
Definition truthy (v : pyval) : bool :=
  match v with
  | PNone => false
  | PBool b => b
  | PInt n => negb (n =? 0)%Z
  | PFloat x => negb (Qeq_bool x 0)
  | PStr s => negb (s =? "")
  | PList l | PTuple l => negb (Nat.eqb (List.length l) 0)
  | PDict d => negb (Nat.eqb (List.length d) 0)
  end.

(** [str(n)] for an [int]. *)
Definition py_int_str (n : Z) : string := NilZero.string_of_int (Z.to_int n).

(** [d.get(k)] *)
Fixpoint dict_get (k : string) (d : dict) : option pyval :=
  match d with
  | [] => None
  | (k', v) :: rest => if k =? k' then Some v else dict_get k rest
  end.

(** [d.get(k, default)] *)
Definition dict_get_default (k : string) (default : pyval) (d : dict) : pyval :=
  match dict_get k d with Some v => v | None => default end.

(** [k in d] *)
Definition dict_mem (k : string) (d : dict) : bool :=
  match dict_get k d with Some _ => true | None => false end.

(** [d[k] = v]: an existing key keeps its position, a new key goes last. *)
Fixpoint dict_set (k : string) (v : pyval) (d : dict) : dict :=
  match d with
  | [] => [(k, v)]
  | (k', v') :: rest =>
      if k =? k' then (k', v) :: rest else (k', v') :: dict_set k v rest
  end.

(** ** Exceptions and the state-and-error monad *)

Inductive exn : Type :=
| IntegrityError        (* sqlite3.IntegrityError *)
| OperationalError      (* sqlite3.OperationalError *)
| RequestException      (* requests.exceptions.RequestException and subclasses *)
| AttributeError
| KeyError
| IndexError
| TypeError
| OverflowError         (* an int that does not fit a 64-bit SQLite integer *)
| ExternalError.        (* whatever an external library raises: an Exception *)

(** [isinstance(e, sqlite3.Error)] *)
Definition is_sqlite_error (e : exn) : bool :=
  match e with IntegrityError | OperationalError => true | _ => false end.

Definition is_integrity_error (e : exn) : bool :=
  match e with IntegrityError => true | _ => false end.

Definition is_request_exception (e : exn) : bool :=
  match e with RequestException => true | _ => false end.

(** [isinstance(e, Exception)] *)
Definition is_exception (e : exn) : bool := true.

Inductive result (A : Type) : Type :=
| Ok (a : A)
| Raise (e : exn).
Arguments Ok {A} a.
Arguments Raise {A} e.

Definition M (S A : Type) : Type := S -> result A * S.

Definition ret {S A} (a : A) : M S A := fun s => (Ok a, s).

Definition raise {S A} (e : exn) : M S A := fun s => (Raise e, s).

Definition bind {S A B} (m : M S A) (f : A -> M S B) : M S B :=
  fun s =>
    match m s with
    | (Ok a, s') => f a s'
    | (Raise e, s') => (Raise e, s')
    end.

(** [try: body  except <catches> as e: handler e] *)
Definition try_except {S A} (body : M S A) (catches : exn -> bool)
           (handler : exn -> M S A) : M S A :=
  fun s =>
    match body s with
    | (Ok a, s') => (Ok a, s')
    | (Raise e, s') => if catches e then handler e s' else (Raise e, s')
    end.

Declare Scope py_scope.
Delimit Scope py_scope with py.
Notation "x <- m ;; k" := (bind m (fun x => k))
  (at level 61, m at next level, right associativity) : py_scope.
Notation "m ;; k" := (bind m (fun _ => k))
  (at level 61, right associativity) : py_scope.

(** ** Numbers

    An [int] bound to a SQL statement has to fit SQLite's 64-bit integer;
    [sqlite3] raises OverflowError for one that does not. *)
Definition int64 (n : Z) : bool := ((- 2 ^ 63 <=? n)%Z && (n <? 2 ^ 63)%Z)%bool.

(** A [float] is an IEEE 754 binary64 number, kept as the rational it
    denotes.  Every operation rounds the exact result to the nearest number
    of 53 significant bits, ties to the even one.  The exponent is not
    bounded: the magnitudes met here stay far from overflow and
    underflow. *)
Module Binary64.

Definition pow2 (k : Z) : Q := (2 ^ k)%Q.

(** The integer part of the binary logarithm of a positive number. *)
Definition ilog2 (x : Q) : Z :=
  let k := (Z.log2 (Qnum x) - Z.log2 (Zpos (Qden x)))%Z in
  if Qle_bool (pow2 k) x then k else (k - 1)%Z.

Definition nearest_even (y : Q) : Z :=
  let m := Qfloor y in
  match (y - inject_Z m ?= 1 # 2)%Q with
  | Lt => m
  | Gt => (m + 1)%Z
  | Eq => if Z.even m then m else (m + 1)%Z
  end.

Definition round_pos (x : Q) : Q :=
  let e := (ilog2 x - 52)%Z in
  Qred (inject_Z (nearest_even (x * pow2 (- e))) * pow2 e).

Definition round (x : Q) : Q :=
  match Qnum x with
  | Z0 => 0%Q
  | Zpos _ => round_pos x
  | Zneg _ => (- round_pos (- x))%Q
  end.

(** The largest relative error of one rounding. *)
Definition rel_error : Q := pow2 (- 53).

(** [float(n)] of an [int] *)
Definition of_int (n : Z) : Q := round (inject_Z n).

Definition add (x y : Q) : Q := round (x + y).
Definition mul (x y : Q) : Q := round (x * y).
Definition div (x y : Q) : Q := round (x / y).

Definition sqrt_pos (x : Q) : Q :=
  let e := (ilog2 x / 2 - 52)%Z in
  let y4 := (x * pow2 (2 - 2 * e))%Q in      (* four times the scaled square *)
  let s := Z.sqrt (Qfloor y4) in             (* twice the scaled root, rounded down *)
  let m := (s / 2)%Z in
  let m' := if Z.even s then m
            else if Qeq_bool (inject_Z (s * s)) y4
                 then (if Z.even m then m else m + 1)%Z
                 else (m + 1)%Z in
  Qred (inject_Z m' * pow2 e).

Definition sqrt (x : Q) : Q :=
  match Qnum x with
  | Zpos _ => sqrt_pos x
  | _ => 0%Q
  end.

End Binary64.

(** ** The expiring cache ([cachetools.TTLCache]) *)

Module TTLCache.

Section WithValue.
Variable V : Type.

(** Modelled from the spec: the cache class comes from the [cachetools]
    package and is not part of the sources.  The model follows the
    contract of the cache component: [get(key) -> value or miss],
    [put(key, value)]; capacity and time-to-live fixed at construction;
    an entry is a miss once its time-to-live has elapsed; on overflow
    the least recently used entry is evicted.  Entries are kept least
    recently used first.  The capacity is at least one entry. *)
Record link : Type := Link { key : string; value : V; expires : Z }.

Record t : Type := Make { maxsize : positive; ttl : Z; links : list link }.

Definition create (maxsize : positive) (ttl : Z) : t := Make maxsize ttl [].

Definition fresh (now : Z) (l : link) : bool := (now <? expires l)%Z.

Definition has_key (k : string) (l : link) : bool := k =? key l.

Definition without (k : string) (ls : list link) : list link :=
  filter (fun l => negb (has_key k l)) ls.

(** Drop expired entries. *)
Definition expire (now : Z) (ls : list link) : list link :=
  filter (fresh now) ls.

(** Drop least recently used entries until at most [room] remain. *)
Definition evict (room : nat) (ls : list link) : list link :=
  skipn (List.length ls - room) ls.

(** [key in cache] *)
Definition contains (k : string) (now : Z) (c : t) : bool :=
  match find (has_key k) (links c) with
  | Some l => fresh now l
  | None => false
  end.

(** Modelled from the spec: [get(key) -> value or miss], the test
    [key in cache] followed by [cache[key]].  [None] is a miss.  A hit
    makes the entry the most recently used one. *)
Definition get (k : string) (now : Z) (c : t) : option V * t :=
  match find (has_key k) (links c) with
  | Some l =>
      if fresh now l
      then (Some (value l),
            Make (maxsize c) (ttl c) (without k (links c) ++ [l])%list)
      else (None, c)
  | None => (None, c)
  end.

(** Modelled from the spec: [put(key, value)], the assignment
    [cache[key] = value].  Expired entries go first, then the least
    recently used one if the cache is full; the new entry lives for the
    time-to-live of the cache. *)
Definition put (k : string) (v : V) (now : Z) (c : t) : t :=
  let alive := expire now (links c) in
  let kept :=
    match find (has_key k) alive with
    | Some _ => alive
    | None => evict (Pos.to_nat (maxsize c) - 1) alive
    end in
  Make (maxsize c) (ttl c)
       (without k kept ++ [Link k v (now + ttl c)])%list.

(** A use of the cache, for statements about what happens between two
    moments. *)
Inductive op : Type :=
| Get (k : string) (now : Z)
| Put (k : string) (v : V) (now : Z).

Definition step (c : t) (o : op) : t :=
  match o with
  | Get k now => snd (get k now c)
  | Put k v now => put k v now c
  end.

Definition run (ops : list op) (c : t) : t := fold_left step ops c.

Definition writes (k : string) (o : op) : bool :=
  match o with
  | Get _ _ => false
  | Put k' _ _ => k =? k'
  end.

End WithValue.

Arguments Link {V} key value expires.
Arguments create {V} maxsize ttl.
Arguments Get {V} k now.
Arguments Put {V} k v now.

End TTLCache.

(** ** The annotator ([nlp_utils.py]) *)

Module NLP.

(** What the tokenizer reports for one token. *)
Record token : Type :=
  Token { tok_text : string; is_stop : bool; is_punct : bool; is_alpha : bool }.

(** The result of [nlp(text)]: tokens and named entities [(text, label)]. *)
Record doc : Type := Doc { tokens : list token; ents : list (string * string) }.

(** The external services.  [None] stands for "the call raised". *)
Record env : Type := Env {
  hash : string -> Z;                               (* hash(text), a 64-bit integer *)
  polarity : string -> option Q;                    (* TextBlob(text).sentiment.polarity *)
  nlp : string -> option doc;                       (* spaCy: nlp(text) *)
  summary : pyval -> option string;                 (* newspaper: download, parse, nlp, .summary *)
  translate : string -> string -> option string;    (* translator.translate(text, dest).text *)
  similarity : pyval -> pyval -> option Q;          (* fit_transform, product with transpose, [0][1] *)
  py_repr : pyval -> string                         (* str() of floats and containers *)
}.

Inductive call : Type :=
| CallTextBlob (text : string)
| CallSpacy (text : string)
| CallNewspaper (url : pyval)
| CallTranslator (text dest : string)
| CallVectorizer (text1 text2 : pyval).

(** [cache] and the log of external calls made so far, oldest first. *)
Record state : Type := State { cache : TTLCache.t pyval; calls : list call }.

(** [cache = TTLCache(maxsize=100, ttl=300)] *)
Definition init : state := State (TTLCache.create 100 300) [].

Definition logged (c : call) (st : state) : state :=
  State (cache st) (calls st ++ [c])%list.

Definition stored (k : string) (v : pyval) (now : Z) (st : state) : state :=
  State (TTLCache.put k v now (cache st)) (calls st).

Definition looked_up (k : string) (now : Z) (st : state) : option pyval * state :=
  let (hit, c) := TTLCache.get k now (cache st) in (hit, State c (calls st)).

(** A [text] argument: a [str], or [None] when missing. *)
Definition text_val (text : option string) : pyval :=
  match text with Some s => PStr s | None => PNone end.

(** The float literal [0.1]: the double nearest to one tenth. *)
Definition float_0_1 : Q := 3602879701896397 # 36028797018963968.

Definition lower_char (c : ascii) : ascii :=
  let n := nat_of_ascii c in
  if (Nat.leb 65 n && Nat.leb n 90)%bool then ascii_of_nat (n + 32) else c.

(** [s.lower()] on ASCII text. *)
Fixpoint lower (s : string) : string :=
  match s with
  | EmptyString => EmptyString
  | String c rest => String (lower_char c) (lower rest)
  end.

(** [collections.Counter]: first occurrence order, with counts. *)
Fixpoint count_add (w : string) (c : list (string * nat)) : list (string * nat) :=
  match c with
  | [] => [(w, 1%nat)]
  | (w', n) :: rest =>
      if w =? w' then (w', S n) :: rest else (w', n) :: count_add w rest
  end.

Definition Counter (ws : list string) : list (string * nat) :=
  fold_left (fun c w => count_add w c) ws [].

(** Stable sort by count, largest first: equal counts keep their order. *)
Fixpoint insert_desc (x : string * nat) (l : list (string * nat)) : list (string * nat) :=
  match l with
  | [] => [x]
  | y :: rest =>
      if Nat.leb (snd y) (snd x) then x :: y :: rest else y :: insert_desc x rest
  end.

Fixpoint sort_desc (l : list (string * nat)) : list (string * nat) :=
  match l with
  | [] => []
  | x :: rest => insert_desc x (sort_desc rest)
  end.

(** [counter.most_common(n)] *)
Definition most_common (n : Z) (c : list (string * nat)) : list (string * nat) :=
  firstn (Z.to_nat n) (sort_desc c).

Definition keyword_val (kw : string * nat) : pyval :=
  PTuple [PStr (fst kw); PInt (Z.of_nat (snd kw))].

Definition entity_val (e : string * string) : pyval :=
  PTuple [PStr (fst e); PStr (snd e)].

(** [f"{v}"] *)
Definition py_format (E : env) (v : pyval) : string :=
  match v with
  | PStr s => s
  | PNone => "None"
  | PBool true => "True"
  | PBool false => "False"
  | PInt n => py_int_str n
  | _ => py_repr E v
  end.

Section Processor.
Variable E : env.

Definition sentiment_key (t : string) : string :=
  "sentiment_" ++ py_int_str (hash E t).

Definition keywords_key (t : string) : string :=
  "keywords_" ++ py_int_str (hash E t).

Definition summary_key (url : pyval) : string :=
  "summary_" ++ py_format E url.

Definition trans_key (t target_lang : string) : string :=
  "trans_" ++ py_int_str (hash E t) ++ "_" ++ target_lang.

Definition ner_key (t : string) : string :=
  "ner_" ++ py_int_str (hash E t).

(** The label the thresholds give a polarity. *)
Definition label_of (p : Q) : string :=
  if Qlt_le_dec float_0_1 p then "positive"
  else if Qlt_le_dec p (- float_0_1) then "negative"
  else "neutral".

Definition analyze_sentiment (text : option string) (now : Z) (st : state)
  : pyval * state :=
  match text with
  | None | Some "" => (PStr "neutral", st)
  | Some t =>
      let cache_key := sentiment_key t in
      match looked_up cache_key now st with
      | (Some v, st1) => (v, st1)
      | (None, st1) =>
          let st2 := logged (CallTextBlob t) st1 in
          match polarity E t with
          | Some p =>
              let result := PStr (label_of p) in
              (result, stored cache_key result now st2)
          | None => (PStr "neutral", st2)
          end
      end
  end.

(** The list comprehension over [doc] in [extract_keywords]. *)
Definition keywords_of (d : doc) : list string :=
  map (fun tk => lower (tok_text tk))
      (filter (fun tk => negb (is_stop tk) && negb (is_punct tk) && is_alpha tk)%bool
              (tokens d)).

Definition extract_keywords (text : option string) (top_n : Z) (now : Z)
           (st : state) : pyval * state :=
  match text with
  | None | Some "" => (PList [], st)
  | Some t =>
      let cache_key := keywords_key t in
      match looked_up cache_key now st with
      | (Some v, st1) => (v, st1)
      | (None, st1) =>
          let st2 := logged (CallSpacy t) st1 in
          match nlp E t with
          | Some d =>
              let freq_dist := Counter (keywords_of d) in
              let top_keywords := PList (map keyword_val (most_common top_n freq_dist)) in
              (top_keywords, stored cache_key top_keywords now st2)
          | None => (PList [], st2)
          end
      end
  end.

Definition summarize_article (url : pyval) (now : Z) (st : state)
  : pyval * state :=
  let cache_key := summary_key url in
  match looked_up cache_key now st with
  | (Some v, st1) => (v, st1)
  | (None, st1) =>
      let st2 := logged (CallNewspaper url) st1 in
      match summary E url with
      | Some s => (PStr s, stored cache_key (PStr s) now st2)
      | None => (PNone, st2)
      end
  end.

Definition translate_text (text : option string) (target_lang : string)
           (now : Z) (st : state) : pyval * state :=
  match text with
  | None | Some "" => (text_val text, st)
  | Some t =>
      if target_lang =? "en" then (PStr t, st) else
      let cache_key := trans_key t target_lang in
      match looked_up cache_key now st with
      | (Some v, st1) => (v, st1)
      | (None, st1) =>
          let st2 := logged (CallTranslator t target_lang) st1 in
          match translate E t target_lang with
          | Some s => (PStr s, stored cache_key (PStr s) now st2)
          | None => (PStr t, st2)
          end
      end
  end.

Definition get_named_entities (text : option string) (now : Z) (st : state)
  : pyval * state :=
  match text with
  | None | Some "" => (PList [], st)
  | Some t =>
      let cache_key := ner_key t in
      match looked_up cache_key now st with
      | (Some v, st1) => (v, st1)
      | (None, st1) =>
          let st2 := logged (CallSpacy t) st1 in
          match nlp E t with
          | Some d =>
              let entities := PList (map entity_val (ents d)) in
              (entities, stored cache_key entities now st2)
          | None => (PList [], st2)
          end
      end
  end.

Definition compute_text_similarity (text1 text2 : pyval) (st : state)
  : pyval * state :=
  let st1 := logged (CallVectorizer text1 text2) st in
  match similarity E text1 text2 with
  | Some x => (PFloat x, st1)
  | None => (PFloat 0, st1)
  end.

End Processor.


End NLP.

(** ** The news source client ([api_utils.py]) *)

Module API.

(** What the remote end does with one [requests.get]. *)
Inductive reply : Type :=
| Failed                (* a RequestException: connection error, timeout,
                           raise_for_status on a 4xx/5xx, body that is not JSON *)
| Json (data : pyval).  (* response.json() of an accepted response *)

Record request : Type := Request { url : string; params : dict }.

Record client : Type := Client { api_key : string; base_url : string }.

Record env : Type := Env {
  json_dumps : pyval -> string;   (* json.dumps of a value whose keys are already in order *)
  nlp_env : NLP.env
}.

(** [news_cache], the replies the remote end will give to the next
    requests, the requests sent so far (oldest first), and the annotator. *)
Record state : Type := State {
  news_cache : TTLCache.t pyval;
  network : list reply;
  requests : list request;
  nlp : NLP.state
}.

(** [news_cache = TTLCache(maxsize=100, ttl=1800)] *)
Definition init (network : list reply) : state :=
  State (TTLCache.create 100 1800) network [] NLP.init.

Definition cache_lookup (k : string) (now : Z) : M state (option pyval) :=
  fun st =>
    let (hit, c) := TTLCache.get k now (news_cache st) in
    (Ok hit, State c (network st) (requests st) (nlp st)).

Definition cache_store (k : string) (v : pyval) (now : Z) : M state unit :=
  fun st =>
    (Ok tt, State (TTLCache.put k v now (news_cache st))
                  (network st) (requests st) (nlp st)).

(** [requests.get(url, params=params, timeout=10)], [raise_for_status()]
    and [response.json()]. *)
Definition requests_get (u : string) (p : dict) : M state pyval :=
  fun st =>
    let st' := State (news_cache st) (tl (network st))
                     (requests st ++ [Request u p])%list (nlp st) in
    match network st with
    | Json data :: _ => (Ok data, st')
    | Failed :: _ | [] => (Raise RequestException, st')
    end.

(** Run a piece of the annotator on the client's annotator state. *)
Definition with_nlp {A} (m : M NLP.state A) : M state A :=
  fun st =>
    let (r, n) := m (nlp st) in
    (r, State (news_cache st) (network st) (requests st) n).

(** [v.get(k, default)] on an arbitrary object. *)
Definition py_get {S} (k : string) (default : pyval) (v : pyval) : M S pyval :=
  match v with
  | PDict d => ret (dict_get_default k default d)
  | _ => raise AttributeError
  end.

Definition is_str (s : string) (v : pyval) : bool :=
  match v with PStr s' => s' =? s | _ => false end.

Fixpoint is_substring (s t : string) : bool :=
  (String.prefix s t ||
   match t with
   | EmptyString => false
   | String _ rest => is_substring s rest
   end)%bool.

(** ['articles' in v] *)
Definition has_articles {S} (v : pyval) : M S bool :=
  match v with
  | PDict d => ret (dict_mem "articles" d)
  | PList l | PTuple l => ret (existsb (is_str "articles") l)
  | PStr s => ret (is_substring "articles" s)
  | _ => raise TypeError
  end.

(** [v['articles']] *)
Definition articles_of {S} (v : pyval) : M S pyval :=
  match v with
  | PDict d =>
      match dict_get "articles" d with
      | Some a => ret a
      | None => raise KeyError
      end
  | _ => raise TypeError
  end.

Fixpoint chars (s : string) : list pyval :=
  match s with
  | EmptyString => []
  | String c rest => PStr (String c EmptyString) :: chars rest
  end.

(** [for x in v]: the items visited, or [None] when [v] is not iterable. *)
Definition py_iter (v : pyval) : option (list pyval) :=
  match v with
  | PList l | PTuple l => Some l
  | PStr s => Some (chars s)
  | PDict d => Some (map (fun kv => PStr (fst kv)) d)
  | _ => None
  end.

(** Keys in ascending order, as [sort_keys=True] writes them. *)
Fixpoint insert_key (kv : string * pyval) (d : dict) : dict :=
  match d with
  | [] => [kv]
  | kv' :: rest =>
      if String.leb (fst kv) (fst kv') then kv :: kv' :: rest
      else kv' :: insert_key kv rest
  end.

Definition sort_keys (d : dict) : dict := fold_right insert_key [] d.

(** [if s:] for an optional [str] argument. *)
Definition given (s : option string) : bool :=
  match s with Some t => negb (t =? "") | None => false end.

Definition set_if_given (k : string) (s : option string) (d : dict) : dict :=
  match s with
  | Some t => if negb (t =? "") then dict_set k (PStr t) d else d
  | None => d
  end.

Section Client.
Variable E : env.
Variable self : client.

Definition request_key (endpoint : string) (p : dict) : string :=
  endpoint ++ "_" ++ json_dumps E (PDict (sort_keys p)).

Definition _make_request (endpoint : string) (params : dict) (now : Z)
  : M state pyval :=
  let params := dict_set "apiKey" (PStr (api_key self)) params in
  let cache_key := request_key endpoint params in
  (hit <- cache_lookup cache_key now ;;
   match hit with
   | Some v => ret v
   | None =>
       try_except
         (data <- requests_get (base_url self ++ endpoint) params ;;
          status <- py_get "status" PNone data ;;
          if is_str "ok" status
          then (cache_store cache_key data now ;; ret data)
          else ret PNone)
         is_request_exception
         (fun _ => ret PNone)
   end)%py.

Definition enrich_article (article : pyval) (now : Z) (st : NLP.state)
  : pyval * NLP.state :=
  match article with
  | PDict d =>
      let text :=
        NLP.py_format (nlp_env E) (dict_get_default "title" (PStr "") d)
        ++ " " ++
        NLP.py_format (nlp_env E) (dict_get_default "description" (PStr "") d) in
      let (sentiment, st1) := NLP.analyze_sentiment (nlp_env E) (Some text) now st in
      let d1 := dict_set "sentiment" sentiment d in
      let (keywords, st2) := NLP.extract_keywords (nlp_env E) (Some text) 5 now st1 in
      let d2 := dict_set "keywords" keywords d1 in
      let (entities, st3) := NLP.get_named_entities (nlp_env E) (Some text) now st2 in
      let d3 := dict_set "named_entities" entities d2 in
      if truthy (dict_get_default "url" PNone d3) then
        let (s, st4) :=
          NLP.summarize_article (nlp_env E) (dict_get_default "url" PNone d3) now st3 in
        (PDict (dict_set "summary" s d3), st4)
      else (PDict d3, st3)
  | _ =>
      (* [article.get] raises AttributeError; the handler appends the
         article as it is *)
      (article, st)
  end.

Fixpoint enrich_each (articles : list pyval) (now : Z) (st : NLP.state)
  : list pyval * NLP.state :=
  match articles with
  | [] => ([], st)
  | article :: rest =>
      let (a, st1) := enrich_article article now st in
      let (enriched, st2) := enrich_each rest now st1 in
      (a :: enriched, st2)
  end.

Definition enrich_articles (articles : pyval) (now : Z) : M NLP.state (list pyval) :=
  fun st =>
    match py_iter articles with
    | Some l => let (enriched, st') := enrich_each l now st in (Ok enriched, st')
    | None => (Raise TypeError, st)
    end.

Definition top_headlines_params (country category q : option string)
           (page_size page : Z) : dict :=
  let params := [("pageSize", PInt (Z.min page_size 100)); ("page", PInt page)] in
  let params := set_if_given "country" country params in
  let params := set_if_given "category" category params in
  set_if_given "q" q params.

(** [if response and 'articles' in response: ... enrich ... ; return []] *)
Definition articles_or_empty (response : pyval) (now : Z) : M state (list pyval) :=
  (if truthy response then
     present <- has_articles response ;;
     if present : bool then
       articles <- articles_of response ;;
       with_nlp (enrich_articles articles now)
     else ret []
   else ret [])%py.

Definition get_top_headlines (country category q : option string)
           (page_size page : Z) (now : Z) : M state (list pyval) :=
  (response <-
     _make_request "" (top_headlines_params country category q page_size page) now ;;
   articles_or_empty response now)%py.

(** [from_date] and [to_date] stand for the [isoformat()] text of the
    datetime, when one is given. *)
Definition search_params (q : string) (from_date to_date : option string)
           (language sort_by : string) (page_size page : Z) : dict :=
  let params := [("q", PStr q); ("language", PStr language);
                 ("sortBy", PStr sort_by);
                 ("pageSize", PInt (Z.min page_size 100)); ("page", PInt page)] in
  let params :=
    match from_date with Some d => dict_set "from" (PStr d) params | None => params end in
  match to_date with Some d => dict_set "to" (PStr d) params | None => params end.

Definition search_everything (q : string) (from_date to_date : option string)
           (language sort_by : string) (page_size page : Z) (now : Z)
  : M state (list pyval) :=
  (response <-
     _make_request "/everything"
       (search_params q from_date to_date language sort_by page_size page) now ;;
   articles_or_empty response now)%py.

Definition get_sources (category : option string) (language : string)
           (country : option string) (now : Z) : M state pyval :=
  let params := [("language", PStr language)] in
  let params := set_if_given "category" category params in
  let params := set_if_given "country" country params in
  (response <- _make_request "/sources" params now ;;
   if truthy response then py_get "sources" (PList []) response
   else ret (PList []))%py.

End Client.

End API.

(** ** The annotator with its timer

    [cachetools] reads the monotonic timer at every operation on the
    cache: at [key in cache], at [cache[key]] and at [cache[key] = value].
    In the sections above one reading serves a whole call, which is what
    happens when no entry expires while the call runs.  Here the timer is
    part of the state and every operation on the cache takes its own
    reading, so that an entry can expire between the membership test and
    the subscript that follows it. *)

Module Timed.

Record state : Type := State {
  annotator : NLP.state;
  time : Z;               (* the last reading of the timer *)
  delays : list N         (* the time that passes before each coming reading *)
}.

(** The module as imported, the timer reading [t0]. *)
Definition start (t0 : Z) (delays : list N) : state := State NLP.init t0 delays.

(** The reading the timer gives next. *)
Definition next_reading (w : state) : Z := time w + Z.of_N (hd 0%N (delays w)).

(** The state once that reading has been taken. *)
Definition after_reading (w : state) : state :=
  State (annotator w) (next_reading w) (tl (delays w)).

(** [time.monotonic()] *)
Definition timer : M state Z := fun w => (Ok (next_reading w), after_reading w).

(** The coming readings: [reading 0] is the next one. *)
Fixpoint reading (n : nat) (w : state) : Z :=
  match n with
  | O => next_reading w
  | S n' => reading n' (after_reading w)
  end.

Definition on_annotator {A : Type} (f : NLP.state -> result A * NLP.state) : M state A :=
  fun w => let (r, st) := f (annotator w) in (r, State st (time w) (delays w)).

(** [key in cache] *)
Definition cache_contains (k : string) : M state bool :=
  (now <- timer ;;
   on_annotator (fun st => (Ok (TTLCache.contains k now (NLP.cache st)), st)))%py.

(** [cache[key]]: a KeyError when the key is missing or its entry has
    expired. *)
Definition cache_getitem (k : string) : M state pyval :=
  (now <- timer ;;
   on_annotator (fun st =>
     match NLP.looked_up k now st with
     | (Some v, st') => (Ok v, st')
     | (None, st') => (Raise KeyError, st')
     end))%py.

(** [cache[key] = value] *)
Definition cache_setitem (k : string) (v : pyval) : M state unit :=
  (now <- timer ;; on_annotator (fun st => (Ok tt, NLP.stored k v now st)))%py.

(** A call of an external library, logged; [None] is "it raised". *)
Definition external {A : Type} (c : NLP.call) (outcome : option A) : M state A :=
  on_annotator (fun st =>
    (match outcome with Some a => Ok a | None => Raise ExternalError end,
     NLP.logged c st)).

Section Processor.
Variable E : NLP.env.

Definition analyze_sentiment (text : option string) : M state pyval :=
  match text with
  | None | Some "" => ret (PStr "neutral")
  | Some t =>
      let cache_key := NLP.sentiment_key E t in
      (cached <- cache_contains cache_key ;;
       if cached : bool then cache_getitem cache_key
       else
         try_except
           (polarity <- external (NLP.CallTextBlob t) (NLP.polarity E t) ;;
            let result := PStr (NLP.label_of polarity) in
            cache_setitem cache_key result ;;
            ret result)
           is_exception
           (fun _ => ret (PStr "neutral")))%py
  end.

Definition extract_keywords (text : option string) (top_n : Z) : M state pyval :=
  match text with
  | None | Some "" => ret (PList [])
  | Some t =>
      let cache_key := NLP.keywords_key E t in
      (cached <- cache_contains cache_key ;;
       if cached : bool then cache_getitem cache_key
       else
         try_except
           (doc <- external (NLP.CallSpacy t) (NLP.nlp E t) ;;
            let freq_dist := NLP.Counter (NLP.keywords_of doc) in
            let top_keywords :=
              PList (map NLP.keyword_val (NLP.most_common top_n freq_dist)) in
            cache_setitem cache_key top_keywords ;;
            ret top_keywords)
           is_exception
           (fun _ => ret (PList [])))%py
  end.

Definition summarize_article (url : pyval) : M state pyval :=
  let cache_key := NLP.summary_key E url in
  (cached <- cache_contains cache_key ;;
   if cached : bool then cache_getitem cache_key
   else
     try_except
       (summary <- external (NLP.CallNewspaper url) (NLP.summary E url) ;;
        cache_setitem cache_key (PStr summary) ;;
        ret (PStr summary))
       is_exception
       (fun _ => ret PNone))%py.

Definition translate_text (text : option string) (target_lang : string)
  : M state pyval :=
  match text with
  | None | Some "" => ret (NLP.text_val text)
  | Some t =>
      if target_lang =? "en" then ret (PStr t) else
      let cache_key := NLP.trans_key E t target_lang in
      (cached <- cache_contains cache_key ;;
       if cached : bool then cache_getitem cache_key
       else
         try_except
           (translation <- external (NLP.CallTranslator t target_lang)
                                    (NLP.translate E t target_lang) ;;
            cache_setitem cache_key (PStr translation) ;;
            ret (PStr translation))
           is_exception
           (fun _ => ret (PStr t)))%py
  end.

Definition get_named_entities (text : option string) : M state pyval :=
  match text with
  | None | Some "" => ret (PList [])
  | Some t =>
      let cache_key := NLP.ner_key E t in
      (cached <- cache_contains cache_key ;;
       if cached : bool then cache_getitem cache_key
       else
         try_except
           (doc <- external (NLP.CallSpacy t) (NLP.nlp E t) ;;
            let entities := PList (map NLP.entity_val (NLP.ents doc)) in
            cache_setitem cache_key entities ;;
            ret entities)
           is_exception
           (fun _ => ret (PList [])))%py
  end.

(** The text [enrich_articles] analyses: [f"{title} {description}"]. *)
Definition article_text (d : dict) : string :=
  NLP.py_format E (dict_get_default "title" (PStr "") d)
  ++ " " ++ NLP.py_format E (dict_get_default "description" (PStr "") d).

(** The body of the loop of [enrich_articles].  The dict is changed in
    place, so what the handler appends after an exception is the article
    with the fields set so far. *)
Definition enrich_article (article : pyval) (w : state) : pyval * state :=
  match article with
  | PDict d =>
      let text := article_text d in
      match analyze_sentiment (Some text) w with
      | (Raise _, w1) => (PDict d, w1)
      | (Ok sentiment, w1) =>
          let d1 := dict_set "sentiment" sentiment d in
          match extract_keywords (Some text) 5 w1 with
          | (Raise _, w2) => (PDict d1, w2)
          | (Ok keywords, w2) =>
              let d2 := dict_set "keywords" keywords d1 in
              match get_named_entities (Some text) w2 with
              | (Raise _, w3) => (PDict d2, w3)
              | (Ok entities, w3) =>
                  let d3 := dict_set "named_entities" entities d2 in
                  let url := dict_get_default "url" PNone d3 in
                  if truthy url then
                    match summarize_article url w3 with
                    | (Raise _, w4) => (PDict d3, w4)
                    | (Ok summary, w4) => (PDict (dict_set "summary" summary d3), w4)
                    end
                  else (PDict d3, w3)
              end
          end
      end
  | _ =>
      (* [article.get] raises AttributeError; the handler appends the
         article as it is *)
      (article, w)
  end.

Fixpoint enrich_each (articles : list pyval) (w : state) : list pyval * state :=
  match articles with
  | [] => ([], w)
  | article :: rest =>
      let (a, w1) := enrich_article article w in
      let (enriched, w2) := enrich_each rest w1 in
      (a :: enriched, w2)
  end.

Definition enrich_articles (articles : pyval) : M state (list pyval) :=
  fun w =>
    match API.py_iter articles with
    | Some l => let (enriched, w') := enrich_each l w in (Ok enriched, w')
    | None => (Raise TypeError, w)
    end.

End Processor.

End Timed.

(** ** The persistence store ([db_utils.py]) *)

Module DB.

(** Modelled from the spec: the tables are created outside the sources.
    [users(id, username, password, created_at)] with [username] unique,
    and [article_feedback(user_id, article_url, feedback, rating,
    timestamp)].  Timestamps are clock readings. *)
Record user : Type :=
  User { id : Z; username : string; password : string; created_at : Z }.

Record feedback_row : Type :=
  Feedback { fb_user_id : Z; fb_article_url : string;
             fb_feedback : option string; fb_rating : option Z;
             fb_timestamp : Z }.

(** The SQLite file, and for each coming [execute_query] whether the
    database is unavailable for it (locked, unreadable, ...). *)
Record state : Type := State {
  users : list user;
  article_feedback : list feedback_row;
  faults : list bool
}.

(** The statements [db_utils.py] sends, with their bound parameters. *)
Inductive statement : Type :=
| InsertUser (name pw : string)
    (* INSERT INTO users (username, password) VALUES (?, ?) *)
| SelectUserId (name : string)
    (* SELECT id FROM users WHERE username = ? *)
| SelectUser (name : string)
    (* SELECT id, username, created_at FROM users WHERE username = ? *)
| SelectCredentials (name pw : string)
    (* SELECT id FROM users WHERE username = ? AND password = ? *)
| InsertFeedback (uid : Z) (article_url : string)
                 (fb : option string) (rating : option Z)
    (* INSERT INTO article_feedback (user_id, article_url, feedback, rating)
       VALUES (?, ?, ?, ?) *)
| FeedbackSummary (article_url : string).
    (* SELECT COUNT( * ), AVG(rating),
              SUM(CASE WHEN feedback = 'Helpful' THEN 1 ELSE 0 END),
              SUM(CASE WHEN feedback = 'Not Helpful' THEN 1 ELSE 0 END)
       FROM article_feedback WHERE article_url = ? *)

Definition rows := list (list pyval).

Definition next_id (us : list user) : Z :=
  fold_right (fun u m => Z.max (id u) m) 0 us + 1.

Definition named (name : string) (u : user) : bool := username u =? name.

Definition about (article_url : string) (f : feedback_row) : bool :=
  fb_article_url f =? article_url.

(** [CASE WHEN feedback = 'label' THEN 1 ELSE 0 END]; a NULL feedback
    compares as unknown and takes the ELSE branch. *)
Definition case_feedback (label : string) (f : feedback_row) : Z :=
  match fb_feedback f with
  | Some s => if s =? label then 1 else 0
  | None => 0
  end.

(** [SUM(x)]: NULL over no rows. *)
Definition sql_sum (xs : list Z) : pyval :=
  match xs with
  | [] => PNone
  | _ => PInt (fold_right Z.add 0 xs)
  end.

Definition ratings (fs : list feedback_row) : list Z :=
  flat_map (fun f => match fb_rating f with Some r => [r] | None => [] end) fs.

(** [AVG(x)]: over the values that are not NULL; NULL when there is none.
    SQLite divides the sum, as a double, by the number of values, as a
    double (the sum of integers is exact as long as it stays below 2^53). *)
Definition sql_avg (xs : list Z) : pyval :=
  match xs with
  | [] => PNone
  | _ => PFloat (Binary64.div (Binary64.of_int (fold_right Z.add 0 xs))
                              (Binary64.of_int (Z.of_nat (List.length xs))))
  end.

(** Binding an [int] parameter. *)
Definition bind_int (n : Z) : exn + Z :=
  if int64 n then inr n else inl OverflowError.

Definition bind_optional_int (n : option Z) : exn + option Z :=
  match n with
  | Some i => if int64 i then inr (Some i) else inl OverflowError
  | None => inr None
  end.

(** What SQLite does with one statement: an error, or the rows produced
    and the tables afterwards. *)
Definition sqlite_exec (q : statement) (now : Z) (st : state)
  : exn + rows * state :=
  match q with
  | InsertUser name pw =>
      if existsb (named name) (users st)
      then inl IntegrityError       (* UNIQUE constraint failed: users.username *)
      else inr ([], State (users st ++ [User (next_id (users st)) name pw now])%list
                          (article_feedback st) (faults st))
  | SelectUserId name =>
      inr (map (fun u => [PInt (id u)]) (filter (named name) (users st)), st)
  | SelectUser name =>
      inr (map (fun u => [PInt (id u); PStr (username u); PInt (created_at u)])
               (filter (named name) (users st)), st)
  | SelectCredentials name pw =>
      inr (map (fun u => [PInt (id u)])
               (filter (fun u => named name u && (password u =? pw))%bool (users st)), st)
  | InsertFeedback uid article_url fb rating =>
      match bind_int uid, bind_optional_int rating with
      | inr u, inr r =>
          inr ([], State (users st)
                         (article_feedback st ++ [Feedback u article_url fb r now])%list
                         (faults st))
      | inl e, _ | _, inl e => inl e
      end
  | FeedbackSummary article_url =>
      let matching := filter (about article_url) (article_feedback st) in
      inr ([[PInt (Z.of_nat (List.length matching));
             sql_avg (ratings matching);
             sql_sum (map (case_feedback "Helpful") matching);
             sql_sum (map (case_feedback "Not Helpful") matching)]], st)
  end.

Definition next_call (st : state) : state :=
  State (users st) (article_feedback st) (tl (faults st)).

(** [execute_query]: connect, execute, fetch if asked, commit; a
    [sqlite3.Error] is logged, rolled back and raised again.  Any other
    exception of [cursor.execute] (the OverflowError of a parameter) leaves
    through the [finally] clause, nothing having been written. *)
Definition execute_query (query : statement) (fetch : bool) (now : Z)
  : M state (option rows) :=
  fun st =>
    match faults st with
    | true :: _ => (Raise OperationalError, next_call st)
    | _ =>
        match sqlite_exec query now (next_call st) with
        | inl e => (Raise e, next_call st)
        | inr (result, st') => (Ok (if fetch then Some result else None), st')
        end
    end.

(** [row[i]] *)
Definition item {S} (i : nat) (row : list pyval) : M S pyval :=
  match nth_error row i with
  | Some v => ret v
  | None => raise IndexError
  end.

(** [float(v)] *)
Definition py_float {S} (v : pyval) : M S pyval :=
  match v with
  | PFloat x => ret (PFloat x)
  | PInt n => ret (PFloat (Binary64.of_int n))
  | PBool b => ret (PFloat (if b then 1 else 0))
  | _ => raise TypeError
  end.

Definition create_user (name pw : string) (now : Z) : M state pyval :=
  try_except
    (execute_query (InsertUser name pw) false now ;;
     result <- execute_query (SelectUserId name) true now ;;
     match result with
     | Some (row :: _) => item 0 row
     | _ => ret PNone
     end)%py
    is_integrity_error
    (fun _ => ret PNone).

Definition get_user (name : string) (now : Z) : M state pyval :=
  (result <- execute_query (SelectUser name) true now ;;
   match result with
   | Some (row :: _) =>
       i <- item 0 row ;;
       u <- item 1 row ;;
       c <- item 2 row ;;
       ret (PDict [("id", i); ("username", u); ("created_at", c)])
   | _ => ret PNone
   end)%py.

Definition verify_user (name pw : string) (now : Z) : M state bool :=
  (result <- execute_query (SelectCredentials name pw) true now ;;
   match result with
   | Some (_ :: _) => ret true
   | _ => ret false
   end)%py.

Definition add_article_feedback (uid : Z) (article_url : string)
           (fb : option string) (rating : option Z) (now : Z) : M state bool :=
  try_except
    (execute_query (InsertFeedback uid article_url fb rating) false now ;;
     ret true)%py
    is_exception
    (fun _ => ret false).

Definition get_article_feedback (article_url : string) (now : Z) : M state pyval :=
  (result <- execute_query (FeedbackSummary article_url) true now ;;
   match result with
   | Some (row :: _) =>
       total <- item 0 row ;;
       avg <- item 1 row ;;
       average_rating <- (if truthy avg then py_float avg else ret PNone) ;;
       helpful <- item 2 row ;;
       not_helpful <- item 3 row ;;
       ret (PDict [("total_feedback", total);
                   ("average_rating", average_rating);
                   ("helpful_count", helpful);
                   ("not_helpful_count", not_helpful)])
   | _ =>
       ret (PDict [("total_feedback", PInt 0);
                   ("average_rating", PNone);
                   ("helpful_count", PInt 0);
                   ("not_helpful_count", PInt 0)])
   end)%py.

End DB.

(** ** The persistence store: preferences, reading history, cached articles *)

Module Store.

(** Modelled from the spec: the tables are created outside the sources.
    [user_preferences(user_id, categories, countries, language, sentiment,
    updated_at)], [reading_history(user_id, article_url, title, category,
    read_timestamp)] and [article_cache(url, title, content, summary,
    sentiment, cached_at)], the last keyed by [url] (the statement that
    fills it is INSERT OR REPLACE).  Columns keep the values as they are
    bound; timestamps are clock readings in seconds. *)
Record preference_row : Type :=
  Preferences { pr_user_id : Z; pr_categories : pyval; pr_countries : pyval;
                pr_language : pyval; pr_sentiment : pyval; pr_updated_at : Z }.

Record history_row : Type :=
  History { h_user_id : Z; h_article_url : pyval; h_title : pyval;
            h_category : pyval; h_read_timestamp : Z }.

Record cached_article : Type :=
  Cached { ca_url : string; ca_title : pyval; ca_content : pyval;
           ca_summary : pyval; ca_sentiment : pyval; ca_cached_at : Z }.

Record state : Type := State {
  user_preferences : list preference_row;
  reading_history : list history_row;
  article_cache : list cached_article;
  faults : list bool
}.

Inductive statement : Type :=
| SelectPreferences (uid : Z)
    (* SELECT categories, countries, language, sentiment
       FROM user_preferences WHERE user_id = ? *)
| UpdatePreferences (categories countries : string) (language sentiment : pyval) (uid : Z)
    (* UPDATE user_preferences SET categories = ?, countries = ?, language = ?,
       sentiment = ?, updated_at = CURRENT_TIMESTAMP WHERE user_id = ? *)
| InsertHistory (uid : Z) (article_url title category : pyval)
    (* INSERT INTO reading_history (user_id, article_url, title, category)
       VALUES (?, ?, ?, ?) *)
| SelectHistory (uid : Z) (limit : Z)
    (* SELECT article_url, title, category, read_timestamp FROM reading_history
       WHERE user_id = ? ORDER BY read_timestamp DESC LIMIT ? *)
| UpsertArticle (url : string) (title content summary sentiment : pyval)
    (* INSERT OR REPLACE INTO article_cache (url, title, content, summary, sentiment)
       VALUES (?, ?, ?, ?, ?) *)
| SelectArticle (url : string)
    (* SELECT title, content, summary, sentiment, cached_at FROM article_cache
       WHERE url = ? AND cached_at > datetime('now', '-24 hours') *)
| DeleteOldArticles.
    (* DELETE FROM article_cache WHERE cached_at < datetime('now', '-24 hours') *)

(** The value a bound parameter is stored as: None, numbers and text are
    kept (a bool as 0 or 1).  An [int] outside 64 bits raises
    OverflowError.  A list, tuple or dict cannot be bound: sqlite3 raises
    an InterfaceError (a ProgrammingError in recent versions); like
    OperationalError it is a [sqlite3.Error], no handler of [db_utils.py]
    tells them apart, and it is rendered as OperationalError. *)
Definition sql_value (v : pyval) : exn + pyval :=
  match v with
  | PNone | PFloat _ | PStr _ => inr v
  | PInt n => if int64 n then inr v else inl OverflowError
  | PBool b => inr (PInt (if b then 1 else 0))
  | PList _ | PTuple _ | PDict _ => inl OperationalError
  end.

(** Parameters are bound in order; the first that cannot be bound decides
    the error. *)
Definition and_then {A B : Type} (x : exn + A) (f : A -> exn + B) : exn + B :=
  match x with
  | inl e => inl e
  | inr a => f a
  end.

Definition day : Z := 86400.

(** Newest first; rows of equal time keep their order. *)
Fixpoint insert_newest (r : history_row) (rs : list history_row) : list history_row :=
  match rs with
  | [] => [r]
  | r' :: rest =>
      if (h_read_timestamp r' <=? h_read_timestamp r)%Z then r :: r' :: rest
      else r' :: insert_newest r rest
  end.

Definition newest_first (rs : list history_row) : list history_row :=
  fold_right insert_newest [] rs.

(** [LIMIT n]: a negative [n] is no limit. *)
Definition sql_limit {A : Type} (n : Z) (rows : list A) : list A :=
  if (n <? 0)%Z then rows else firstn (Z.to_nat n) rows.

(** What SQLite does with one statement, once its parameters are bound. *)
Definition sqlite_exec (q : statement) (now : Z) (st : state)
  : exn + DB.rows * state :=
  match q with
  | SelectPreferences uid =>
      and_then (DB.bind_int uid) (fun uid =>
      inr (map (fun r => [pr_categories r; pr_countries r; pr_language r; pr_sentiment r])
               (filter (fun r => (pr_user_id r =? uid)%Z) (user_preferences st)), st))
  | UpdatePreferences categories countries language sentiment uid =>
      and_then (sql_value language) (fun l =>
      and_then (sql_value sentiment) (fun s =>
      and_then (DB.bind_int uid) (fun uid =>
      inr ([], State (map (fun r =>
                             if (pr_user_id r =? uid)%Z
                             then Preferences uid (PStr categories) (PStr countries)
                                              l s now
                             else r)
                          (user_preferences st))
                     (reading_history st) (article_cache st) (faults st)))))
  | InsertHistory uid article_url title category =>
      and_then (DB.bind_int uid) (fun uid =>
      and_then (sql_value article_url) (fun u =>
      and_then (sql_value title) (fun t =>
      and_then (sql_value category) (fun c =>
      inr ([], State (user_preferences st)
                     (reading_history st ++ [History uid u t c now])%list
                     (article_cache st) (faults st))))))
  | SelectHistory uid limit =>
      and_then (DB.bind_int uid) (fun uid =>
      and_then (DB.bind_int limit) (fun limit =>
      inr (map (fun r => [h_article_url r; h_title r; h_category r;
                          PInt (h_read_timestamp r)])
               (sql_limit limit
                  (newest_first
                     (filter (fun r => (h_user_id r =? uid)%Z) (reading_history st)))),
           st)))
  | UpsertArticle url title content summary sentiment =>
      and_then (sql_value title) (fun t =>
      and_then (sql_value content) (fun c =>
      and_then (sql_value summary) (fun s =>
      and_then (sql_value sentiment) (fun e =>
      inr ([], State (user_preferences st) (reading_history st)
                     (filter (fun r => negb (ca_url r =? url)) (article_cache st)
                      ++ [Cached url t c s e now])%list
                     (faults st))))))
  | SelectArticle url =>
      inr (map (fun r => [ca_title r; ca_content r; ca_summary r; ca_sentiment r;
                          PInt (ca_cached_at r)])
               (filter (fun r => (ca_url r =? url) && (now - day <? ca_cached_at r)%Z)%bool
                       (article_cache st)), st)
  | DeleteOldArticles =>
      inr ([], State (user_preferences st) (reading_history st)
                     (filter (fun r => negb (ca_cached_at r <? now - day)%Z)
                             (article_cache st))
                     (faults st))
  end.

Definition next_call (st : state) : state :=
  State (user_preferences st) (reading_history st) (article_cache st) (tl (faults st)).

(** [execute_query], on the statements over these tables: a
    [sqlite3.Error] is rolled back and raised again, an OverflowError
    leaves through the [finally] clause, nothing having been written. *)
Definition execute_query (query : statement) (fetch : bool) (now : Z)
  : M state (option DB.rows) :=
  fun st =>
    match faults st with
    | true :: _ => (Raise OperationalError, next_call st)
    | _ =>
        match sqlite_exec query now (next_call st) with
        | inl e => (Raise e, next_call st)
        | inr (result, st') => (Ok (if fetch then Some result else None), st')
        end
    end.

(** [d[k]] *)
Definition subscript {S} (k : string) (d : dict) : M S pyval :=
  match dict_get k d with
  | Some v => ret v
  | None => raise KeyError
  end.

Fixpoint strings_of (items : list pyval) : option (list string) :=
  match items with
  | [] => Some []
  | PStr s :: rest =>
      match strings_of rest with Some ss => Some (s :: ss) | None => None end
  | _ :: _ => None
  end.

(** [','.join(v)] *)
Definition py_join {S} (v : pyval) : M S string :=
  match API.py_iter v with
  | Some items =>
      match strings_of items with
      | Some ss => ret (String.concat "," ss)
      | None => raise TypeError
      end
  | None => raise TypeError
  end.

(** [s.split(',')], with the field read so far in [acc]. *)
Fixpoint split_from (acc : string) (s : string) : list string :=
  match s with
  | EmptyString => [acc]
  | String c rest =>
      if Ascii.eqb c ","%char then acc :: split_from "" rest
      else split_from (acc ++ String c "") rest
  end.

Definition py_split (s : string) : list string := split_from "" s.

(** [v.split(',') if v else []] *)
Definition split_if_any {S} (v : pyval) : M S pyval :=
  if truthy v then
    match v with
    | PStr s => ret (PList (map PStr (py_split s)))
    | _ => raise AttributeError
    end
  else ret (PList []).

Definition get_user_preferences (uid : Z) (now : Z) : M state pyval :=
  (result <- execute_query (SelectPreferences uid) true now ;;
   match result with
   | Some (row :: _) =>
       c <- DB.item 0 row ;;
       categories <- split_if_any c ;;
       k <- DB.item 1 row ;;
       countries <- split_if_any k ;;
       language <- DB.item 2 row ;;
       sentiment <- DB.item 3 row ;;
       ret (PDict [("categories", categories); ("countries", countries);
                   ("language", language); ("sentiment", sentiment)])
   | _ => ret PNone
   end)%py.

Definition update_user_preferences (uid : Z) (preferences : dict) (now : Z)
  : M state bool :=
  try_except
    (c <- subscript "categories" preferences ;;
     categories <- py_join c ;;
     k <- subscript "countries" preferences ;;
     countries <- py_join k ;;
     language <- subscript "language" preferences ;;
     sentiment <- subscript "sentiment" preferences ;;
     execute_query (UpdatePreferences categories countries language sentiment uid)
                   false now ;;
     ret true)%py
    is_exception
    (fun _ => ret false).

Definition add_reading_history (uid : Z) (article_data : dict) (now : Z)
  : M state bool :=
  try_except
    (url <- subscript "url" article_data ;;
     execute_query (InsertHistory uid url
                      (dict_get_default "title" PNone article_data)
                      (dict_get_default "category" PNone article_data))
                   false now ;;
     ret true)%py
    is_exception
    (fun _ => ret false).

Definition history_entry (row : list pyval) : M state pyval :=
  (u <- DB.item 0 row ;;
   t <- DB.item 1 row ;;
   c <- DB.item 2 row ;;
   ts <- DB.item 3 row ;;
   ret (PDict [("url", u); ("title", t); ("category", c); ("timestamp", ts)]))%py.

Fixpoint history_entries (rows : DB.rows) : M state (list pyval) :=
  match rows with
  | [] => ret []
  | row :: rest =>
      (e <- history_entry row ;;
       es <- history_entries rest ;;
       ret (e :: es))%py
  end.

Definition get_reading_history (uid : Z) (limit : Z) (now : Z) : M state pyval :=
  (results <- execute_query (SelectHistory uid limit) true now ;;
   match results with
   | Some (row :: rest) =>
       es <- history_entries (row :: rest) ;;
       ret (PList es)
   | _ => ret (PList [])
   end)%py.

Definition cache_article (url : string) (data : dict) (now : Z) : M state bool :=
  try_except
    (execute_query (UpsertArticle url
                      (dict_get_default "title" PNone data)
                      (dict_get_default "content" PNone data)
                      (dict_get_default "summary" PNone data)
                      (dict_get_default "sentiment" PNone data))
                   false now ;;
     ret true)%py
    is_exception
    (fun _ => ret false).

Definition get_cached_article (url : string) (now : Z) : M state pyval :=
  (result <- execute_query (SelectArticle url) true now ;;
   match result with
   | Some (row :: _) =>
       t <- DB.item 0 row ;;
       c <- DB.item 1 row ;;
       s <- DB.item 2 row ;;
       e <- DB.item 3 row ;;
       a <- DB.item 4 row ;;
       ret (PDict [("title", t); ("content", c); ("summary", s);
                   ("sentiment", e); ("cached_at", a)])
   | _ => ret PNone
   end)%py.

Definition cleanup_old_cache (now : Z) : M state unit :=
  (execute_query DeleteOldArticles false now ;; ret tt)%py.

End Store.

(** ** Construction of the client ([NewsAPIClient.__init__]) *)

(** [config.py] is not part of the sources: its two settings are
    parameters. *)
Record Config : Type := { NEWS_API_KEY : option string; BASE_URL : string }.

(** [NewsAPIClient(api_key)]: None stands for the ValueError raised when
    no key is configured. *)
Definition NewsAPIClient (cfg : Config) (api_key : option string) : option API.client :=
  let key := if API.given api_key then api_key else NEWS_API_KEY cfg in
  if API.given key
  then match key with
       | Some k => Some (API.Client k (BASE_URL cfg))
       | None => None
       end
  else None.

(** [news_api]: the module's client, None when construction failed. *)
Definition news_api (cfg : Config) : option API.client := NewsAPIClient cfg None.

(** ** The vectoriser ([TfidfVectorizer], used by [compute_text_similarity]) *)

Module Tfidf.

Section Vectorizer.

(** Modelled from the spec: the class comes from [scikit-learn], which is
    not part of the sources.  The spec has
    [compute_text_similarity(text1, text2) -> float in [0,1]]: "builds a
    term-frequency/inverse-document-frequency representation over exactly
    the two input texts and returns their cosine similarity".

    [analyse] stands for what the vectoriser makes of the two texts before
    it counts: the terms of each text in order, stop words removed and
    only the terms of the vocabulary kept ([max_features=1000],
    [stop_words='english']); [None] when it raises, as it does on a value
    that is no string. *)
Variable analyse : pyval -> pyval -> option (list string * list string).

(** The vocabulary: the terms of the two texts, each once, in order. *)
Fixpoint insert_term (t : string) (l : list string) : list string :=
  match l with
  | [] => [t]
  | t' :: rest =>
      match String.compare t t' with
      | Lt => t :: l
      | Eq => l
      | Gt => t' :: insert_term t rest
      end
  end.

Definition vocabulary (a b : list string) : list string :=
  fold_right insert_term [] (a ++ b).

(** How often a term occurs in a text. *)
Definition tf (t : string) (doc : list string) : Z :=
  Z.of_nat (List.length (filter (String.eqb t) doc)).

(** In how many of the two texts a term occurs. *)
Definition df (t : string) (a b : list string) : Z :=
  ((if existsb (String.eqb t) a then 1 else 0)
   + (if existsb (String.eqb t) b then 1 else 0))%Z.

(** The weight of a term by the number of texts that have it:
    [ln((1 + 2) / (1 + df)) + 1], which is 1 for a term of both texts and
    the double next to [ln 1.5 + 1] for a term of one. *)
Definition idf (d : Z) : Q :=
  if (d =? 2)%Z then 1%Q else (6329652137158163 # 4503599627370496)%Q.

Definition weight (a b doc : list string) (t : string) : Q :=
  Binary64.mul (Binary64.of_int (tf t doc)) (idf (df t a b)).

(** A sum of doubles, taken from left to right. *)
Definition sum_of (xs : list Q) : Q := fold_left Binary64.add xs 0%Q.

Definition norm (v : list Q) : Q :=
  Binary64.sqrt (sum_of (map (fun x => Binary64.mul x x) v)).

(** A row is divided by its length; a row of zeros is left as it is. *)
Definition normalized (v : list Q) : list Q :=
  let n := norm v in
  if Qeq_bool n 0 then v else map (fun x => Binary64.div x n) v.

(** [fit_transform([text1, text2])]: the two rows of the matrix.  An
    empty vocabulary is a ValueError. *)
Definition fit_transform (text1 text2 : pyval) : option (list Q * list Q) :=
  match analyse text1 text2 with
  | Some (a, b) =>
      match vocabulary a b with
      | [] => None
      | v => Some (normalized (map (weight a b a) v),
                   normalized (map (weight a b b) v))
      end
  | None => None
  end.

(** An entry of the product of the matrix with its transpose. *)
Definition dot (u v : list Q) : Q :=
  sum_of (map (fun p => Binary64.mul (fst p) (snd p)) (combine u v)).

(** [(tfidf_matrix * tfidf_matrix.T).toarray()[0][1]] *)
Definition similarity (text1 text2 : pyval) : option Q :=
  match fit_transform text1 text2 with
  | Some (u, v) => Some (dot u v)
  | None => None
  end.

End Vectorizer.

End Tfidf.

(** ** A concrete environment

    Small deterministic stand-ins for the external services, on which the
    functions above can be evaluated. *)

Module Sample.

(** A 64-bit hash: the text read as a number in base 256, wrapped around
    to the signed 64-bit range, so that the last eight characters decide. *)
Definition hash (s : string) : Z :=
  (fold_left (fun h c => h * 256 + Z.of_nat (nat_of_ascii c) + 1)
             (list_ascii_of_string s) 0 + 2 ^ 63) mod 2 ^ 64 - 2 ^ 63.

Definition polarity (t : string) : option Q :=
  if API.is_substring "unreadable" t then None
  else if API.is_substring "great" t then Some (8 # 10)
  else if API.is_substring "awful" t then Some (-7 # 10)
  else Some 0%Q.

(** Words separated by single spaces. *)
Fixpoint words_from (acc : string) (s : string) : list string :=
  match s with
  | EmptyString => [acc]
  | String c rest =>
      if Ascii.eqb c " "%char then acc :: words_from "" rest
      else words_from (acc ++ String c "") rest
  end.

Definition is_letter (c : ascii) : bool :=
  let n := nat_of_ascii c in
  ((Nat.leb 65 n && Nat.leb n 90) || (Nat.leb 97 n && Nat.leb n 122))%bool.

Definition token_of (w : string) : NLP.token :=
  NLP.Token w
    (existsb (String.eqb w) ["the"; "a"; "an"; "is"; "of"; "and"])
    (existsb (String.eqb w) ["."; ","; "!"; "?"])
    (negb (w =? "") && forallb is_letter (list_ascii_of_string w))%bool.

Definition nlp (t : string) : option NLP.doc :=
  if API.is_substring "unreadable" t then None
  else Some (NLP.Doc (map token_of (words_from "" t)) []).

Definition summary (url : pyval) : option string :=
  match url with
  | PStr s => if String.prefix "https://" s then Some ("About " ++ s) else None
  | _ => None
  end.

Definition translate (t dest : string) : option string :=
  if dest =? "xx" then None else Some ("[" ++ dest ++ "] " ++ t).

Definition similarity (text1 text2 : pyval) : option Q :=
  match text1, text2 with
  | PStr a, PStr b => if a =? b then Some 1%Q else Some 0%Q
  | _, _ => None
  end.

Definition nlp_env : NLP.env :=
  NLP.Env hash polarity nlp summary translate similarity (fun _ => "<object>").

(** The words of the two texts, nothing removed. *)
Definition analyse (text1 text2 : pyval) : option (list string * list string) :=
  match text1, text2 with
  | PStr a, PStr b =>
      let words := fun t => filter (fun w => negb (w =? "")) (words_from "" t) in
      Some (words a, words b)
  | _, _ => None
  end.


Definition dumps (v : pyval) : string :=
  match v with
  | PDict d =>
      String.concat ","
        (map (fun kv => fst kv ++ ":" ++ NLP.py_format nlp_env (snd kv)) d)
  | _ => NLP.py_format nlp_env v
  end.

Definition env : API.env := API.Env dumps nlp_env.

Definition client : API.client :=
  API.Client "k3y" "https://news.example/v2/top-headlines".

End Sample.

(** ** Statements about the annotator's cache *)

(** One of the three sentiment labels. *)
Definition is_label (v : pyval) : Prop :=
  v = PStr "positive" \/ v = PStr "neutral" \/ v = PStr "negative".

(** Every cached entry whose key starts with [sentiment_] holds a label. *)
Definition sentiment_labelled (c : TTLCache.t pyval) : Prop :=
  forall l, In l (TTLCache.links c) ->
  String.prefix "sentiment_" (TTLCache.key l) = true -> is_label (TTLCache.value l).

(** No two texts have the same [hash]. *)
Definition collision_free (E : NLP.env) : Prop :=
  forall t1 t2, NLP.hash E t1 = NLP.hash E t2 -> t1 = t2.

(** A use of the annotator, and the state a sequence of uses leaves when
    it starts from the freshly imported module. *)
Inductive nlp_call : Type :=
| Analyze (text : option string) (now : Z)
| Keywords (text : option string) (top_n now : Z)
| Summarize (url : pyval) (now : Z)
| Translate (text : option string) (target_lang : string) (now : Z)
| Entities (text : option string) (now : Z)
| Similarity (text1 text2 : pyval).

Definition perform (E : NLP.env) (st : NLP.state) (c : nlp_call) : NLP.state :=
  match c with
  | Analyze text now => snd (NLP.analyze_sentiment E text now st)
  | Keywords text top_n now => snd (NLP.extract_keywords E text top_n now st)
  | Summarize url now => snd (NLP.summarize_article E url now st)
  | Translate text target_lang now => snd (NLP.translate_text E text target_lang now st)
  | Entities text now => snd (NLP.get_named_entities E text now st)
  | Similarity text1 text2 => snd (NLP.compute_text_similarity E text1 text2 st)
  end.

Definition after_calls (E : NLP.env) (cs : list nlp_call) : NLP.state :=
  fold_left (perform E) cs NLP.init.

(** What is asked of a keyword list: counts never increase along it, and
    every entry counts a word of [ws] at least once. *)
Definition by_count_desc (a b : string * nat) : Prop := (snd b <= snd a)%nat.

Definition counted_in (ws : list string) (kw : string * nat) : Prop :=
  (1 <= snd kw)%nat /\ In (fst kw) ws.

(** ** Statements about the annotator with its timer *)

(** [hash] of a [str] is a 64-bit integer. *)
Definition hash_64bit (E : NLP.env) : Prop :=
  forall t, (- 2 ^ 63 <= NLP.hash E t < 2 ^ 63)%Z.

(** A text of [n] letters. *)
Fixpoint copies (n : nat) : string :=
  match n with
  | O => ""
  | S n' => String "a" (copies n')
  end.

(** What the five cached operations share: the membership test, the
    subscript on a hit, and on a miss the external call in a [try] block
    whose handler returns a default. *)
Definition guarded {A : Type} (k : string) (c : NLP.call) (outcome : option A)
           (value : A -> pyval) (default : pyval) : M Timed.state pyval :=
  (cached <- Timed.cache_contains k ;;
   if cached : bool then Timed.cache_getitem k
   else
     try_except
       (a <- Timed.external c outcome ;;
        Timed.cache_setitem k (value a) ;;
        ret (value a))
       is_exception
       (fun _ => ret default))%py.

(** The same with one reading of the timer for the whole call, as in
    [NLP]. *)
Definition one_reading {A : Type} (k : string) (c : NLP.call) (outcome : option A)
           (value : A -> pyval) (default : pyval) (now : Z) (st : NLP.state)
  : pyval * NLP.state :=
  match NLP.looked_up k now st with
  | (Some v, st1) => (v, st1)
  | (None, st1) =>
      let st2 := NLP.logged c st1 in
      match outcome with
      | Some a => (value a, NLP.stored k (value a) now st2)
      | None => (default, st2)
      end
  end.

(** Nothing is stored under a key, live or expired. *)
Definition uncached (k : string) (c : TTLCache.t pyval) : Prop :=
  find (TTLCache.has_key k) (TTLCache.links c) = None.

(** The fields enrichment writes. *)
Definition enrichment_field (k : string) : bool :=
  ((k =? "sentiment") || (k =? "keywords") || (k =? "named_entities")
   || (k =? "summary"))%bool.

(** How an article of the input shows up in the output of
    [enrich_articles]: as it was when it is not a dict, and otherwise as a
    dict with all its own fields. *)
Definition kept (a a' : pyval) : Prop :=
  match a with
  | PDict d =>
      exists d', a' = PDict d'
        /\ forall k, enrichment_field k = false -> dict_get k d' = dict_get k d
  | _ => a' = a
  end.

(** A use of the annotator, and the state a sequence of uses leaves when
    it starts from the freshly imported module with the timer at [t0]. *)
Inductive timed_call : Type :=
| DoAnalyze (text : option string)
| DoKeywords (text : option string) (top_n : Z)
| DoSummarize (url : pyval)
| DoTranslate (text : option string) (target_lang : string)
| DoEntities (text : option string)
| DoEnrich (articles : pyval).

Definition timed_perform (E : NLP.env) (w : Timed.state) (c : timed_call) : Timed.state :=
  match c with
  | DoAnalyze text => snd (Timed.analyze_sentiment E text w)
  | DoKeywords text top_n => snd (Timed.extract_keywords E text top_n w)
  | DoSummarize url => snd (Timed.summarize_article E url w)
  | DoTranslate text target_lang => snd (Timed.translate_text E text target_lang w)
  | DoEntities text => snd (Timed.get_named_entities E text w)
  | DoEnrich articles => snd (Timed.enrich_articles E articles w)
  end.

Definition timed_after (E : NLP.env) (cs : list timed_call) (t0 : Z) (delays : list N)
  : Timed.state :=
  fold_left (timed_perform E) cs (Timed.start t0 delays).

(** ** Statements about the client's requests *)

Section RequestStatements.
Variable E : API.env.
Variable self : API.client.

(** The parameters as they leave [_make_request]. *)
Definition sent_params (params : dict) : dict :=
  dict_set "apiKey" (PStr (API.api_key self)) params.

Definition sent_key (endpoint : string) (params : dict) : string :=
  API.request_key E endpoint (sent_params params).

(** What [_make_request] does on a miss, by the reply of the remote end. *)
Definition after_request (endpoint : string) (params : dict) (now : Z) (st : API.state)
  : result pyval * API.state :=
  let c := snd (TTLCache.get (sent_key endpoint params) now (API.news_cache st)) in
  let sent := (API.requests st ++
               [API.Request (API.base_url self ++ endpoint) (sent_params params)])%list in
  match API.network st with
  | API.Json (PDict d) :: rest =>
      if API.is_str "ok" (dict_get_default "status" PNone d)
      then (Ok (PDict d),
            API.State (TTLCache.put (sent_key endpoint params) (PDict d) now c)
                      rest sent (API.nlp st))
      else (Ok PNone, API.State c rest sent (API.nlp st))
  | API.Json _ :: rest => (Raise AttributeError, API.State c rest sent (API.nlp st))
  | API.Failed :: rest => (Ok PNone, API.State c rest sent (API.nlp st))
  | [] => (Ok PNone, API.State c [] sent (API.nlp st))
  end.

End RequestStatements.

(** The parameters [get_sources] builds. *)
Definition sources_params (category : option string) (language : string)
           (country : option string) : dict :=
  API.set_if_given "country" country
    (API.set_if_given "category" category [("language", PStr language)]).

(** A reply that [_make_request] turns into None: none at all, a failure,
    or a JSON object whose status is not ok. *)
Definition unsuccessful (replies : list API.reply) : Prop :=
  match replies with
  | [] | API.Failed :: _ => True
  | API.Json (PDict d) :: _ => API.is_str "ok" (dict_get_default "status" PNone d) = false
  | API.Json _ :: _ => False
  end.

(** A cache in order: no two entries under one key, and no more entries
    than its capacity. *)
Definition cache_in_order {V : Type} (c : TTLCache.t V) : Prop :=
  NoDup (map (@TTLCache.key V) (TTLCache.links c))
  /\ (List.length (TTLCache.links c) <= Pos.to_nat (TTLCache.maxsize c))%nat.

(** The page downloads among the external calls. *)
Definition downloads (cs : list NLP.call) : list NLP.call :=
  filter (fun c => match c with NLP.CallNewspaper _ => true | _ => false end) cs.

(** ** Statements about preferences, history and cached articles *)

(** A text without a comma. *)
Fixpoint comma_free (s : string) : bool :=
  match s with
  | EmptyString => true
  | String c rest => negb (Ascii.eqb c ","%char) && comma_free rest
  end.

(** An item that survives being joined with commas and split again. *)
Definition plain_item (s : string) : Prop := comma_free s = true /\ s <> "".

(** Text or None: what a column keeps as it is, whatever its declared
    type. *)
Definition text_or_none (v : pyval) : Prop := v = PNone \/ exists s, v = PStr s.

(** The record [get_reading_history] makes of a row. *)
Definition history_record (r : Store.history_row) : pyval :=
  PDict [("url", Store.h_article_url r); ("title", Store.h_title r);
         ("category", Store.h_category r);
         ("timestamp", PInt (Store.h_read_timestamp r))].

Definition newer_first (a b : Store.history_row) : Prop :=
  (Store.h_read_timestamp b <= Store.h_read_timestamp a)%Z.

(** What [get_cached_article] makes of the rows the query selects. *)
Definition cached_record (rows : list Store.cached_article) : pyval :=
  match rows with
  | [] => PNone
  | r :: _ =>
      PDict [("title", Store.ca_title r); ("content", Store.ca_content r);
             ("summary", Store.ca_summary r); ("sentiment", Store.ca_sentiment r);
             ("cached_at", PInt (Store.ca_cached_at r))]
  end.

(** Nothing live is cached under a key. *)
Definition cache_miss (k : string) (now : Z) (c : TTLCache.t pyval) : Prop :=
  fst (TTLCache.get k now c) = None.

(** None of the annotator's operations finds its result cached. *)
Definition nlp_uncached (E : NLP.env) (t target_lang : string) (url : pyval)
           (now : Z) (st : NLP.state) : Prop :=
  cache_miss (NLP.sentiment_key E t) now (NLP.cache st)
  /\ cache_miss (NLP.keywords_key E t) now (NLP.cache st)
  /\ cache_miss (NLP.ner_key E t) now (NLP.cache st)
  /\ cache_miss (NLP.summary_key E url) now (NLP.cache st)
  /\ cache_miss (NLP.trans_key E t target_lang) now (NLP.cache st).

(** ** Statements about the persistence store *)

(** No two users share a name or an identifier. *)
Definition users_distinct (us : list DB.user) : Prop :=
  NoDup (map DB.username us) /\ NoDup (map DB.id us).

(** The statements that only read. *)
Definition is_read (q : DB.statement) : bool :=
  match q with
  | DB.SelectUserId _ | DB.SelectUser _ | DB.SelectCredentials _ _
  | DB.FeedbackSummary _ => true
  | DB.InsertUser _ _ | DB.InsertFeedback _ _ _ _ => false
  end.

(** A computation that leaves the state as it finds it. *)
Definition stateless {S A : Type} (m : M S A) : Prop := forall s, snd (m s) = s.

(** How many rows carry a given feedback text. *)
Definition count_feedback (label : string) (fs : list DB.feedback_row) : nat :=
  List.length
    (filter (fun f => match DB.fb_feedback f with
                      | Some s => s =? label
                      | None => false
                      end) fs).

Definition sum_ratings (fs : list DB.feedback_row) : Z :=
  fold_right Z.add 0 (DB.ratings fs).

(** The integers of a feedback fit SQLite's 64 bits. *)
Definition bindable_feedback (uid : Z) (rating : option Z) : bool :=
  (int64 uid && match rating with Some r => int64 r | None => true end)%bool.


Definition lowered (k : nat) : Q := ((1 - Binary64.rel_error) ^ Z.of_nat k)%Q.

(** * Properties *)

(** ** Floating point *)

Section FloatFacts.
Implicit Types (x y : Q) (k : Z).

Lemma pow2_pos k : (0 < Binary64.pow2 k)%Q.
Proof. unfold Binary64.pow2. apply Qpower_0_lt. reflexivity. Qed.

Lemma pow2_add k k' :
  (Binary64.pow2 (k + k') == Binary64.pow2 k * Binary64.pow2 k')%Q.
Proof. unfold Binary64.pow2. apply Qpower_plus. discriminate. Qed.

Lemma pow2_le k k' : (k <= k')%Z -> (Binary64.pow2 k <= Binary64.pow2 k')%Q.
Proof.
  intros H. unfold Binary64.pow2. apply Qpower_le_compat_l; [exact H | discriminate].
Qed.

Lemma pow2_nat k : (0 <= k)%Z -> (Binary64.pow2 k == inject_Z (2 ^ k))%Q.
Proof. intros H. unfold Binary64.pow2. now rewrite Zpower_Qpower. Qed.

Lemma num_pos x : (0 < x)%Q -> (0 < Qnum x)%Z.
Proof. destruct x as [n d]. unfold Qlt. simpl. lia. Qed.

Lemma times_den x : (x * inject_Z (Z.pos (Qden x)) == inject_Z (Qnum x))%Q.
Proof. destruct x as [n d]. unfold Qeq. simpl. rewrite Pos.mul_1_r. ring. Qed.

(** The binary logarithm is not over-estimated. *)
Lemma ilog2_le x : (0 < x)%Q -> (Binary64.pow2 (Binary64.ilog2 x) <= x)%Q.
Proof.
  intros Hx. unfold Binary64.ilog2.
  set (a := Z.log2 (Qnum x)). set (b := Z.log2 (Z.pos (Qden x))).
  destruct (Qle_bool (Binary64.pow2 (a - b)) x) eqn:Hle; [now apply Qle_bool_iff|].
  pose proof (num_pos Hx) as Hn.
  destruct (Z.log2_spec (Qnum x) Hn) as [Ha _]. fold a in Ha.
  destruct (Z.log2_spec (Z.pos (Qden x)) eq_refl) as [_ Hb]. fold b in Hb.
  assert (0 <= a)%Z as Ha0 by apply Z.log2_nonneg.
  assert (0 <= b)%Z as Hb0 by apply Z.log2_nonneg.
  apply (Qmult_le_r _ _ (Binary64.pow2 (b + 1))); [apply pow2_pos|].
  rewrite <- pow2_add. replace (a - b - 1 + (b + 1))%Z with a by ring.
  apply Qle_trans with (inject_Z (Qnum x)).
  - rewrite pow2_nat by exact Ha0. rewrite <- Zle_Qle. exact Ha.
  - rewrite <- times_den. apply Qmult_le_l; [exact Hx|].
    rewrite pow2_nat by lia. rewrite <- Zle_Qle.
    replace (Z.succ b) with (b + 1)%Z in Hb by lia. lia.
Qed.

Lemma nearest_even_floor y : (Qfloor y <= Binary64.nearest_even y)%Z.
Proof.
  unfold Binary64.nearest_even.
  destruct (y - inject_Z (Qfloor y) ?= 1 # 2)%Q; [destruct (Z.even _)| |]; lia.
Qed.

Lemma round_pos_nonneg x : (0 <= x)%Q -> (0 <= Binary64.round_pos x)%Q.
Proof.
  intros Hx. unfold Binary64.round_pos. rewrite Qred_correct.
  apply Qmult_le_0_compat; [|apply Qlt_le_weak, pow2_pos].
  rewrite <- (Zle_Qle 0). etransitivity; [|apply nearest_even_floor].
  change 0%Z with (Qfloor 0). apply Qfloor_resp_le.
  apply Qmult_le_0_compat; [exact Hx | apply Qlt_le_weak, pow2_pos].
Qed.

Lemma round_pos_pos x : (0 < x)%Q -> (0 < Binary64.round_pos x)%Q.
Proof.
  intros Hx. unfold Binary64.round_pos. rewrite Qred_correct.
  set (e := (Binary64.ilog2 x - 52)%Z).
  apply Qmult_lt_0_compat; [|apply pow2_pos].
  rewrite <- (Zlt_Qlt 0).
  apply Z.lt_le_trans with (Qfloor 1); [reflexivity|].
  etransitivity; [|apply nearest_even_floor].
  apply Qfloor_resp_le.
  apply (Qmult_le_r _ _ (Binary64.pow2 e)); [apply pow2_pos|].
  rewrite <- Qmult_assoc, <- pow2_add.
  replace (- e + e)%Z with 0%Z by ring.
  change (Binary64.pow2 0) with 1%Q. rewrite Qmult_1_l, Qmult_1_r.
  apply Qle_trans with (Binary64.pow2 (Binary64.ilog2 x)); [|now apply ilog2_le].
  apply pow2_le. unfold e. lia.
Qed.

Lemma round_nonneg x : (0 <= x)%Q -> (0 <= Binary64.round x)%Q.
Proof.
  intros Hx. unfold Binary64.round. destruct x as [[|n|n] d]; simpl.
  - apply Qle_refl.
  - now apply round_pos_nonneg.
  - exfalso. unfold Qle in Hx. simpl in Hx. lia.
Qed.

(** Rounding keeps the sign: only zero is rounded to zero. *)
Lemma round_zero x : Qeq_bool (Binary64.round x) 0 = Qeq_bool x 0.
Proof.
  unfold Binary64.round. destruct x as [[|n|n] d]; cbn [Qnum].
  - reflexivity.
  - assert (0 < Z.pos n # d)%Q as Hx by reflexivity.
    pose proof (round_pos_pos Hx) as Hr.
    transitivity false; [|reflexivity].
    apply not_true_is_false. intros Heq. apply Qeq_bool_iff in Heq.
    rewrite Heq in Hr. discriminate.
  - assert (0 < - (Z.neg n # d))%Q as Hx by reflexivity.
    pose proof (round_pos_pos Hx) as Hr.
    transitivity false; [|reflexivity].
    apply not_true_is_false. intros Heq. apply Qeq_bool_iff in Heq.
    assert (Binary64.round_pos (- (Z.neg n # d)) == 0)%Q as H0.
    { rewrite <- (Qopp_involutive (Binary64.round_pos _)). rewrite Heq. reflexivity. }
    rewrite H0 in Hr. discriminate.
Qed.

Lemma div_zero x y :
  Qeq_bool y 0 = false -> Qeq_bool (Binary64.div x y) 0 = Qeq_bool x 0.
Proof.
  intros Hy. unfold Binary64.div. rewrite round_zero.
  assert (~ y == 0)%Q as Hy' by (intros H; apply Qeq_bool_iff in H; congruence).
  destruct (Qeq_bool x 0) eqn:Hx.
  - apply Qeq_bool_iff. apply Qeq_bool_iff in Hx. rewrite Hx. unfold Qdiv. ring.
  - apply not_true_is_false. intros H. apply Qeq_bool_iff in H.
    assert (x == 0)%Q as H0.
    { rewrite <- (Qmult_div_r x y Hy'), H. ring. }
    apply Qeq_bool_iff in H0. congruence.
Qed.

Lemma of_int_zero n : Qeq_bool (Binary64.of_int n) 0 = (n =? 0)%Z.
Proof.
  unfold Binary64.of_int. rewrite round_zero.
  unfold Qeq_bool. simpl. now rewrite Z.mul_1_r.
Qed.



Lemma rel_error_value : (Binary64.rel_error == 1 # 9007199254740992)%Q.
Proof. reflexivity. Qed.

Lemma pow2_inv k : (Binary64.pow2 k * Binary64.pow2 (- k) == 1)%Q.
Proof.
  rewrite <- pow2_add. replace (k + - k)%Z with 0%Z by ring. reflexivity.
Qed.




Lemma sqrt_pos_positive x : (0 < x)%Q -> (0 < Binary64.sqrt_pos x)%Q /\
  (x * ((1 - Binary64.rel_error) * (1 - Binary64.rel_error))
   <= Binary64.sqrt_pos x * Binary64.sqrt_pos x)%Q.
Proof.
  intros Hx. unfold Binary64.sqrt_pos. rewrite Qred_correct.
  set (h := (Binary64.ilog2 x / 2)%Z).
  set (e := (h - 52)%Z).
  set (y4 := (x * Binary64.pow2 (2 - 2 * e))%Q).
  set (s := Z.sqrt (Qfloor y4)).
  set (m' := if Z.even s then (s / 2)%Z
             else if Qeq_bool (inject_Z (s * s)) y4
                  then (if Z.even (s / 2) then s / 2 else s / 2 + 1)%Z
                  else (s / 2 + 1)%Z).
  pose proof (pow2_pos e) as HP. set (P := Binary64.pow2 e) in *.
  (* the scaled square has 107 bits *)
  assert (inject_Z (2 ^ 106) <= y4)%Q as Hbig.
  { unfold y4.
    apply Qle_trans with (Binary64.pow2 (Binary64.ilog2 x) * Binary64.pow2 (2 - 2 * e))%Q.
    - rewrite <- pow2_add, <- pow2_nat by lia. apply pow2_le.
      pose proof (Z.div_mod (Binary64.ilog2 x) 2 ltac:(lia)) as Hd.
      pose proof (Z.mod_pos_bound (Binary64.ilog2 x) 2 ltac:(lia)) as Hm.
      fold h in Hd. unfold e. lia.
    - apply Qmult_le_compat_r; [now apply ilog2_le | apply Qlt_le_weak, pow2_pos]. }
  assert (2 ^ 106 <= Qfloor y4)%Z as Hn.
  { rewrite <- (Qfloor_Z (2 ^ 106)). now apply Qfloor_resp_le. }
  assert (0 <= Qfloor y4)%Z as Hn0 by lia.
  pose proof (Z.sqrt_spec (Qfloor y4) Hn0) as [Hs1 Hs2]. fold s in Hs1, Hs2.
  assert (2 ^ 53 <= s)%Z as Hs.
  { unfold s. apply Z.sqrt_le_square; [lia | lia | exact Hn]. }
  pose proof (Z.div_mod s 2 ltac:(lia)) as Hd.
  pose proof (Z.mod_pos_bound s 2 ltac:(lia)) as Hm.
  assert (2 ^ 52 <= m')%Z as Hm'.
  { unfold m'. destruct (Z.even s); [lia|].
    destruct (Qeq_bool _ _); [destruct (Z.even _)|]; lia. }
  assert (y4 <= inject_Z ((2 * m' + 1) * (2 * m' + 1)))%Q as Habove.
  { assert (y4 < inject_Z (Qfloor y4 + 1))%Q as Hlt by apply Qlt_floor.
    assert ((s + 1) * (s + 1) <= (2 * m' + 1) * (2 * m' + 1)
            \/ (y4 == inject_Z (s * s))%Q /\ s * s <= (2 * m' + 1) * (2 * m' + 1))%Z
      as [Hcase|[Htie Hcase]].
    { unfold m'. destruct (Z.even s) eqn:Heven.
      - left. apply Z.even_spec in Heven. destruct Heven as [k Hk].
        assert (s / 2 = k)%Z as -> by lia. subst s. rewrite Hk. lia.
      - destruct (Qeq_bool (inject_Z (s * s)) y4) eqn:Htie.
        + right. apply Qeq_bool_iff in Htie. split; [now symmetry|].
          destruct (Z.even (s / 2)); nia.
        + left. nia. }
    - apply Qle_trans with (inject_Z (Qfloor y4 + 1)); [now apply Qlt_le_weak|].
      rewrite <- Zle_Qle.
      replace (Z.succ s * Z.succ s)%Z with ((s + 1) * (s + 1))%Z in Hs2 by lia. lia.
    - rewrite Htie. now rewrite <- Zle_Qle. }
  set (M := inject_Z m') in *.
  assert (4503599627370496 <= M)%Q as HM.
  { unfold M. change 4503599627370496%Q with (inject_Z (2 ^ 52)). now rewrite <- Zle_Qle. }
  assert (y4 <= (2 * M + 1) * (2 * M + 1))%Q as Habove'.
  { eapply Qle_trans; [exact Habove|]. unfold M.
    rewrite !inject_Z_mult, !inject_Z_plus, !inject_Z_mult. apply Qle_refl. }
  assert (x == y4 * (P * P) * (1 # 4))%Q as Hxy.
  { unfold y4. replace (2 - 2 * e)%Z with (2 + (- e + - e))%Z by ring.
    rewrite !pow2_add. pose proof (pow2_inv e) as Hinv. fold P in Hinv.
    change (Binary64.pow2 2) with 4%Q.
    transitivity (x * ((P * Binary64.pow2 (- e)) * (P * Binary64.pow2 (- e))))%Q;
      [rewrite Hinv; ring | ring]. }
  split.
  - apply Qmult_lt_0_compat; [lra | exact HP].
  - rewrite rel_error_value, Hxy.
    set (u := (1 # 9007199254740992)%Q).
    assert ((2 * M + 1) * (1 - u) <= 2 * M)%Q as Hstep by (unfold u; lra).
    assert (0 <= (2 * M + 1) * (1 - u))%Q as Hpos by (unfold u; nra).
    assert (y4 * ((1 - u) * (1 - u)) <= (2 * M) * (2 * M))%Q as Hsq.
    { apply Qle_trans with (((2 * M + 1) * (1 - u)) * ((2 * M + 1) * (1 - u)))%Q.
      - assert (0 <= (1 - u) * (1 - u))%Q by (unfold u; lra).
        setoid_replace (((2 * M + 1) * (1 - u)) * ((2 * M + 1) * (1 - u)))%Q
          with (((2 * M + 1) * (2 * M + 1)) * ((1 - u) * (1 - u)))%Q by ring.
        now apply Qmult_le_compat_r.
      - nra. }
    assert (0 <= P * P)%Q as HPP by nra.
    setoid_replace (y4 * (P * P) * (1 # 4) * ((1 - u) * (1 - u)))%Q
      with ((y4 * ((1 - u) * (1 - u))) * ((P * P) * (1 # 4)))%Q by ring.
    setoid_replace (M * P * (M * P))%Q
      with ((2 * M * (2 * M)) * ((P * P) * (1 # 4)))%Q by ring.
    apply Qmult_le_compat_r; [exact Hsq | lra].
Qed.


Lemma sqrt_positive x : (0 < x)%Q -> (0 < Binary64.sqrt x)%Q.
Proof.
  intros Hx. unfold Binary64.sqrt. destruct x as [[|n|n] d]; cbn [Qnum];
    try (exfalso; unfold Qlt in Hx; simpl in Hx; lia).
  now apply sqrt_pos_positive.
Qed.

End FloatFacts.

(** ** The vectoriser *)

Section TfidfFacts.
Implicit Types (x y acc : Q) (xs ys : list Q) (k : nat).

Lemma rel_error_small : (0 < Binary64.rel_error < 1)%Q.
Proof. rewrite rel_error_value. split; reflexivity. Qed.


Lemma lowered_succ k : (lowered (S k) == (1 - Binary64.rel_error) * lowered k)%Q.
Proof.
  unfold lowered. rewrite Nat2Z.inj_succ. unfold Z.succ.
  rewrite Qpower_plus, Qpower_1_r; [ring|].
  pose proof rel_error_small. intros H0. lra.
Qed.


Lemma lowered_pos k : (0 < lowered k)%Q.
Proof. unfold lowered. apply Qpower_0_lt. pose proof rel_error_small. lra. Qed.

Lemma lowered_le_1 k : (lowered k <= 1)%Q.
Proof.
  induction k as [|k IH]; [apply Qle_refl|].
  rewrite lowered_succ. pose proof rel_error_small. pose proof (lowered_pos k). nra.
Qed.





























End TfidfFacts.

(** ** The expiring cache *)

Section CacheFacts.
Variable V : Type.
Implicit Types (c : TTLCache.t V) (l : TTLCache.link V) (k : string).
Local Abbreviation has_key := (@TTLCache.has_key V).

Lemma has_key_refl k (v : V) e :
  has_key k (TTLCache.Link k v e) = true.
Proof. unfold has_key; simpl. apply String.eqb_refl. Qed.

Lemma find_without k ls : find (has_key k) (TTLCache.without k ls) = None.
Proof.
  induction ls as [|l ls IH]; simpl; [reflexivity|].
  destruct (has_key k l) eqn:Hk; simpl; [exact IH|].
  now rewrite Hk.
Qed.

Lemma find_app_none (f : TTLCache.link V -> bool) xs ys :
  find f xs = None -> find f (xs ++ ys) = find f ys.
Proof.
  induction xs as [|x xs IH]; simpl; [reflexivity|].
  destruct (f x); [discriminate | exact IH].
Qed.

Lemma find_put k v now c :
  find (has_key k) (TTLCache.links (TTLCache.put k v now c))
  = Some (TTLCache.Link k v (now + TTLCache.ttl c)).
Proof.
  unfold TTLCache.put; simpl.
  rewrite find_app_none by apply find_without.
  simpl. now rewrite has_key_refl.
Qed.

Lemma ttl_put k v now c : TTLCache.ttl (TTLCache.put k v now c) = TTLCache.ttl c.
Proof. reflexivity. Qed.

(** The guarded lookup misses exactly when [key in cache] is false. *)
Lemma get_miss_iff_not_contains k now c :
  fst (TTLCache.get k now c) = None <-> TTLCache.contains k now c = false.
Proof.
  unfold TTLCache.get, TTLCache.contains.
  destruct (find _ _) as [l|]; [|tauto].
  destruct (TTLCache.fresh now l); simpl; split; congruence.
Qed.

Lemma get_after_put k v now now' c :
  fst (TTLCache.get k now' (TTLCache.put k v now c))
  = if (now' <? now + TTLCache.ttl c)%Z then Some v else None.
Proof.
  unfold TTLCache.get. rewrite find_put.
  unfold TTLCache.fresh; simpl.
  now destruct (now' <? now + TTLCache.ttl c)%Z.
Qed.

(** Where the entries of a cache come from after one use. *)
Lemma in_without k l ls : In l (TTLCache.without k ls) -> In l ls.
Proof. unfold TTLCache.without. intros H. apply filter_In in H. tauto. Qed.

Lemma in_evict n l ls : In l (TTLCache.evict n ls) -> In l ls.
Proof.
  unfold TTLCache.evict. intros H.
  rewrite <- (firstn_skipn (List.length ls - n) ls).
  apply in_or_app. now right.
Qed.

Lemma in_links_get k now c l :
  In l (TTLCache.links (snd (TTLCache.get k now c))) -> In l (TTLCache.links c).
Proof.
  unfold TTLCache.get.
  destruct (find (has_key k) (TTLCache.links c)) as [l0|] eqn:Hf;
    [|now simpl].
  destruct (TTLCache.fresh now l0); [|now simpl].
  simpl. intros H. apply in_app_or in H. destruct H as [H|[H|[]]].
  - eapply in_without; eauto.
  - subst. apply find_some in Hf. tauto.
Qed.

Lemma in_links_put k v now c l :
  In l (TTLCache.links (TTLCache.put k v now c)) ->
  In l (TTLCache.links c) \/ l = TTLCache.Link k v (now + TTLCache.ttl c).
Proof.
  unfold TTLCache.put; simpl. intros H.
  apply in_app_or in H. destruct H as [H|[H|[]]]; [left|now right].
  apply in_without in H.
  assert (In l (TTLCache.expire now (TTLCache.links c))) as Hl.
  { destruct (find _ _); [exact H | eapply in_evict; eauto]. }
  unfold TTLCache.expire in Hl. apply filter_In in Hl. tauto.
Qed.

Lemma put_replaces k v now c l :
  In l (TTLCache.links (TTLCache.put k v now c)) -> TTLCache.key l = k ->
  l = TTLCache.Link k v (now + TTLCache.ttl c).
Proof.
  unfold TTLCache.put; simpl. intros H Hk.
  apply in_app_or in H. destruct H as [H|[H|[]]]; [|now symmetry].
  unfold TTLCache.without in H. apply filter_In in H. destruct H as [_ H].
  unfold TTLCache.has_key in H. rewrite Hk, String.eqb_refl in H. discriminate.
Qed.

(** A property of the entries under key [k] survives every use of the
    cache that does not store under [k]. *)
Lemma run_keeps (P : TTLCache.link V -> Prop) k ops : forall c,
  forallb (fun o => negb (TTLCache.writes k o)) ops = true ->
  (forall l, In l (TTLCache.links c) -> TTLCache.key l = k -> P l) ->
  forall l, In l (TTLCache.links (TTLCache.run ops c)) -> TTLCache.key l = k -> P l.
Proof.
  induction ops as [|o ops IH]; intros c Hw Hc; [exact Hc|].
  simpl in Hw. apply andb_true_iff in Hw. destruct Hw as [Ho Hw].
  simpl. apply IH; [exact Hw|].
  intros l Hl Hk. destruct o as [k' t|k' v' t]; simpl in Hl.
  - apply in_links_get in Hl. auto.
  - apply in_links_put in Hl. destruct Hl as [Hl|Hl]; [auto|].
    subst l. simpl in Hk, Ho. subst k'.
    rewrite String.eqb_refl in Ho. discriminate.
Qed.

(** C7. A value stored under a key is returned by a lookup of that key
    made at once, and by any lookup made before the time-to-live of the
    cache has elapsed; a lookup made once the time-to-live has elapsed
    since the insertion is a miss, whatever use was made of the cache in
    between, as long as the key was not stored again. *)
Theorem cache_round_trip c k v now :
  (0 < TTLCache.ttl c)%Z ->
  fst (TTLCache.get k now (TTLCache.put k v now c)) = Some v
  /\ (forall now', (now' < now + TTLCache.ttl c)%Z ->
        fst (TTLCache.get k now' (TTLCache.put k v now c)) = Some v)
  /\ (forall ops now',
        forallb (fun o => negb (TTLCache.writes k o)) ops = true ->
        (now + TTLCache.ttl c <= now')%Z ->
        fst (TTLCache.get k now' (TTLCache.run ops (TTLCache.put k v now c))) = None).
Proof.
  intros Httl. split; [|split].
  - rewrite get_after_put.
    destruct (Z.ltb_spec now (now + TTLCache.ttl c)); [reflexivity | lia].
  - intros now' Hlt. rewrite get_after_put.
    destruct (Z.ltb_spec now' (now + TTLCache.ttl c)); [reflexivity | lia].
  - intros ops now' Hw Hle.
    pose proof (@run_keeps
                  (fun l => TTLCache.expires l = (now + TTLCache.ttl c)%Z)
                  k ops (TTLCache.put k v now c) Hw) as Hkeep.
    unfold TTLCache.get.
    destruct (find _ _) as [l|] eqn:Hf; [|reflexivity].
    apply find_some in Hf. destruct Hf as [Hin Hk].
    unfold has_key in Hk. apply String.eqb_eq in Hk.
    assert (TTLCache.expires l = (now + TTLCache.ttl c)%Z) as He.
    { apply Hkeep; [|exact Hin|now symmetry].
      intros l' Hl' Hk'. simpl. now rewrite (put_replaces _ _ _ _ Hl' Hk'). }
    unfold TTLCache.fresh. rewrite He.
    destruct (Z.ltb_spec now' (now + TTLCache.ttl c)); [lia | reflexivity].
Qed.

End CacheFacts.

(** ** The annotator *)

Section NLPFacts.
Variable E : NLP.env.
Implicit Types (st : NLP.state) (c : TTLCache.t pyval) (t k : string) (p : Q).

Lemma label_of_positive p : (NLP.float_0_1 < p)%Q -> NLP.label_of p = "positive".
Proof.
  intros H. unfold NLP.label_of.
  destruct (Qlt_le_dec NLP.float_0_1 p); [reflexivity|].
  unfold NLP.float_0_1 in *. lra.
Qed.

Lemma label_of_negative p : (p < - NLP.float_0_1)%Q -> NLP.label_of p = "negative".
Proof.
  intros H. unfold NLP.label_of.
  destruct (Qlt_le_dec NLP.float_0_1 p); [unfold NLP.float_0_1 in *; lra|].
  destruct (Qlt_le_dec p (- NLP.float_0_1)); [reflexivity|].
  unfold NLP.float_0_1 in *. lra.
Qed.

Lemma label_of_neutral p :
  (- NLP.float_0_1 <= p)%Q -> (p <= NLP.float_0_1)%Q -> NLP.label_of p = "neutral".
Proof.
  intros H1 H2. unfold NLP.label_of.
  destruct (Qlt_le_dec NLP.float_0_1 p); [unfold NLP.float_0_1 in *; lra|].
  destruct (Qlt_le_dec p (- NLP.float_0_1)); [unfold NLP.float_0_1 in *; lra|].
  reflexivity.
Qed.

Lemma label_of_is_label p : is_label (PStr (NLP.label_of p)).
Proof.
  unfold NLP.label_of, is_label.
  destruct (Qlt_le_dec NLP.float_0_1 p); [auto|].
  destruct (Qlt_le_dec p (- NLP.float_0_1)); auto.
Qed.

Lemma looked_up_eq k now st :
  NLP.looked_up k now st
  = (fst (TTLCache.get k now (NLP.cache st)),
     NLP.State (snd (TTLCache.get k now (NLP.cache st))) (NLP.calls st)).
Proof. unfold NLP.looked_up. now destruct (TTLCache.get k now (NLP.cache st)). Qed.

(** A hit returns the value of an entry of the cache stored under the key. *)
Lemma get_hit (V : Type) k now (c : TTLCache.t V) v :
  fst (TTLCache.get k now c) = Some v ->
  exists l, In l (TTLCache.links c) /\ TTLCache.key l = k /\ TTLCache.value l = v.
Proof.
  unfold TTLCache.get.
  destruct (find _ _) as [l|] eqn:Hf; [|discriminate].
  destruct (TTLCache.fresh now l); [|discriminate].
  simpl. intros [= <-]. apply find_some in Hf. destruct Hf as [Hin Hk].
  exists l. unfold TTLCache.has_key in Hk. apply String.eqb_eq in Hk. auto.
Qed.

End NLPFacts.

(** *** Where the entries of [cache] come from *)

Section NLPFootprint.
Variable E : NLP.env.
Implicit Types (st : NLP.state) (l : TTLCache.link pyval).

Ltac open_lookup :=
  rewrite looked_up_eq;
  match goal with
  | |- context [fst (TTLCache.get ?k ?n ?c)] =>
      let Hget := fresh "Hget" in
      destruct (fst (TTLCache.get k n c)) eqn:Hget
  end; cbn [fst snd NLP.cache NLP.calls NLP.stored NLP.logged].

Ltac from_lookup H := left; eapply in_links_get; exact H.

Ltac from_store H :=
  apply in_links_put in H; destruct H as [H|H];
  [ left; eapply in_links_get; exact H | right ].

Lemma analyze_sentiment_links text now st l :
  In l (TTLCache.links (NLP.cache (snd (NLP.analyze_sentiment E text now st)))) ->
  In l (TTLCache.links (NLP.cache st))
  \/ exists t p e, text = Some t /\ t <> "" /\ NLP.polarity E t = Some p
       /\ l = TTLCache.Link (NLP.sentiment_key E t) (PStr (NLP.label_of p)) e.
Proof.
  unfold NLP.analyze_sentiment.
  destruct text as [[|a t]|]; [now left| |now left].
  open_lookup; [intros H; from_lookup H|].
  destruct (NLP.polarity E (String a t)) as [p|] eqn:Hp;
    cbn [fst snd NLP.cache NLP.calls NLP.stored NLP.logged]; intros H;
    [from_store H | from_lookup H].
  exists (String a t), p. eexists. repeat split; [discriminate|exact Hp|exact H].
Qed.

Lemma extract_keywords_links text top_n now st l :
  In l (TTLCache.links (NLP.cache (snd (NLP.extract_keywords E text top_n now st)))) ->
  In l (TTLCache.links (NLP.cache st))
  \/ exists t v e, l = TTLCache.Link (NLP.keywords_key E t) v e.
Proof.
  unfold NLP.extract_keywords.
  destruct text as [[|a t]|]; [now left| |now left].
  open_lookup; [intros H; from_lookup H|].
  destruct (NLP.nlp E (String a t)) as [d|];
    cbn [fst snd NLP.cache NLP.calls NLP.stored NLP.logged]; intros H;
    [from_store H | from_lookup H].
  eauto.
Qed.

Lemma summarize_article_links url now st l :
  In l (TTLCache.links (NLP.cache (snd (NLP.summarize_article E url now st)))) ->
  In l (TTLCache.links (NLP.cache st))
  \/ exists v e, l = TTLCache.Link (NLP.summary_key E url) v e.
Proof.
  unfold NLP.summarize_article.
  open_lookup; [intros H; from_lookup H|].
  destruct (NLP.summary E url) as [s|];
    cbn [fst snd NLP.cache NLP.calls NLP.stored NLP.logged]; intros H;
    [from_store H | from_lookup H].
  eauto.
Qed.

Lemma translate_text_links text target_lang now st l :
  In l (TTLCache.links (NLP.cache (snd (NLP.translate_text E text target_lang now st)))) ->
  In l (TTLCache.links (NLP.cache st))
  \/ exists t v e, l = TTLCache.Link (NLP.trans_key E t target_lang) v e.
Proof.
  unfold NLP.translate_text.
  destruct text as [[|a t]|]; [now left| |now left].
  destruct (target_lang =? "en"); [now left|].
  open_lookup; [intros H; from_lookup H|].
  destruct (NLP.translate E (String a t) target_lang) as [s|];
    cbn [fst snd NLP.cache NLP.calls NLP.stored NLP.logged]; intros H;
    [from_store H | from_lookup H].
  eauto.
Qed.

Lemma get_named_entities_links text now st l :
  In l (TTLCache.links (NLP.cache (snd (NLP.get_named_entities E text now st)))) ->
  In l (TTLCache.links (NLP.cache st))
  \/ exists t v e, l = TTLCache.Link (NLP.ner_key E t) v e.
Proof.
  unfold NLP.get_named_entities.
  destruct text as [[|a t]|]; [now left| |now left].
  open_lookup; [intros H; from_lookup H|].
  destruct (NLP.nlp E (String a t)) as [d|];
    cbn [fst snd NLP.cache NLP.calls NLP.stored NLP.logged]; intros H;
    [from_store H | from_lookup H].
  eauto.
Qed.

Lemma compute_text_similarity_cache text1 text2 st :
  NLP.cache (snd (NLP.compute_text_similarity E text1 text2 st)) = NLP.cache st.
Proof.
  unfold NLP.compute_text_similarity. now destruct (NLP.similarity E text1 text2).
Qed.

End NLPFootprint.

(** *** Invariants of [cache] *)

Section NLPInvariants.
Variable E : NLP.env.
Implicit Types (st : NLP.state) (l : TTLCache.link pyval).

Lemma py_int_str_inj a b : py_int_str a = py_int_str b -> a = b.
Proof.
  unfold py_int_str. intros H.
  apply (f_equal NilZero.int_of_string) in H.
  assert (forall z, Z.to_int z <> Decimal.Pos Decimal.Nil
                    /\ Z.to_int z <> Decimal.Neg Decimal.Nil) as Hnn.
  { intros [|q|q]; simpl; split; try discriminate;
      intros [= Hq]; now apply Unsigned.to_uint_nonnil in Hq. }
  rewrite !NilZero.isi in H by apply Hnn.
  injection H as H. now apply to_int_inj.
Qed.

Lemma labelled_init : sentiment_labelled (NLP.cache NLP.init).
Proof. intros l []. Qed.

Lemma analyze_sentiment_labelled text now st :
  sentiment_labelled (NLP.cache st) ->
  sentiment_labelled (NLP.cache (snd (NLP.analyze_sentiment E text now st))).
Proof.
  intros Hinv l Hl. apply analyze_sentiment_links in Hl.
  destruct Hl as [Hl|(t & p & e & _ & _ & _ & ->)]; [now apply Hinv|].
  intros _. apply label_of_is_label.
Qed.

Lemma extract_keywords_labelled text top_n now st :
  sentiment_labelled (NLP.cache st) ->
  sentiment_labelled (NLP.cache (snd (NLP.extract_keywords E text top_n now st))).
Proof.
  intros Hinv l Hl. apply extract_keywords_links in Hl.
  destruct Hl as [Hl|(t & v & e & ->)]; [now apply Hinv|discriminate].
Qed.

Lemma summarize_article_labelled url now st :
  sentiment_labelled (NLP.cache st) ->
  sentiment_labelled (NLP.cache (snd (NLP.summarize_article E url now st))).
Proof.
  intros Hinv l Hl. apply summarize_article_links in Hl.
  destruct Hl as [Hl|(v & e & ->)]; [now apply Hinv|discriminate].
Qed.

Lemma translate_text_labelled text target_lang now st :
  sentiment_labelled (NLP.cache st) ->
  sentiment_labelled (NLP.cache (snd (NLP.translate_text E text target_lang now st))).
Proof.
  intros Hinv l Hl. apply translate_text_links in Hl.
  destruct Hl as [Hl|(t & v & e & ->)]; [now apply Hinv|discriminate].
Qed.

Lemma get_named_entities_labelled text now st :
  sentiment_labelled (NLP.cache st) ->
  sentiment_labelled (NLP.cache (snd (NLP.get_named_entities E text now st))).
Proof.
  intros Hinv l Hl. apply get_named_entities_links in Hl.
  destruct Hl as [Hl|(t & v & e & ->)]; [now apply Hinv|discriminate].
Qed.

(** The invariant holds in every state the annotator can reach. *)
Lemma labelled_after_calls cs :
  sentiment_labelled (NLP.cache (after_calls E cs)).
Proof.
  unfold after_calls.
  enough (forall st, sentiment_labelled (NLP.cache st) ->
            sentiment_labelled (NLP.cache (fold_left (perform E) cs st))) as H
      by (apply H, labelled_init).
  induction cs as [|c cs IH]; intros st Hst; [exact Hst|].
  simpl. apply IH. destruct c; simpl.
  - now apply analyze_sentiment_labelled.
  - now apply extract_keywords_labelled.
  - now apply summarize_article_labelled.
  - now apply translate_text_labelled.
  - now apply get_named_entities_labelled.
  - now rewrite compute_text_similarity_cache.
Qed.

End NLPInvariants.

(** ** Enrichment *)

Section EnrichFacts.
Variable E : API.env.
Implicit Types (st : NLP.state) (d : dict) (a : pyval).

Lemma dict_get_set k k' v d :
  dict_get k (dict_set k' v d) = if k =? k' then Some v else dict_get k d.
Proof.
  induction d as [|[k0 v0] rest IH]; simpl.
  - now destruct (k =? k').
  - destruct (String.eqb_spec k' k0) as [->|Hne]; simpl.
    + now destruct (k =? k0).
    + rewrite IH. destruct (String.eqb_spec k k0) as [->|Hne']; [|reflexivity].
      destruct (String.eqb_spec k0 k'); [congruence | reflexivity].
Qed.

Lemma enrichment_field_false k :
  enrichment_field k = false ->
  (k =? "sentiment") = false /\ (k =? "keywords") = false
  /\ (k =? "named_entities") = false /\ (k =? "summary") = false.
Proof.
  unfold enrichment_field. intros H.
  repeat (apply orb_false_iff in H; destruct H as [H ?]). auto.
Qed.

End EnrichFacts.

(** ** Keyword extraction *)

Section KeywordFacts.
Variable E : NLP.env.
Implicit Types (st : NLP.state) (c : list (string * nat)).

Lemma ttl_get (V : Type) k now (c : TTLCache.t V) :
  TTLCache.ttl (snd (TTLCache.get k now c)) = TTLCache.ttl c.
Proof.
  unfold TTLCache.get. destruct (find _ _) as [l|]; [|reflexivity].
  now destruct (TTLCache.fresh now l).
Qed.

(** A second call for the same text within the time-to-live returns what
    the first call stored, whatever [top_n] it is given. *)
Lemma extract_keywords_hit_ignores_top_n st t n1 n2 now1 now2 d :
  t <> "" ->
  fst (TTLCache.get (NLP.keywords_key E t) now1 (NLP.cache st)) = None ->
  NLP.nlp E t = Some d ->
  (now2 < now1 + TTLCache.ttl (NLP.cache st))%Z ->
  fst (NLP.extract_keywords E (Some t) n2 now2
         (snd (NLP.extract_keywords E (Some t) n1 now1 st)))
  = PList (map NLP.keyword_val (NLP.most_common n1 (NLP.Counter (NLP.keywords_of d)))).
Proof.
  intros Ht Hmiss Hd Hlt.
  destruct t as [|a t]; [congruence|].
  unfold NLP.extract_keywords at 2. rewrite looked_up_eq, Hmiss, Hd.
  cbn [fst snd]. unfold NLP.extract_keywords. rewrite looked_up_eq.
  cbn [NLP.stored NLP.logged NLP.cache NLP.calls].
  rewrite get_after_put, ttl_get.
  destruct (Z.ltb_spec now2 (now1 + TTLCache.ttl (NLP.cache st))); [reflexivity | lia].
Qed.

Lemma count_add_counted ws w c :
  In w ws -> Forall (counted_in ws) c -> Forall (counted_in ws) (NLP.count_add w c).
Proof.
  intros Hw Hc. induction Hc as [|[w' n] rest [Hn Hin] Hrest IH]; simpl.
  - constructor; [split; simpl; [lia | exact Hw] | constructor].
  - simpl in Hn, Hin. destruct (w =? w'); constructor; try assumption;
      split; simpl; auto; lia.
Qed.

Lemma Counter_counted ws : Forall (counted_in ws) (NLP.Counter ws).
Proof.
  unfold NLP.Counter.
  enough (forall vs acc, incl vs ws -> Forall (counted_in ws) acc ->
            Forall (counted_in ws) (fold_left (fun c w => NLP.count_add w c) vs acc))
    as H by (apply H; [apply incl_refl | constructor]).
  induction vs as [|v vs IH]; intros acc Hincl Hacc; simpl; [exact Hacc|].
  apply IH; [intros x Hx; apply Hincl; now right|].
  apply count_add_counted; [apply Hincl; now left | exact Hacc].
Qed.

Lemma insert_desc_Forall (P : string * nat -> Prop) x c :
  P x -> Forall P c -> Forall P (NLP.insert_desc x c).
Proof.
  intros Hx Hc. induction Hc as [|y rest Hy Hrest IH]; simpl.
  - constructor; [exact Hx | constructor].
  - destruct (Nat.leb (snd y) (snd x)); repeat constructor; assumption.
Qed.

Lemma sort_desc_Forall (P : string * nat -> Prop) c :
  Forall P c -> Forall P (NLP.sort_desc c).
Proof.
  induction 1 as [|x rest Hx _ IH]; simpl; [constructor|].
  now apply insert_desc_Forall.
Qed.

Lemma insert_desc_sorted x c :
  Sorted by_count_desc c -> Sorted by_count_desc (NLP.insert_desc x c).
Proof.
  induction 1 as [|y rest Hs IH Hhd]; simpl.
  - repeat constructor.
  - destruct (Nat.leb_spec (snd y) (snd x)) as [Hle|Hgt].
    + constructor; [constructor; assumption | constructor; exact Hle].
    + constructor; [exact IH|].
      destruct rest as [|z rest']; simpl.
      * constructor. unfold by_count_desc. lia.
      * inversion Hhd; subst.
        destruct (Nat.leb (snd z) (snd x)); constructor;
          unfold by_count_desc in *; [lia | assumption].
Qed.

Lemma sort_desc_sorted c : StronglySorted by_count_desc (NLP.sort_desc c).
Proof.
  apply Sorted_StronglySorted.
  - intros a b d Hab Hbd. unfold by_count_desc in *. lia.
  - induction c as [|x rest IH]; simpl; [constructor | now apply insert_desc_sorted].
Qed.

Lemma firstn_sorted (R : string * nat -> string * nat -> Prop) n c :
  StronglySorted R c -> StronglySorted R (firstn n c).
Proof.
  intros Hs. revert n. induction Hs as [|x rest Hs IH Hall]; intros [|n]; simpl;
    try constructor.
  - apply IH.
  - rewrite Forall_forall in *. intros y Hy. apply Hall.
    rewrite <- (firstn_skipn n rest). apply in_or_app. now left.
Qed.

Lemma firstn_Forall (P : string * nat -> Prop) n c :
  Forall P c -> Forall P (firstn n c).
Proof.
  rewrite !Forall_forall. intros H x Hx. apply H.
  rewrite <- (firstn_skipn n c). apply in_or_app. now left.
Qed.

Lemma keywords_of_tokens d w :
  In w (NLP.keywords_of d) ->
  exists tk, In tk (NLP.tokens d) /\ w = NLP.lower (NLP.tok_text tk)
             /\ NLP.is_stop tk = false /\ NLP.is_punct tk = false
             /\ NLP.is_alpha tk = true.
Proof.
  unfold NLP.keywords_of. intros H. apply in_map_iff in H.
  destruct H as (tk & <- & Htk). apply filter_In in Htk.
  destruct Htk as [Hin Hf]. exists tk.
  destruct (NLP.is_stop tk), (NLP.is_punct tk), (NLP.is_alpha tk);
    try discriminate; auto.
Qed.

(** X18. On a miss the list returned has at most [top_n] entries, every
    count is at least one, counts never increase along the list, and every
    term is one of the filtered, lower-cased tokens. *)
Lemma extract_keywords_on_miss st t top_n now d :
  t <> "" ->
  fst (TTLCache.get (NLP.keywords_key E t) now (NLP.cache st)) = None ->
  NLP.nlp E t = Some d ->
  (0 <= top_n)%Z ->
  exists kws,
    fst (NLP.extract_keywords E (Some t) top_n now st) = PList (map NLP.keyword_val kws)
    /\ (Z.of_nat (List.length kws) <= top_n)%Z
    /\ Forall (counted_in (NLP.keywords_of d)) kws
    /\ StronglySorted by_count_desc kws.
Proof.
  intros Ht Hmiss Hd Hn.
  exists (NLP.most_common top_n (NLP.Counter (NLP.keywords_of d))).
  split; [|split; [|split]].
  - destruct t as [|a t]; [congruence|].
    unfold NLP.extract_keywords. now rewrite looked_up_eq, Hmiss, Hd.
  - unfold NLP.most_common.
    pose proof (firstn_le_length (Z.to_nat top_n)
                  (NLP.sort_desc (NLP.Counter (NLP.keywords_of d)))). lia.
  - apply firstn_Forall, sort_desc_Forall, Counter_counted.
  - apply firstn_sorted, sort_desc_sorted.
Qed.

End KeywordFacts.

(** C2, at an input where the code departs from it.  [extract_keywords]
    is asked for the three most frequent terms of a text and, ten seconds
    later, for the single most frequent term of the same text: the second
    call returns three entries, because the cache key leaves [top_n] out.
    Asked with nothing cached, it returns the one entry. *)
Theorem extract_keywords_cached_for_other_top_n :
  let text := Some "apple banana apple cherry" in
  let st1 := snd (NLP.extract_keywords Sample.nlp_env text 3 0 NLP.init) in
  fst (NLP.extract_keywords Sample.nlp_env text 1 10 st1)
  = PList [PTuple [PStr "apple"; PInt 2];
           PTuple [PStr "banana"; PInt 1];
           PTuple [PStr "cherry"; PInt 1]]
  /\ fst (NLP.extract_keywords Sample.nlp_env text 1 10 NLP.init)
     = PList [PTuple [PStr "apple"; PInt 2]].
Proof. vm_compute. split; reflexivity. Qed.

(** ** The persistence store *)

Section DBFacts.
Implicit Types (st : DB.state) (q : DB.statement).

(** [execute_query] when the database is available for this call. *)
Lemma execute_query_available q fetch now st :
  hd false (DB.faults st) = false ->
  DB.execute_query q fetch now st
  = match DB.sqlite_exec q now (DB.next_call st) with
    | inl e => (Raise e, DB.next_call st)
    | inr (result, st') => (Ok (if fetch then Some result else None), st')
    end.
Proof.
  unfold DB.execute_query. destruct (DB.faults st) as [|[|] rest]; simpl;
    [reflexivity | discriminate | reflexivity].
Qed.


Lemma named_new_user name us pw now n :
  existsb (DB.named name) (us ++ [DB.User n name pw now]) = true.
Proof.
  rewrite existsb_app. simpl. unfold DB.named at 2. simpl.
  rewrite String.eqb_refl. now rewrite orb_true_r.
Qed.

(** C5, as the code has it.  For an article with no feedback row, and the
    database available, the aggregate query still yields one row, whose
    sums are NULL: [get_article_feedback] returns a total of 0 and an
    average of None, but None, not 0, for both [helpful_count] and
    [not_helpful_count]. *)
Theorem get_article_feedback_no_rows article_url now st :
  hd false (DB.faults st) = false ->
  filter (DB.about article_url) (DB.article_feedback st) = [] ->
  fst (DB.get_article_feedback article_url now st)
  = Ok (PDict [("total_feedback", PInt 0);
               ("average_rating", PNone);
               ("helpful_count", PNone);
               ("not_helpful_count", PNone)]).
Proof.
  intros Hav Hnone. unfold DB.get_article_feedback, bind.
  rewrite execute_query_available by exact Hav.
  simpl. rewrite Hnone. reflexivity.
Qed.

(** A user name that is taken: the insert is rejected and the handler
    returns None. *)
Lemma create_user_taken name pw now st :
  hd false (DB.faults st) = false ->
  existsb (DB.named name) (DB.users st) = true ->
  DB.create_user name pw now st = (Ok PNone, DB.next_call st).
Proof.
  intros Hav Hex. unfold DB.create_user, try_except, bind.
  rewrite execute_query_available by exact Hav.
  simpl. now rewrite Hex.
Qed.

(** A new user name: the row is added and its identifier read back. *)
Lemma create_user_new name pw now st :
  hd false (DB.faults st) = false ->
  hd false (tl (DB.faults st)) = false ->
  existsb (DB.named name) (DB.users st) = false ->
  DB.create_user name pw now st
  = (Ok (PInt (DB.next_id (DB.users st))),
     DB.State (DB.users st ++ [DB.User (DB.next_id (DB.users st)) name pw now])
              (DB.article_feedback st) (tl (tl (DB.faults st)))).
Proof.
  intros H1 H2 Hex. unfold DB.create_user, try_except, bind.
  rewrite execute_query_available by exact H1.
  simpl. rewrite Hex.
  rewrite execute_query_available by exact H2.
  simpl. rewrite filter_app. simpl. unfold DB.named at 2. simpl.
  rewrite String.eqb_refl.
  destruct (filter (DB.named name) (DB.users st)) as [|u0 us0] eqn:Hf;
    [reflexivity|].
  exfalso.
  assert (In u0 (filter (DB.named name) (DB.users st))) as Hin by (rewrite Hf; now left).
  apply filter_In in Hin. destruct Hin as [Hin Hn].
  assert (existsb (DB.named name) (DB.users st) = true) as Hc
      by (apply existsb_exists; eauto).
  congruence.
Qed.

(** C6. With the database available, a second [create_user] for a user
    name returns None without raising and leaves the tables as the first
    call left them; when the name was new, the first call returned the new
    identifier and its row, with the first password, is still there. *)
Theorem create_user_twice name pw pw2 now1 now2 st :
  forallb negb (firstn 3 (DB.faults st)) = true ->
  let st1 := snd (DB.create_user name pw now1 st) in
  let st2 := snd (DB.create_user name pw2 now2 st1) in
  fst (DB.create_user name pw2 now2 st1) = Ok PNone
  /\ DB.users st2 = DB.users st1
  /\ DB.article_feedback st2 = DB.article_feedback st1
  /\ (existsb (DB.named name) (DB.users st) = false ->
      fst (DB.create_user name pw now1 st) = Ok (PInt (DB.next_id (DB.users st)))
      /\ In (DB.User (DB.next_id (DB.users st)) name pw now1) (DB.users st2)).
Proof.
  intros Hav.
  assert (hd false (DB.faults st) = false /\ hd false (tl (DB.faults st)) = false
          /\ hd false (tl (tl (DB.faults st))) = false) as (H1 & H2 & H3).
  { destruct (DB.faults st) as [|[|] [|[|] [|[|] r]]]; simpl in *; auto; discriminate. }
  destruct (existsb (DB.named name) (DB.users st)) eqn:Hex.
  - rewrite (create_user_taken name pw now1 st H1 Hex). simpl.
    rewrite (create_user_taken name pw2 now2 (DB.next_call st) H2 Hex). simpl.
    repeat split; discriminate.
  - rewrite (create_user_new name pw now1 st H1 H2 Hex). simpl.
    rewrite create_user_taken; [|exact H3|apply named_new_user].
    simpl. repeat split. apply in_or_app. right. now left.
Qed.





(** The write helper converts every error into [False]. *)
Lemma add_article_feedback_never_raises uid article_url fb rating now st :
  exists b, fst (DB.add_article_feedback uid article_url fb rating now st) = Ok b.
Proof.
  unfold DB.add_article_feedback, try_except, bind.
  destruct (DB.execute_query _ false now st) as [[r|e] st']; simpl; eauto.
Qed.


End DBFacts.

(** ** The news source client *)

Section APIFacts.
Variable E : API.env.
Variable self : API.client.
Implicit Types (st : API.state) (d : dict).
Local Abbreviation sent_params := (sent_params self).
Local Abbreviation sent_key := (sent_key E self).
Local Abbreviation after_request := (after_request E self).

(** A live entry answers the request: nothing is sent. *)
Lemma make_request_hit endpoint params now st v :
  fst (TTLCache.get (sent_key endpoint params) now (API.news_cache st)) = Some v ->
  API._make_request E self endpoint params now st
  = (Ok v, API.State (snd (TTLCache.get (sent_key endpoint params) now (API.news_cache st)))
                     (API.network st) (API.requests st) (API.nlp st)).
Proof.
  intros Hhit. unfold API._make_request, bind, API.cache_lookup.
  fold (sent_params params). fold (sent_key endpoint params).
  destruct (TTLCache.get (sent_key endpoint params) now (API.news_cache st))
    as [hit c]. simpl in Hhit. now subst hit.
Qed.

Lemma make_request_miss endpoint params now st :
  fst (TTLCache.get (sent_key endpoint params) now (API.news_cache st)) = None ->
  API._make_request E self endpoint params now st = after_request endpoint params now st.
Proof.
  intros Hmiss. unfold API._make_request, bind, API.cache_lookup, after_request.
  fold (sent_params params). fold (sent_key endpoint params).
  destruct (TTLCache.get (sent_key endpoint params) now (API.news_cache st))
    as [hit c]. simpl in Hmiss. subst hit. simpl.
  unfold try_except, API.requests_get, bind.
  destruct (API.network st) as [|[|data] rest]; simpl; try reflexivity.
  destruct data; simpl; try reflexivity.
  destruct (API.is_str "ok" _); reflexivity.
Qed.

(** Enrichment touches the annotator only. *)
Lemma articles_or_empty_frame response now st :
  let st' := snd (API.articles_or_empty E response now st) in
  API.news_cache st' = API.news_cache st
  /\ API.network st' = API.network st
  /\ API.requests st' = API.requests st.
Proof.
  unfold API.articles_or_empty, bind.
  destruct (truthy response); [|simpl; auto].
  destruct response; simpl; auto;
    try (match goal with |- context [if ?b then _ else _] => destruct b end;
         simpl; auto).
  destruct (dict_get "articles" entries); simpl; auto.
  unfold API.with_nlp. destruct (API.enrich_articles E p now (API.nlp st)); simpl; auto.
Qed.

Lemma articles_or_empty_none now st :
  API.articles_or_empty E PNone now st = (Ok [], st).
Proof. reflexivity. Qed.

Lemma make_request_requests endpoint params now st :
  let st' := snd (API._make_request E self endpoint params now st) in
  API.requests st' = API.requests st
  \/ API.requests st'
     = (API.requests st ++
        [API.Request (API.base_url self ++ endpoint) (sent_params params)])%list.
Proof.
  destruct (fst (TTLCache.get (sent_key endpoint params) now (API.news_cache st)))
    as [v|] eqn:Hget.
  - rewrite (make_request_hit _ _ _ _ Hget). now left.
  - rewrite (make_request_miss _ _ _ _ Hget). right. unfold after_request.
    destruct (API.network st) as [|[|[]] rest]; try reflexivity.
    now destruct (API.is_str "ok" _).
Qed.

(** The annotator step after a request leaves the client's own state alone. *)
Lemma then_articles_frame (m : M API.state pyval) now st :
  let s' := snd (m st) in
  let st' := snd (bind m (fun response => API.articles_or_empty E response now) st) in
  API.news_cache st' = API.news_cache s'
  /\ API.network st' = API.network s'
  /\ API.requests st' = API.requests s'.
Proof.
  unfold bind. destruct (m st) as [[response|e] s']; simpl; auto.
  apply articles_or_empty_frame.
Qed.






(** C8, as the code has it.  When the first of two [get_top_headlines]
    calls with the same filters finds no live cache entry and the remote
    end answers it with a body whose status is ok, and the second call comes
    before the time-to-live of the cache has elapsed, the two calls send
    one request in all: the first call sends it, the second is answered
    from the cache and sends none. *)
Theorem top_headlines_second_call_cached
        country category q page_size page now1 now2 st d rest :
  let params := API.top_headlines_params country category q page_size page in
  fst (TTLCache.get (sent_key "" params) now1 (API.news_cache st)) = None ->
  API.network st = API.Json (PDict d) :: rest ->
  API.is_str "ok" (dict_get_default "status" PNone d) = true ->
  (now2 < now1 + TTLCache.ttl (API.news_cache st))%Z ->
  let st1 := snd (API.get_top_headlines E self country category q page_size page now1 st) in
  let st2 := snd (API.get_top_headlines E self country category q page_size page now2 st1) in
  API.requests st1
  = (API.requests st ++
     [API.Request (API.base_url self ++ "") (sent_params params)])%list
  /\ API.requests st2 = API.requests st1
  /\ API.network st2 = rest.
Proof.
  intros params Hmiss Hnet Hok Hlt st1 st2.
  assert (API.news_cache st1
          = API.news_cache (snd (API._make_request E self "" params now1 st))
          /\ API.network st1
             = API.network (snd (API._make_request E self "" params now1 st))
          /\ API.requests st1
             = API.requests (snd (API._make_request E self "" params now1 st)))
    as (Hc1 & Hn1 & Hr1)
    by exact (then_articles_frame (API._make_request E self "" params now1) now1 st).
  rewrite (make_request_miss _ _ _ _ Hmiss) in Hc1, Hn1, Hr1.
  unfold after_request in Hc1, Hn1, Hr1. rewrite Hnet, Hok in Hc1, Hn1, Hr1.
  simpl in Hc1, Hn1, Hr1.
  assert (fst (TTLCache.get (sent_key "" params) now2 (API.news_cache st1))
          = Some (PDict d)) as Hhit.
  { rewrite Hc1, get_after_put, ttl_get.
    destruct (Z.ltb_spec now2 (now1 + TTLCache.ttl (API.news_cache st)));
      [reflexivity | lia]. }
  assert (API.network st2
          = API.network (snd (API._make_request E self "" params now2 st1))
          /\ API.requests st2
             = API.requests (snd (API._make_request E self "" params now2 st1)))
    as (Hn2 & Hr2)
    by (destruct (then_articles_frame
                    (API._make_request E self "" params now2) now2 st1)
          as (_ & Hn & Hr); split; assumption).
  rewrite (make_request_hit _ _ _ _ Hhit) in Hn2, Hr2. simpl in Hn2, Hr2.
  repeat split; congruence.
Qed.



End APIFacts.

(** ** What happens to external failures *)

Section FailurePolicy.
Variable E : API.env.
Variable self : API.client.
Local Abbreviation N := (API.nlp_env E).

Lemma analyze_sentiment_failed t now st :
  t <> "" -> cache_miss (NLP.sentiment_key N t) now (NLP.cache st) ->
  NLP.polarity N t = None ->
  fst (NLP.analyze_sentiment N (Some t) now st) = PStr "neutral".
Proof.
  intros Ht Hmiss Hf. destruct t as [|a t]; [congruence|].
  unfold NLP.analyze_sentiment. now rewrite looked_up_eq, Hmiss, Hf.
Qed.

Lemma extract_keywords_failed t top_n now st :
  t <> "" -> cache_miss (NLP.keywords_key N t) now (NLP.cache st) ->
  NLP.nlp N t = None ->
  fst (NLP.extract_keywords N (Some t) top_n now st) = PList [].
Proof.
  intros Ht Hmiss Hf. destruct t as [|a t]; [congruence|].
  unfold NLP.extract_keywords. now rewrite looked_up_eq, Hmiss, Hf.
Qed.

Lemma get_named_entities_failed t now st :
  t <> "" -> cache_miss (NLP.ner_key N t) now (NLP.cache st) ->
  NLP.nlp N t = None ->
  fst (NLP.get_named_entities N (Some t) now st) = PList [].
Proof.
  intros Ht Hmiss Hf. destruct t as [|a t]; [congruence|].
  unfold NLP.get_named_entities. now rewrite looked_up_eq, Hmiss, Hf.
Qed.

Lemma summarize_article_failed url now st :
  cache_miss (NLP.summary_key N url) now (NLP.cache st) ->
  NLP.summary N url = None ->
  fst (NLP.summarize_article N url now st) = PNone.
Proof.
  intros Hmiss Hf. unfold NLP.summarize_article.
  now rewrite looked_up_eq, Hmiss, Hf.
Qed.

Lemma translate_text_failed t target_lang now st :
  t <> "" -> target_lang <> "en" ->
  cache_miss (NLP.trans_key N t target_lang) now (NLP.cache st) ->
  NLP.translate N t target_lang = None ->
  fst (NLP.translate_text N (Some t) target_lang now st) = PStr t.
Proof.
  intros Ht Hl Hmiss Hf. destruct t as [|a t]; [congruence|].
  unfold NLP.translate_text.
  destruct (String.eqb_spec target_lang "en"); [congruence|].
  now rewrite looked_up_eq, Hmiss, Hf.
Qed.



End FailurePolicy.

(** ** The properties on the concrete environment *)

Section SampleFacts.

Lemma sample_hash_64bit : hash_64bit Sample.nlp_env.
Proof.
  intros t. cbn [NLP.hash Sample.nlp_env]. unfold Sample.hash.
  match goal with
  | |- context [(?x mod 2 ^ 64)%Z] =>
      pose proof (Z.mod_pos_bound x (2 ^ 64) ltac:(lia))
  end.
  lia.
Qed.

End SampleFacts.

(** ** Instances *)

(** The cache: an entry stored at time 5 in the annotator's cache. *)
Lemma cache_round_trip_witness :
  (0 < TTLCache.ttl (NLP.cache NLP.init))%Z
  /\ fst (TTLCache.get "k" 5 (TTLCache.put "k" (PStr "v") 5 (NLP.cache NLP.init)))
     = Some (PStr "v")
  /\ fst (TTLCache.get "k" 305
            (TTLCache.run [TTLCache.Get "k" 100; TTLCache.Put "j" PNone 200]
                          (TTLCache.put "k" (PStr "v") 5 (NLP.cache NLP.init))))
     = None.
Proof.
  pose proof (@cache_round_trip pyval (NLP.cache NLP.init) "k" (PStr "v") 5 eq_refl)
    as (H1 & _ & H3).
  split; [reflexivity|]. split; [exact H1|].
  apply H3; [reflexivity | discriminate].
Defined.

(** An empty feedback table. *)
Lemma get_article_feedback_no_rows_witness :
  fst (DB.get_article_feedback "https://news.example/a" 0 (DB.State [] [] []))
  = Ok (PDict [("total_feedback", PInt 0);
               ("average_rating", PNone);
               ("helpful_count", PNone);
               ("not_helpful_count", PNone)]).
Proof.
  exact (@get_article_feedback_no_rows "https://news.example/a" 0
           (DB.State [] [] []) eq_refl eq_refl).
Defined.

(** Two registrations of alice in an empty database. *)
Lemma create_user_twice_witness :
  let st1 := snd (DB.create_user "alice" "pw" 0 (DB.State [] [] [])) in
  let st2 := snd (DB.create_user "alice" "pw2" 1 st1) in
  fst (DB.create_user "alice" "pw2" 1 st1) = Ok PNone
  /\ DB.users st2 = DB.users st1
  /\ In (DB.User 1 "alice" "pw" 0) (DB.users st2).
Proof.
  pose proof (@create_user_twice "alice" "pw" "pw2" 0 1 (DB.State [] [] []) eq_refl)
    as (H1 & H2 & _ & H4).
  split; [exact H1|]. split; [exact H2|].
  exact (proj2 (H4 eq_refl)).
Defined.

(** Two calls, one minute apart, answered by one successful reply. *)
Lemma top_headlines_second_call_cached_witness :
  let body := [("status", PStr "ok");
               ("articles", PList [PDict [("title", PStr "a great day")]])] in
  let st := API.init [API.Json (PDict body)] in
  let st1 := snd (API.get_top_headlines Sample.env Sample.client
                    (Some "us") None None 20 1 0 st) in
  let st2 := snd (API.get_top_headlines Sample.env Sample.client
                    (Some "us") None None 20 1 60 st1) in
  List.length (API.requests st1) = 1%nat
  /\ API.requests st2 = API.requests st1
  /\ API.network st2 = [].
Proof.
  intros body st st1 st2.
  pose proof (@top_headlines_second_call_cached Sample.env Sample.client
                (Some "us") None None 20 1 0 60 st body []
                eq_refl eq_refl eq_refl eq_refl) as (H1 & H2 & H3).
  split; [|split; [exact H2 | exact H3]].
  fold st1 in H1. rewrite H1. reflexivity.
Defined.



(** C8 fails as stated: when the remote end fails both times, two calls
    with the same filters, one minute apart, send two requests; and two
    calls that both find a live entry send none. *)
Lemma top_headlines_failed_twice_two_requests :
  (let st := API.init [API.Failed; API.Failed] in
   let st1 := snd (API.get_top_headlines Sample.env Sample.client
                     (Some "us") None None 20 1 0 st) in
   let st2 := snd (API.get_top_headlines Sample.env Sample.client
                     (Some "us") None None 20 1 60 st1) in
   List.length (API.requests st2) = 2%nat)
  /\ (let st := API.init [API.Json (PDict [("status", PStr "ok")])] in
      let st1 := snd (API.get_top_headlines Sample.env Sample.client
                        (Some "us") None None 20 1 0 st) in
      let st2 := snd (API.get_top_headlines Sample.env Sample.client
                        (Some "us") None None 20 1 60 st1) in
      let st3 := snd (API.get_top_headlines Sample.env Sample.client
                        (Some "us") None None 20 1 120 st2) in
      List.length (API.requests st3) = List.length (API.requests st1)).
Proof. vm_compute. split; reflexivity. Qed.


(** * Further properties of the code *)

(** ** The persistence store: users *)

Section UserFacts.
Implicit Types (st : DB.state) (us : list DB.user).

Lemma filter_none (A : Type) (f : A -> bool) (l : list A) :
  existsb f l = false -> filter f l = [].
Proof.
  induction l as [|x l IH]; simpl; [reflexivity|].
  destruct (f x); simpl; [discriminate | exact IH].
Qed.

Lemma available_three st :
  forallb negb (firstn 3 (DB.faults st)) = true ->
  hd false (DB.faults st) = false /\ hd false (tl (DB.faults st)) = false
  /\ hd false (tl (tl (DB.faults st))) = false.
Proof.
  destruct (DB.faults st) as [|[|] [|[|] [|[|] r]]]; simpl; auto; discriminate.
Qed.

(** X1. After [create_user] has registered a new name, [get_user] returns
    the record with the identifier [create_user] returned, that name and
    the creation time; [verify_user] accepts the password given at
    creation and rejects every other one. *)
Theorem create_user_then_lookup name pw now now' st :
  forallb negb (firstn 3 (DB.faults st)) = true ->
  existsb (DB.named name) (DB.users st) = false ->
  let uid := DB.next_id (DB.users st) in
  let st1 := snd (DB.create_user name pw now st) in
  fst (DB.create_user name pw now st) = Ok (PInt uid)
  /\ fst (DB.get_user name now' st1)
     = Ok (PDict [("id", PInt uid); ("username", PStr name); ("created_at", PInt now)])
  /\ fst (DB.verify_user name pw now' st1) = Ok true
  /\ (forall pw', pw' <> pw -> fst (DB.verify_user name pw' now' st1) = Ok false).
Proof.
  intros Hav Hnew uid st1.
  destruct (available_three st Hav) as (H1 & H2 & H3).
  subst st1. rewrite (create_user_new name pw now st H1 H2 Hnew). simpl.
  split; [reflexivity|].
  assert (forall g, filter (fun u => DB.named name u && g u)%bool (DB.users st) = [])
    as Hnone.
  { intros g. apply filter_none.
    apply Bool.not_true_is_false. intros Hex. apply existsb_exists in Hex.
    destruct Hex as (u & Hin & Hu). apply andb_true_iff in Hu.
    assert (existsb (DB.named name) (DB.users st) = true)
      by (apply existsb_exists; exists u; tauto).
    congruence. }
  split; [|split].
  - unfold DB.get_user, bind. rewrite execute_query_available by exact H3.
    simpl. rewrite filter_app, (filter_none _ _ Hnew). simpl.
    unfold DB.named. simpl. now rewrite String.eqb_refl.
  - unfold DB.verify_user, bind. rewrite execute_query_available by exact H3.
    simpl. rewrite filter_app, Hnone. simpl.
    unfold DB.named. simpl. now rewrite !String.eqb_refl.
  - intros pw' Hpw. unfold DB.verify_user, bind.
    rewrite execute_query_available by exact H3.
    simpl. rewrite filter_app, Hnone. simpl.
    unfold DB.named. simpl. rewrite String.eqb_refl.
    destruct (String.eqb_spec pw pw'); [congruence | reflexivity].
Qed.

Lemma id_below_next us u : In u us -> (DB.id u < DB.next_id us)%Z.
Proof.
  unfold DB.next_id. induction us as [|v us IH]; simpl; [tauto|].
  intros [->|Hin]; [lia|]. specialize (IH Hin). lia.
Qed.

Lemma NoDup_snoc (A : Type) (l : list A) (x : A) :
  NoDup l -> ~ In x l -> NoDup (l ++ [x]).
Proof.
  intros Hl Hx. induction Hl as [|y l Hy Hl IH]; simpl.
  - constructor; [tauto | constructor].
  - constructor.
    + intros Hin. apply in_app_or in Hin. destruct Hin as [Hin|[->|[]]].
      * contradiction.
      * apply Hx. now left.
    + apply IH. intros Hin. apply Hx. now right.
Qed.

Lemma sqlite_exec_users_distinct q now st rows st' :
  users_distinct (DB.users st) ->
  DB.sqlite_exec q now st = inr (rows, st') ->
  users_distinct (DB.users st').
Proof.
  intros [Hn Hi] Hq. destruct q; simpl in Hq; try (injection Hq as _ <-; now split).
  - destruct (existsb (DB.named name) (DB.users st)) eqn:Hex; [discriminate|].
    injection Hq as _ <-. unfold users_distinct. simpl. rewrite !map_app. simpl. split.
    + apply NoDup_snoc; [exact Hn|].
      intros Hin. apply in_map_iff in Hin. destruct Hin as (u & Hu & Hin).
      assert (existsb (DB.named name) (DB.users st) = true) as Hc.
      { apply existsb_exists. exists u. split; [exact Hin|].
        unfold DB.named. rewrite Hu. apply String.eqb_refl. }
      congruence.
    + apply NoDup_snoc; [exact Hi|].
      intros Hin. apply in_map_iff in Hin. destruct Hin as (u & Hu & Hin).
      apply id_below_next in Hin. lia.
  - destruct (DB.bind_int uid), (DB.bind_optional_int rating); try discriminate.
    injection Hq as _ <-. now split.
Qed.

Lemma execute_query_users_distinct q fetch now st :
  users_distinct (DB.users st) ->
  users_distinct (DB.users (snd (DB.execute_query q fetch now st))).
Proof.
  intros Hd. unfold DB.execute_query.
  destruct (DB.faults st) as [|[|] rest]; simpl; try exact Hd.
  - destruct (DB.sqlite_exec q now (DB.next_call st)) as [e|[rows st']] eqn:Hq;
      simpl; [exact Hd|].
    eapply sqlite_exec_users_distinct; [|exact Hq]. exact Hd.
  - destruct (DB.sqlite_exec q now (DB.next_call st)) as [e|[rows st']] eqn:Hq;
      simpl; [exact Hd|].
    eapply sqlite_exec_users_distinct; [|exact Hq]. exact Hd.
Qed.

(** X2. User names and identifiers stay distinct: whatever statement
    [execute_query] runs, and whatever [create_user] does, on a table in
    which no two users share a name or an identifier, the table it leaves
    has the same property, also when the call ends in an error. *)
Theorem users_stay_distinct st :
  users_distinct (DB.users st) ->
  (forall q fetch now,
      users_distinct (DB.users (snd (DB.execute_query q fetch now st))))
  /\ (forall name pw now,
        users_distinct (DB.users (snd (DB.create_user name pw now st)))).
Proof.
  intros Hd. split.
  - intros q fetch now. now apply execute_query_users_distinct.
  - intros name pw now. unfold DB.create_user, try_except, bind.
    pose proof (execute_query_users_distinct (DB.InsertUser name pw) false now st Hd)
      as H1.
    destruct (DB.execute_query (DB.InsertUser name pw) false now st)
      as [[r|e] st1]; simpl in H1 |- *.
    + pose proof (execute_query_users_distinct (DB.SelectUserId name) true now st1 H1)
        as H2.
      destruct (DB.execute_query (DB.SelectUserId name) true now st1)
        as [[[[|row rows]|]|e] st2]; simpl in H2 |- *; try exact H2.
      * unfold DB.item. destruct (nth_error row 0); simpl; exact H2.
      * destruct (is_integrity_error e); exact H2.
    + destruct (is_integrity_error e); exact H1.
Qed.

End UserFacts.

(** ** The persistence store: statements and feedback *)

Section FeedbackFacts.
Implicit Types (st : DB.state) (fs : list DB.feedback_row).

Lemma sqlite_exec_read q now st rows st' :
  is_read q = true -> DB.sqlite_exec q now st = inr (rows, st') -> st' = st.
Proof. destruct q; simpl; intros Hr Hq; try discriminate; congruence. Qed.

Lemma execute_query_tables q fetch now st :
  let st' := snd (DB.execute_query q fetch now st) in
  ((exists e, fst (DB.execute_query q fetch now st) = Raise e) \/ is_read q = true) ->
  DB.users st' = DB.users st /\ DB.article_feedback st' = DB.article_feedback st.
Proof.
  unfold DB.execute_query.
  assert (forall s,
            DB.users s = DB.users st -> DB.article_feedback s = DB.article_feedback st ->
            let r := match DB.sqlite_exec q now s with
                     | inl e => (Raise e, s)
                     | inr (result, st') =>
                         (Ok (if fetch then Some result else None), st')
                     end in
            ((exists e, fst r = Raise e) \/ is_read q = true) ->
            DB.users (snd r) = DB.users st
            /\ DB.article_feedback (snd r) = DB.article_feedback st) as Hrun.
  { intros s Hu Hf. simpl.
    destruct (DB.sqlite_exec q now s) as [e|[rows s']] eqn:Hq; simpl; [tauto|].
    intros [[e He]|Hr]; [discriminate|].
    apply (sqlite_exec_read _ _ _ Hr) in Hq. subst s'. tauto. }
  destruct (DB.faults st) as [|[|] rest]; simpl.
  - apply (Hrun (DB.next_call st)); reflexivity.
  - tauto.
  - apply (Hrun (DB.next_call st)); reflexivity.
Qed.

Lemma stateless_ret (S A : Type) (a : A) : stateless (S := S) (ret a).
Proof. intros s. reflexivity. Qed.

Lemma stateless_raise (S A : Type) (e : exn) : stateless (S := S) (A := A) (raise e).
Proof. intros s. reflexivity. Qed.

Lemma stateless_bind (S A B : Type) (m : M S A) (f : A -> M S B) :
  stateless m -> (forall a, stateless (f a)) -> stateless (bind m f).
Proof.
  intros Hm Hf s. unfold bind. specialize (Hm s).
  destruct (m s) as [[a|e] s']; simpl in *; subst s'; [apply Hf | reflexivity].
Qed.

Lemma stateless_item (S : Type) i row : stateless (S := S) (DB.item i row).
Proof.
  unfold DB.item. destruct (nth_error row i);
    [apply stateless_ret | apply stateless_raise].
Qed.

Lemma stateless_py_float (S : Type) v : stateless (S := S) (DB.py_float v).
Proof.
  destruct v; simpl; try apply stateless_raise; apply stateless_ret.
Qed.

(** After a first step, stateless steps leave the state the first step left. *)
Lemma snd_bind_stateless (S A B : Type) (m : M S A) (f : A -> M S B) s :
  (forall a, stateless (f a)) -> snd (bind m f s) = snd (m s).
Proof.
  intros Hf. unfold bind. destruct (m s) as [[a|e] s']; simpl; [apply Hf | reflexivity].
Qed.

Create HintDb stateless.

#[local] Hint Resolve stateless_ret stateless_raise stateless_item stateless_py_float
  : stateless.

Ltac stateless_steps :=
  repeat first
    [ apply stateless_bind; [|intros ?]
    | match goal with |- stateless (if ?b then _ else _) => destruct b end
    | solve [auto with stateless] ].

(** X3. A statement that ends in an error leaves the tables as they were,
    and so does every statement that only reads; [get_user],
    [verify_user] and [get_article_feedback] never change a table. *)
Theorem failed_or_reading_statement_changes_nothing q fetch now st :
  let st' := snd (DB.execute_query q fetch now st) in
  ((exists e, fst (DB.execute_query q fetch now st) = Raise e) ->
   DB.users st' = DB.users st /\ DB.article_feedback st' = DB.article_feedback st)
  /\ (is_read q = true ->
      DB.users st' = DB.users st /\ DB.article_feedback st' = DB.article_feedback st)
  /\ (forall name,
        DB.users (snd (DB.get_user name now st)) = DB.users st
        /\ DB.article_feedback (snd (DB.get_user name now st)) = DB.article_feedback st)
  /\ (forall name pw,
        DB.users (snd (DB.verify_user name pw now st)) = DB.users st
        /\ DB.article_feedback (snd (DB.verify_user name pw now st))
           = DB.article_feedback st)
  /\ (forall article_url,
        DB.users (snd (DB.get_article_feedback article_url now st)) = DB.users st
        /\ DB.article_feedback (snd (DB.get_article_feedback article_url now st))
           = DB.article_feedback st).
Proof.
  split; [intros H; apply execute_query_tables; now left|].
  split; [intros H; apply execute_query_tables; now right|].
  split; [|split].
  - intros name. unfold DB.get_user. rewrite snd_bind_stateless.
    + apply execute_query_tables. now right.
    + intros [[|row rows]|]; stateless_steps.
  - intros name pw. unfold DB.verify_user. rewrite snd_bind_stateless.
    + apply execute_query_tables. now right.
    + intros [[|row rows]|]; stateless_steps.
  - intros article_url. unfold DB.get_article_feedback. rewrite snd_bind_stateless.
    + apply execute_query_tables. now right.
    + intros [[|row rows]|]; stateless_steps.
Qed.

Lemma sum_case_feedback label fs :
  fold_right Z.add 0%Z (map (DB.case_feedback label) fs)
  = Z.of_nat (count_feedback label fs).
Proof.
  unfold count_feedback. induction fs as [|f fs IH]; [reflexivity|].
  simpl map. simpl fold_right. rewrite IH. unfold DB.case_feedback. simpl filter.
  destruct (DB.fb_feedback f) as [s|]; [|lia].
  destruct (s =? label); simpl List.length; lia.
Qed.

Lemma sql_sum_counts label fs :
  fs <> [] ->
  DB.sql_sum (map (DB.case_feedback label) fs) = PInt (Z.of_nat (count_feedback label fs)).
Proof.
  intros Hne. rewrite <- sum_case_feedback.
  destruct fs as [|f fs]; [congruence | reflexivity].
Qed.

Lemma counts_disjoint fs :
  (count_feedback "Helpful" fs + count_feedback "Not Helpful" fs <= List.length fs)%nat.
Proof.
  unfold count_feedback. induction fs as [|f fs IH]; simpl; [lia|].
  destruct (DB.fb_feedback f) as [s|]; [|lia].
  destruct (String.eqb_spec s "Helpful") as [->|_]; simpl; lia ||
    (destruct (s =? "Not Helpful"); simpl; lia).
Qed.

(** The average as the code reports it. *)
Lemma reported_average fs :
  (if truthy (DB.sql_avg (DB.ratings fs))
   then DB.py_float (S := DB.state) (DB.sql_avg (DB.ratings fs))
   else ret PNone)
  = ret (if (sum_ratings fs =? 0)%Z then PNone else DB.sql_avg (DB.ratings fs)).
Proof.
  unfold sum_ratings, DB.sql_avg.
  destruct (DB.ratings fs) as [|r rs] eqn:Hr; [reflexivity|].
  set (total := fold_right Z.add 0%Z (r :: rs)).
  set (n := Z.of_nat (List.length (r :: rs))).
  assert (truthy (PFloat (Binary64.div (Binary64.of_int total) (Binary64.of_int n)))
          = negb (total =? 0)%Z) as ->.
  { cbn [truthy]. rewrite div_zero, of_int_zero; [reflexivity|].
    rewrite of_int_zero. unfold n. simpl List.length.
    apply Z.eqb_neq. lia. }
  now destruct (total =? 0)%Z.
Qed.

Lemma get_article_feedback_value article_url now st :
  hd false (DB.faults st) = false ->
  let matching := filter (DB.about article_url) (DB.article_feedback st) in
  fst (DB.get_article_feedback article_url now st)
  = Ok (PDict
          [("total_feedback", PInt (Z.of_nat (List.length matching)));
           ("average_rating",
             if (sum_ratings matching =? 0)%Z then PNone
             else DB.sql_avg (DB.ratings matching));
           ("helpful_count", DB.sql_sum (map (DB.case_feedback "Helpful") matching));
           ("not_helpful_count",
             DB.sql_sum (map (DB.case_feedback "Not Helpful") matching))]).
Proof.
  intros Hav matching. unfold DB.get_article_feedback.
  unfold bind at 1. rewrite execute_query_available by exact Hav.
  cbn [DB.sqlite_exec DB.article_feedback DB.next_call].
  fold matching. cbn iota beta.
  unfold bind at 1. cbn [DB.item nth_error ret].
  unfold bind at 1. cbn [DB.item nth_error ret].
  unfold bind at 1. rewrite reported_average. cbn [ret].
  reflexivity.
Qed.

(** X4. For an article that has feedback rows, and the database
    available, [get_article_feedback] reports the number of its rows as
    the total, the number of rows whose feedback is 'Helpful' and the
    number whose feedback is 'Not Helpful'; the two counts together never
    exceed the total. *)
Theorem feedback_counts article_url now st :
  hd false (DB.faults st) = false ->
  let matching := filter (DB.about article_url) (DB.article_feedback st) in
  matching <> [] ->
  exists d,
    fst (DB.get_article_feedback article_url now st) = Ok (PDict d)
    /\ dict_get "total_feedback" d = Some (PInt (Z.of_nat (List.length matching)))
    /\ dict_get "helpful_count" d
       = Some (PInt (Z.of_nat (count_feedback "Helpful" matching)))
    /\ dict_get "not_helpful_count" d
       = Some (PInt (Z.of_nat (count_feedback "Not Helpful" matching)))
    /\ (count_feedback "Helpful" matching + count_feedback "Not Helpful" matching
        <= List.length matching)%nat.
Proof.
  intros Hav matching Hne.
  rewrite (get_article_feedback_value article_url now st Hav). fold matching.
  eexists. split; [reflexivity|].
  rewrite !sql_sum_counts by exact Hne.
  repeat split. apply counts_disjoint.
Qed.

(** X5. The average rating [get_article_feedback] reports, for ratings
    that are not negative and whose sum stays below 2^53, is the double
    SQLite computes, the sum of the ratings that are not NULL divided by
    their number and rounded, a positive number; except that an average
    of zero is reported as None, like the absence of any rating. *)
Theorem average_rating_reported article_url now st :
  hd false (DB.faults st) = false ->
  let matching := filter (DB.about article_url) (DB.article_feedback st) in
  (forall r, In r (DB.ratings matching) -> (0 <= r)%Z) ->
  (sum_ratings matching < 2 ^ 53)%Z ->
  exists d,
    fst (DB.get_article_feedback article_url now st) = Ok (PDict d)
    /\ dict_get "average_rating" d
       = Some (if (sum_ratings matching =? 0)%Z then PNone
               else PFloat (Binary64.div
                              (Binary64.of_int (sum_ratings matching))
                              (Binary64.of_int
                                 (Z.of_nat (List.length (DB.ratings matching))))))
    /\ (forall x, dict_get "average_rating" d = Some (PFloat x) -> (0 < x)%Q)
    /\ ((forall f, In f matching -> DB.fb_rating f = Some 0%Z \/ DB.fb_rating f = None) ->
        dict_get "average_rating" d = Some PNone).
Proof.
  intros Hav matching Hpos Hsum.
  rewrite (get_article_feedback_value article_url now st Hav). fold matching.
  eexists. split; [reflexivity|].
  assert (0 <= sum_ratings matching)%Z as Hs0.
  { unfold sum_ratings. clear Hsum. induction (DB.ratings matching) as [|r rs IH];
      simpl; [lia|].
    pose proof (Hpos r (or_introl eq_refl)).
    assert (0 <= fold_right Z.add 0%Z rs)%Z by (apply IH; intros; apply Hpos; now right).
    lia. }
  split; [|split].
  - cbn [dict_get String.eqb Ascii.eqb Bool.eqb].
    unfold DB.sql_avg, sum_ratings.
    destruct (DB.ratings matching) as [|r rs]; reflexivity.
  - cbn [dict_get String.eqb Ascii.eqb Bool.eqb].
    destruct (sum_ratings matching =? 0)%Z eqn:Hz; [discriminate|].
    unfold DB.sql_avg. destruct (DB.ratings matching) as [|r rs] eqn:Hr; [discriminate|].
    intros x Hx. injection Hx as <-.
    apply Z.eqb_neq in Hz.
    assert (0 <= Binary64.div (Binary64.of_int (fold_right Z.add 0%Z (r :: rs)))
                              (Binary64.of_int (Z.of_nat (List.length (r :: rs)))))%Q
      as Hge.
    { apply round_nonneg. apply Qle_shift_div_l.
      - apply Qle_lt_trans with 0%Q; [apply Qle_refl|].
        destruct (Qlt_le_dec 0 (Binary64.of_int (Z.of_nat (List.length (r :: rs)))))
          as [Hlt|Hle]; [exact Hlt|exfalso].
        assert (Qeq_bool (Binary64.of_int (Z.of_nat (List.length (r :: rs)))) 0 = true)
          as Hc.
        { apply Qeq_bool_iff. apply Qle_antisym; [exact Hle|].
          apply round_nonneg. rewrite <- (Zle_Qle 0). lia. }
        rewrite of_int_zero in Hc. simpl List.length in Hc.
        apply Z.eqb_eq in Hc. lia.
      - rewrite Qmult_0_l. apply round_nonneg. rewrite <- (Zle_Qle 0).
        unfold sum_ratings in Hs0. rewrite Hr in Hs0. exact Hs0. }
    apply Qle_lteq in Hge. destruct Hge as [Hlt|Heq]; [exact Hlt|exfalso].
    assert (Qeq_bool (Binary64.div (Binary64.of_int (fold_right Z.add 0%Z (r :: rs)))
                                   (Binary64.of_int (Z.of_nat (List.length (r :: rs)))))
                     0 = true) as Hc by (apply Qeq_bool_iff; now symmetry).
    rewrite div_zero, of_int_zero in Hc.
    + apply Z.eqb_eq in Hc. unfold sum_ratings in Hz. rewrite Hr in Hz. contradiction.
    + rewrite of_int_zero. simpl List.length. apply Z.eqb_neq. lia.
  - intros Hzero. simpl.
    assert (sum_ratings matching = 0%Z) as ->; [|reflexivity].
    unfold sum_ratings. clear Hpos Hsum Hs0. clearbody matching.
    induction matching as [|f fs IH]; [reflexivity|].
    unfold DB.ratings. simpl.
    destruct (Hzero f (or_introl eq_refl)) as [-> | ->]; simpl;
      apply IH; intros g Hg; apply Hzero; now right.
Qed.

(** X6. A feedback whose user identifier and rating fit 64 bits is
    recorded by [add_article_feedback] and shows in the aggregate: the
    total of its article grows by one, and so does the count of its
    feedback text when that is 'Helpful'; the table of users is not
    touched.  With an identifier or a rating outside 64 bits the
    OverflowError of sqlite3 is absorbed: the function returns False and
    no table changes. *)
Theorem feedback_recorded uid article_url fb rating now now' st :
  hd false (DB.faults st) = false ->
  hd false (tl (DB.faults st)) = false ->
  let before := filter (DB.about article_url) (DB.article_feedback st) in
  let st1 := snd (DB.add_article_feedback uid article_url fb rating now st) in
  (bindable_feedback uid rating = true ->
   fst (DB.add_article_feedback uid article_url fb rating now st) = Ok true
   /\ DB.users st1 = DB.users st
   /\ exists d,
        fst (DB.get_article_feedback article_url now' st1) = Ok (PDict d)
        /\ dict_get "total_feedback" d
           = Some (PInt (Z.of_nat (List.length before) + 1))
        /\ (fb = Some "Helpful" ->
            dict_get "helpful_count" d
            = Some (PInt (Z.of_nat (count_feedback "Helpful" before) + 1))))
  /\ (bindable_feedback uid rating = false ->
      fst (DB.add_article_feedback uid article_url fb rating now st) = Ok false
      /\ DB.users st1 = DB.users st
      /\ DB.article_feedback st1 = DB.article_feedback st).
Proof.
  intros H1 H2 before st1. split; intros Hb.
  - assert (DB.add_article_feedback uid article_url fb rating now st
            = (Ok true,
               DB.State (DB.users st)
                        (DB.article_feedback st
                         ++ [DB.Feedback uid article_url fb rating now])
                        (tl (DB.faults st)))) as Hadd.
    { unfold DB.add_article_feedback, try_except, bind.
      rewrite execute_query_available by exact H1.
      unfold bindable_feedback in Hb. apply andb_true_iff in Hb. destruct Hb as [Hu Hr].
      cbn [DB.sqlite_exec]. unfold DB.bind_int, DB.bind_optional_int. rewrite Hu.
      destruct rating as [r|]; [rewrite Hr|]; reflexivity. }
    subst st1. rewrite Hadd. simpl fst. simpl snd.
    split; [reflexivity|]. split; [reflexivity|].
    assert (filter (DB.about article_url)
                   (DB.article_feedback st ++ [DB.Feedback uid article_url fb rating now])
            = before ++ [DB.Feedback uid article_url fb rating now])%list as Hf.
    { rewrite filter_app. simpl. unfold DB.about at 2. simpl.
      now rewrite String.eqb_refl. }
    rewrite get_article_feedback_value by exact H2.
    cbn [DB.article_feedback]. rewrite Hf.
    eexists. split; [reflexivity|]. split.
    + simpl. rewrite length_app. simpl. do 2 f_equal. lia.
    + intros ->. simpl dict_get.
      rewrite sql_sum_counts
        by (intros Hnil; apply app_eq_nil in Hnil; destruct Hnil; discriminate).
      unfold count_feedback. rewrite filter_app, length_app. simpl.
      do 2 f_equal. lia.
  - assert (DB.add_article_feedback uid article_url fb rating now st
            = (Ok false, DB.next_call st)) as Hadd.
    { unfold DB.add_article_feedback, try_except, bind.
      rewrite execute_query_available by exact H1.
      unfold bindable_feedback in Hb.
      cbn [DB.sqlite_exec]. unfold DB.bind_int, DB.bind_optional_int.
      destruct (int64 uid); simpl in Hb.
      - destruct rating as [r|]; [rewrite Hb|discriminate]; reflexivity.
      - destruct rating as [r|]; [destruct (int64 r)|]; reflexivity. }
    subst st1. rewrite Hadd. repeat split.
Qed.

End FeedbackFacts.

(** ** The news source client: requests and replies *)

Section ClientFacts.
Variable E : API.env.
Variable self : API.client.
Implicit Types (st : API.state) (d : dict).
Local Abbreviation sent_params := (sent_params self).
Local Abbreviation sent_key := (sent_key E self).
Local Abbreviation after_request := (after_request E self).

Lemma get_miss_same (V : Type) k now (c : TTLCache.t V) :
  fst (TTLCache.get k now c) = None -> snd (TTLCache.get k now c) = c.
Proof.
  unfold TTLCache.get. destruct (find _ _) as [l|]; [|reflexivity].
  now destruct (TTLCache.fresh now l).
Qed.

Lemma stateless_py_get (S : Type) k default v : stateless (S := S) (API.py_get k default v).
Proof. destruct v; simpl; try apply stateless_raise; apply stateless_ret. Qed.


(** [get_sources] as a request followed by a step that keeps the state. *)
Lemma get_sources_state category language country now st :
  snd (API.get_sources E self category language country now st)
  = snd (API._make_request E self "/sources"
           (sources_params category language country) now st).
Proof.
  unfold API.get_sources. apply snd_bind_stateless.
  intros response. destruct (truthy response);
    [apply stateless_py_get | apply stateless_ret].
Qed.

Lemma sent_request_shape endpoint params :
  let r := API.Request (API.base_url self ++ endpoint) (sent_params params) in
  API.url r = API.base_url self ++ endpoint
  /\ dict_get "apiKey" (API.params r) = Some (PStr (API.api_key self)).
Proof. simpl. split; [reflexivity|]. unfold sent_params. now rewrite dict_get_set. Qed.

Lemma make_request_sends endpoint params now st r :
  In r (API.requests (snd (API._make_request E self endpoint params now st))) ->
  In r (API.requests st)
  \/ (API.url r = API.base_url self ++ endpoint
      /\ dict_get "apiKey" (API.params r) = Some (PStr (API.api_key self))).
Proof.
  destruct (make_request_requests E self endpoint params now st) as [-> | ->];
    [now left|].
  intros Hin. apply in_app_or in Hin. destruct Hin as [Hin|[<-|[]]]; [now left|].
  right. apply sent_request_shape.
Qed.

Lemma make_request_at_most_one endpoint params now st :
  (List.length (API.requests (snd (API._make_request E self endpoint params now st)))
   <= S (List.length (API.requests st)))%nat.
Proof.
  destruct (make_request_requests E self endpoint params now st) as [-> | ->];
    [lia|]. rewrite length_app. simpl. lia.
Qed.

(** X7. Each call of [get_top_headlines], [search_everything] or
    [get_sources] sends at most one request, and a request it sends goes
    to the base URL followed by the endpoint of the function and carries
    the client's API key as [apiKey]. *)
Theorem requests_carry_the_key now st :
  (forall country category q page_size page,
     let st' := snd (API.get_top_headlines E self country category q
                       page_size page now st) in
     (List.length (API.requests st') <= S (List.length (API.requests st)))%nat
     /\ forall r, In r (API.requests st') ->
          In r (API.requests st)
          \/ (API.url r = API.base_url self ++ ""
              /\ dict_get "apiKey" (API.params r) = Some (PStr (API.api_key self))))
  /\ (forall q from_date to_date language sort_by page_size page,
        let st' := snd (API.search_everything E self q from_date to_date language
                          sort_by page_size page now st) in
        (List.length (API.requests st') <= S (List.length (API.requests st)))%nat
        /\ forall r, In r (API.requests st') ->
             In r (API.requests st)
             \/ (API.url r = API.base_url self ++ "/everything"
                 /\ dict_get "apiKey" (API.params r) = Some (PStr (API.api_key self))))
  /\ (forall category language country,
        let st' := snd (API.get_sources E self category language country now st) in
        (List.length (API.requests st') <= S (List.length (API.requests st)))%nat
        /\ forall r, In r (API.requests st') ->
             In r (API.requests st)
             \/ (API.url r = API.base_url self ++ "/sources"
                 /\ dict_get "apiKey" (API.params r) = Some (PStr (API.api_key self)))).
Proof.
  split; [|split].
  - intros country category q page_size page. simpl.
    unfold API.get_top_headlines.
    destruct (then_articles_frame E
                (API._make_request E self ""
                   (API.top_headlines_params country category q page_size page) now)
                now st) as (_ & _ & ->).
    split; [apply make_request_at_most_one | intros r; apply make_request_sends].
  - intros q from_date to_date language sort_by page_size page. simpl.
    unfold API.search_everything.
    destruct (then_articles_frame E
                (API._make_request E self "/everything"
                   (API.search_params q from_date to_date language sort_by
                      page_size page) now)
                now st) as (_ & _ & ->).
    split; [apply make_request_at_most_one | intros r; apply make_request_sends].
  - intros category language country. simpl. rewrite get_sources_state.
    split; [apply make_request_at_most_one | intros r; apply make_request_sends].
Qed.

Lemma headlines_on_miss country category q page_size page now st :
  cache_miss (sent_key "" (API.top_headlines_params country category q page_size page))
             now (API.news_cache st) ->
  API.get_top_headlines E self country category q page_size page now st
  = bind (fun s => after_request ""
                     (API.top_headlines_params country category q page_size page) now s)
         (fun response => API.articles_or_empty E response now) st.
Proof.
  intros Hmiss. unfold API.get_top_headlines, bind.
  now rewrite (make_request_miss E self _ _ _ _ Hmiss).
Qed.

Lemma search_on_miss q from_date to_date language sort_by page_size page now st :
  cache_miss (sent_key "/everything"
                (API.search_params q from_date to_date language sort_by page_size page))
             now (API.news_cache st) ->
  API.search_everything E self q from_date to_date language sort_by page_size page now st
  = bind (fun s => after_request "/everything"
                     (API.search_params q from_date to_date language sort_by
                        page_size page) now s)
         (fun response => API.articles_or_empty E response now) st.
Proof.
  intros Hmiss. unfold API.search_everything, bind.
  now rewrite (make_request_miss E self _ _ _ _ Hmiss).
Qed.

Lemma sources_on_miss category language country now st :
  cache_miss (sent_key "/sources" (sources_params category language country))
             now (API.news_cache st) ->
  API.get_sources E self category language country now st
  = bind (fun s => after_request "/sources"
                     (sources_params category language country) now s)
         (fun response =>
            if truthy response then API.py_get "sources" (PList []) response
            else ret (PList [])) st.
Proof.
  intros Hmiss. unfold API.get_sources, bind.
  fold (sources_params category language country).
  now rewrite (make_request_miss E self _ _ _ _ Hmiss).
Qed.

(** X8. A reply whose JSON body is not an object is not absorbed: with
    nothing cached for the request, [get_top_headlines],
    [search_everything] and [get_sources] raise AttributeError. *)
Theorem body_that_is_no_object_raises data rest now st :
  API.network st = API.Json data :: rest ->
  (forall d, data <> PDict d) ->
  (forall country category q page_size page,
     cache_miss (sent_key "" (API.top_headlines_params country category q page_size page))
                now (API.news_cache st) ->
     fst (API.get_top_headlines E self country category q page_size page now st)
     = Raise AttributeError)
  /\ (forall q from_date to_date language sort_by page_size page,
        cache_miss (sent_key "/everything"
                      (API.search_params q from_date to_date language sort_by
                         page_size page))
                   now (API.news_cache st) ->
        fst (API.search_everything E self q from_date to_date language sort_by
               page_size page now st)
        = Raise AttributeError)
  /\ (forall category language country,
        cache_miss (sent_key "/sources" (sources_params category language country))
                   now (API.news_cache st) ->
        fst (API.get_sources E self category language country now st)
        = Raise AttributeError).
Proof.
  intros Hnet Hdata.
  assert (forall endpoint params,
            fst (after_request endpoint params now st) = Raise AttributeError) as Hreq.
  { intros endpoint params. unfold after_request. rewrite Hnet.
    destruct data; try reflexivity. now destruct (Hdata entries). }
  split; [|split].
  - intros country category q page_size page Hmiss.
    rewrite headlines_on_miss by exact Hmiss. unfold bind.
    specialize (Hreq "" (API.top_headlines_params country category q page_size page)).
    destruct (after_request _ _ now st) as [[v|e] s]; simpl in Hreq |- *; congruence.
  - intros q from_date to_date language sort_by page_size page Hmiss.
    rewrite search_on_miss by exact Hmiss. unfold bind.
    specialize (Hreq "/everything"
                  (API.search_params q from_date to_date language sort_by page_size page)).
    destruct (after_request _ _ now st) as [[v|e] s]; simpl in Hreq |- *; congruence.
  - intros category language country Hmiss.
    rewrite sources_on_miss by exact Hmiss. unfold bind.
    specialize (Hreq "/sources" (sources_params category language country)).
    destruct (after_request _ _ now st) as [[v|e] s]; simpl in Hreq |- *; congruence.
Qed.

Lemma after_unsuccessful endpoint params now st :
  cache_miss (sent_key endpoint params) now (API.news_cache st) ->
  unsuccessful (API.network st) ->
  after_request endpoint params now st
  = (Ok PNone,
     API.State (API.news_cache st) (tl (API.network st))
               (API.requests st
                ++ [API.Request (API.base_url self ++ endpoint) (sent_params params)])
               (API.nlp st)).
Proof.
  intros Hmiss Hun. unfold after_request. rewrite get_miss_same by exact Hmiss.
  destruct (API.network st) as [|[|data] rest]; simpl in *; try reflexivity.
  destruct data; try contradiction. now rewrite Hun.
Qed.

(** X9. A reply that is not a success (no reply, a failed request, a body
    whose status is not ok) gives an empty result and is not cached:
    [news_cache] is left as it was, the request has been sent, and the
    annotator is not run. *)
Theorem unsuccessful_reply_not_cached now st :
  unsuccessful (API.network st) ->
  (forall country category q page_size page,
     cache_miss (sent_key "" (API.top_headlines_params country category q page_size page))
                now (API.news_cache st) ->
     let r := API.get_top_headlines E self country category q page_size page now st in
     fst r = Ok []
     /\ API.news_cache (snd r) = API.news_cache st
     /\ List.length (API.requests (snd r)) = S (List.length (API.requests st))
     /\ API.nlp (snd r) = API.nlp st)
  /\ (forall q from_date to_date language sort_by page_size page,
        cache_miss (sent_key "/everything"
                      (API.search_params q from_date to_date language sort_by
                         page_size page))
                   now (API.news_cache st) ->
        let r := API.search_everything E self q from_date to_date language sort_by
                   page_size page now st in
        fst r = Ok []
        /\ API.news_cache (snd r) = API.news_cache st
        /\ List.length (API.requests (snd r)) = S (List.length (API.requests st))
        /\ API.nlp (snd r) = API.nlp st)
  /\ (forall category language country,
        cache_miss (sent_key "/sources" (sources_params category language country))
                   now (API.news_cache st) ->
        let r := API.get_sources E self category language country now st in
        fst r = Ok (PList [])
        /\ API.news_cache (snd r) = API.news_cache st
        /\ List.length (API.requests (snd r)) = S (List.length (API.requests st))
        /\ API.nlp (snd r) = API.nlp st).
Proof.
  intros Hun. split; [|split].
  - intros country category q page_size page Hmiss.
    rewrite headlines_on_miss by exact Hmiss. unfold bind.
    rewrite after_unsuccessful by assumption. simpl.
    rewrite length_app. simpl. repeat split. lia.
  - intros q from_date to_date language sort_by page_size page Hmiss.
    rewrite search_on_miss by exact Hmiss. unfold bind.
    rewrite after_unsuccessful by assumption. simpl.
    rewrite length_app. simpl. repeat split. lia.
  - intros category language country Hmiss.
    rewrite sources_on_miss by exact Hmiss. unfold bind.
    rewrite after_unsuccessful by assumption. simpl.
    rewrite length_app. simpl. repeat split. lia.
Qed.

Lemma enrich_each_length articles now : forall n : NLP.state,
  List.length (fst (API.enrich_each E articles now n)) = List.length articles.
Proof.
  induction articles as [|a rest IH]; intros n; simpl; [reflexivity|].
  destruct (API.enrich_article E a now n) as [a' n1].
  specialize (IH n1). destruct (API.enrich_each E rest now n1) as [l n2].
  simpl in *. now rewrite IH.
Qed.

Lemma ok_status_nonempty d :
  API.is_str "ok" (dict_get_default "status" PNone d) = true -> truthy (PDict d) = true.
Proof. destruct d; [discriminate | reflexivity]. Qed.

Lemma after_success endpoint params now st d rest :
  API.network st = API.Json (PDict d) :: rest ->
  API.is_str "ok" (dict_get_default "status" PNone d) = true ->
  after_request endpoint params now st
  = (Ok (PDict d),
     API.State (TTLCache.put (sent_key endpoint params) (PDict d) now
                  (snd (TTLCache.get (sent_key endpoint params) now (API.news_cache st))))
               rest
               (API.requests st
                ++ [API.Request (API.base_url self ++ endpoint) (sent_params params)])
               (API.nlp st)).
Proof. intros Hnet Hok. unfold after_request. now rewrite Hnet, Hok. Qed.

(** X10. What [get_top_headlines] makes of a successful reply it had to
    fetch: without an [articles] entry the result is empty; with an
    [articles] entry that can be iterated the result has one entry per
    article; with one that cannot (null, a number) a TypeError is raised. *)
Theorem headlines_by_body country category q page_size page now st d rest :
  cache_miss (sent_key "" (API.top_headlines_params country category q page_size page))
             now (API.news_cache st) ->
  API.network st = API.Json (PDict d) :: rest ->
  API.is_str "ok" (dict_get_default "status" PNone d) = true ->
  let r := fst (API.get_top_headlines E self country category q page_size page now st) in
  (dict_get "articles" d = None -> r = Ok [])
  /\ (forall a items, dict_get "articles" d = Some a -> API.py_iter a = Some items ->
        exists enriched, r = Ok enriched /\ List.length enriched = List.length items)
  /\ (forall a, dict_get "articles" d = Some a -> API.py_iter a = None ->
        r = Raise TypeError).
Proof.
  intros Hmiss Hnet Hok. simpl.
  rewrite headlines_on_miss by exact Hmiss.
  match goal with
  | |- context [bind ?m ?f st] =>
      replace (bind m f st)
        with (API.articles_or_empty E (PDict d) now
                (snd (after_request ""
                        (API.top_headlines_params country category q page_size page)
                        now st)))
        by (unfold bind; now rewrite (after_success _ _ _ _ Hnet Hok))
  end.
  generalize (snd (after_request ""
                     (API.top_headlines_params country category q page_size page)
                     now st)).
  intros s1.
  unfold API.articles_or_empty. rewrite (ok_status_nonempty _ Hok).
  unfold bind, API.has_articles, API.articles_of, dict_mem, ret.
  split; [|split].
  - intros Hnone. now rewrite Hnone.
  - intros a items Ha Hit. rewrite Ha.
    unfold API.with_nlp, API.enrich_articles. rewrite Hit.
    pose proof (enrich_each_length items now (API.nlp s1)) as Hlen.
    destruct (API.enrich_each E items now (API.nlp s1)) as [enriched n]. simpl in *.
    eauto.
  - intros a Ha Hit. rewrite Ha.
    unfold API.with_nlp, API.enrich_articles. now rewrite Hit.
Qed.

Lemma make_request_nlp endpoint params now st :
  API.nlp (snd (API._make_request E self endpoint params now st)) = API.nlp st.
Proof.
  destruct (fst (TTLCache.get (sent_key endpoint params) now (API.news_cache st)))
    as [v|] eqn:Hget.
  - now rewrite (make_request_hit E self _ _ _ _ Hget).
  - rewrite (make_request_miss E self _ _ _ _ Hget). unfold after_request.
    destruct (API.network st) as [|[|[]] rest]; try reflexivity.
    now destruct (API.is_str "ok" _).
Qed.

(** X11. [get_sources] never runs the annotator; and from a successful
    reply it had to fetch it returns the [sources] entry of the body as it
    is, or an empty list when the body has none. *)
Theorem get_sources_result category language country now st :
  API.nlp (snd (API.get_sources E self category language country now st)) = API.nlp st
  /\ (forall d rest,
        cache_miss (sent_key "/sources" (sources_params category language country))
                   now (API.news_cache st) ->
        API.network st = API.Json (PDict d) :: rest ->
        API.is_str "ok" (dict_get_default "status" PNone d) = true ->
        fst (API.get_sources E self category language country now st)
        = Ok (dict_get_default "sources" (PList []) d)).
Proof.
  split.
  - rewrite get_sources_state. apply make_request_nlp.
  - intros d rest Hmiss Hnet Hok.
    rewrite sources_on_miss by exact Hmiss. unfold bind.
    rewrite (after_success _ _ _ _ Hnet Hok).
    now rewrite (ok_status_nonempty _ Hok).
Qed.



End ClientFacts.


(** ** The caches: size and keys *)

Section CacheOrder.
Variable V : Type.
Implicit Types (c : TTLCache.t V) (l : TTLCache.link V) (ls : list (TTLCache.link V)).
Local Abbreviation key := (@TTLCache.key V).

Lemma NoDup_keys_filter (g : TTLCache.link V -> bool) ls :
  NoDup (map key ls) -> NoDup (map key (filter g ls)).
Proof.
  induction ls as [|l ls IH]; simpl; [auto|].
  intros Hnd. inversion Hnd as [|? ? Hnotin Hrest]; subst.
  destruct (g l); simpl; [|auto].
  constructor; [|auto].
  intros Hin. apply Hnotin. apply in_map_iff in Hin.
  destruct Hin as (x & Hx & Hin). apply filter_In in Hin.
  apply in_map_iff. exists x. tauto.
Qed.

Lemma NoDup_keys_skipn n ls : NoDup (map key ls) -> NoDup (map key (skipn n ls)).
Proof.
  revert ls. induction n as [|n IH]; intros [|l ls]; simpl; auto.
  intros Hnd. inversion Hnd; subst. auto.
Qed.

Lemma key_not_in_without k ls : ~ In k (map key (TTLCache.without k ls)).
Proof.
  intros Hin. apply in_map_iff in Hin. destruct Hin as (l & Hl & Hin).
  unfold TTLCache.without in Hin. apply filter_In in Hin. destruct Hin as [_ Hf].
  unfold TTLCache.has_key in Hf. rewrite Hl, String.eqb_refl in Hf. discriminate.
Qed.

Lemma without_shorter k ls l :
  find (TTLCache.has_key k) ls = Some l ->
  (S (List.length (TTLCache.without k ls)) <= List.length ls)%nat.
Proof.
  unfold TTLCache.without. induction ls as [|x ls IH]; simpl; [discriminate|].
  destruct (TTLCache.has_key k x) eqn:Hk; simpl.
  - intros _. pose proof (filter_length_le (fun l0 => negb (TTLCache.has_key k l0)) ls).
    lia.
  - intros Hf. specialize (IH Hf). lia.
Qed.

Lemma without_length k ls :
  (List.length (TTLCache.without k ls) <= List.length ls)%nat.
Proof. apply filter_length_le. Qed.

Lemma get_in_order k now c :
  cache_in_order c -> cache_in_order (snd (TTLCache.get k now c)).
Proof.
  intros [Hnd Hlen]. unfold TTLCache.get.
  destruct (find (TTLCache.has_key k) (TTLCache.links c)) as [l|] eqn:Hf;
    [|now split].
  destruct (TTLCache.fresh now l); [|now split].
  unfold cache_in_order. simpl. split.
  - rewrite map_app. simpl.
    pose proof (find_some _ _ Hf) as [_ Hk].
    unfold TTLCache.has_key in Hk. apply String.eqb_eq in Hk. rewrite <- Hk.
    apply NoDup_snoc; [now apply NoDup_keys_filter | apply key_not_in_without].
  - rewrite length_app. simpl. pose proof (without_shorter _ _ Hf). lia.
Qed.

Lemma put_in_order k v now c :
  cache_in_order c -> cache_in_order (TTLCache.put k v now c).
Proof.
  intros [Hnd Hlen]. unfold cache_in_order, TTLCache.put. simpl.
  set (alive := TTLCache.expire now (TTLCache.links c)).
  assert (NoDup (map key alive)) as Halive by now apply NoDup_keys_filter.
  assert (List.length alive <= List.length (TTLCache.links c))%nat as Hal
      by apply filter_length_le.
  split.
  - rewrite map_app. simpl. apply NoDup_snoc; [|apply key_not_in_without].
    apply NoDup_keys_filter.
    destruct (find _ alive); [exact Halive | now apply NoDup_keys_skipn].
  - rewrite length_app. simpl.
    destruct (find (TTLCache.has_key k) alive) as [l|] eqn:Hf.
    + pose proof (without_shorter _ _ Hf). lia.
    + pose proof (without_length k
                    (TTLCache.evict (Pos.to_nat (TTLCache.maxsize c) - 1) alive)).
      unfold TTLCache.evict in *. rewrite length_skipn in *.
      pose proof (Pos2Nat.is_pos (TTLCache.maxsize c)). lia.
Qed.

Lemma create_in_order maxsize ttl : cache_in_order (TTLCache.create (V := V) maxsize ttl).
Proof. split; simpl; [constructor | lia]. Qed.

Lemma same_key_same_entry ls l l0 :
  NoDup (map key ls) -> In l ls -> In l0 ls -> key l = key l0 -> l = l0.
Proof.
  induction ls as [|x xs IH]; simpl; [tauto|].
  intros Hnd Hin Hin0 Hk. inversion Hnd as [|? ? Hnotin Hrest]; subst.
  destruct Hin as [Hl|Hin], Hin0 as [Hl0|Hin0].
  - congruence.
  - exfalso. apply Hnotin. apply in_map_iff. exists l0.
    split; [congruence | exact Hin0].
  - exfalso. apply Hnotin. apply in_map_iff. exists l.
    split; [congruence | exact Hin].
  - now apply IH.
Qed.

(** In a cache in order, the entry under a key is the one [get] looks at. *)
Lemma miss_means_none_live k now c l :
  cache_in_order c -> fst (TTLCache.get k now c) = None ->
  In l (TTLCache.links c) -> key l = k -> TTLCache.fresh now l = false.
Proof.
  intros [Hnd _] Hmiss Hin Hk. unfold TTLCache.get in Hmiss.
  destruct (find (TTLCache.has_key k) (TTLCache.links c)) as [l0|] eqn:Hf.
  - pose proof (find_some _ _ Hf) as [Hin0 Hk0].
    unfold TTLCache.has_key in Hk0. apply String.eqb_eq in Hk0.
    assert (l = l0) as -> by (eapply same_key_same_entry; eauto; congruence).
    destruct (TTLCache.fresh now l0); [discriminate | reflexivity].
  - exfalso. apply (find_none _ _ Hf) in Hin.
    unfold TTLCache.has_key in Hin. rewrite Hk, String.eqb_refl in Hin. discriminate.
Qed.

(** Storing under one key does not bring another key to life. *)
Lemma miss_after_put_other k k' v now now' c :
  cache_in_order c -> k <> k' ->
  fst (TTLCache.get k' now' c) = None ->
  fst (TTLCache.get k' now' (TTLCache.put k v now c)) = None.
Proof.
  intros Hord Hne Hmiss. unfold TTLCache.get at 1.
  destruct (find (TTLCache.has_key k') (TTLCache.links (TTLCache.put k v now c)))
    as [l|] eqn:Hf; [|reflexivity].
  pose proof (find_some _ _ Hf) as [Hin Hk].
  unfold TTLCache.has_key in Hk. apply String.eqb_eq in Hk.
  apply in_links_put in Hin. destruct Hin as [Hin|Hin].
  - now rewrite (@miss_means_none_live k' now' c l Hord Hmiss Hin (eq_sym Hk)).
  - subst l. simpl in Hk. congruence.
Qed.

End CacheOrder.

(** ** The annotator in the states it can reach *)

Section ReachableFacts.
Variable E : NLP.env.
Implicit Types (st : NLP.state) (c : TTLCache.t pyval).

(** A property of the cache that lookups and stores keep is kept by every
    use of the annotator. *)
Lemma perform_keeps (P : TTLCache.t pyval -> Prop) :
  (forall k now c, P c -> P (snd (TTLCache.get k now c))) ->
  (forall k v now c, P c -> P (TTLCache.put k v now c)) ->
  forall call st, P (NLP.cache st) -> P (NLP.cache (perform E st call)).
Proof.
  intros Hget Hput call st Hst.
  assert (forall k now, P (NLP.cache (snd (NLP.looked_up k now st)))) as Hlook
      by (intros k now; rewrite looked_up_eq; simpl; now apply Hget).
  destruct call as [text now|text top_n now|url now|text lang now|text now|t1 t2];
    simpl.
  - unfold NLP.analyze_sentiment. destruct text as [[|a t]|]; try exact Hst.
    specialize (Hlook (NLP.sentiment_key E (String a t)) now).
    destruct (NLP.looked_up _ now st) as [[v|] st1]; simpl in *; [exact Hlook|].
    destruct (NLP.polarity E _); simpl; [now apply Hput | exact Hlook].
  - unfold NLP.extract_keywords. destruct text as [[|a t]|]; try exact Hst.
    specialize (Hlook (NLP.keywords_key E (String a t)) now).
    destruct (NLP.looked_up _ now st) as [[v|] st1]; simpl in *; [exact Hlook|].
    destruct (NLP.nlp E _); simpl; [now apply Hput | exact Hlook].
  - unfold NLP.summarize_article.
    specialize (Hlook (NLP.summary_key E url) now).
    destruct (NLP.looked_up _ now st) as [[v|] st1]; simpl in *; [exact Hlook|].
    destruct (NLP.summary E _); simpl; [now apply Hput | exact Hlook].
  - unfold NLP.translate_text. destruct text as [[|a t]|]; try exact Hst.
    destruct (lang =? "en"); [exact Hst|].
    specialize (Hlook (NLP.trans_key E (String a t) lang) now).
    destruct (NLP.looked_up _ now st) as [[v|] st1]; simpl in *; [exact Hlook|].
    destruct (NLP.translate E _ _); simpl; [now apply Hput | exact Hlook].
  - unfold NLP.get_named_entities. destruct text as [[|a t]|]; try exact Hst.
    specialize (Hlook (NLP.ner_key E (String a t)) now).
    destruct (NLP.looked_up _ now st) as [[v|] st1]; simpl in *; [exact Hlook|].
    destruct (NLP.nlp E _); simpl; [now apply Hput | exact Hlook].
  - now rewrite compute_text_similarity_cache.
Qed.

Lemma after_calls_keeps (P : TTLCache.t pyval -> Prop) :
  (forall k now c, P c -> P (snd (TTLCache.get k now c))) ->
  (forall k v now c, P c -> P (TTLCache.put k v now c)) ->
  P (NLP.cache NLP.init) ->
  forall cs, P (NLP.cache (after_calls E cs)).
Proof.
  intros Hget Hput Hinit cs. unfold after_calls.
  generalize NLP.init Hinit. induction cs as [|call cs IH]; intros st Hst; [exact Hst|].
  simpl. apply IH. now apply perform_keeps.
Qed.

Lemma maxsize_get (V : Type) k now (c : TTLCache.t V) :
  TTLCache.maxsize (snd (TTLCache.get k now c)) = TTLCache.maxsize c.
Proof.
  unfold TTLCache.get. destruct (find _ _) as [l|]; [|reflexivity].
  now destruct (TTLCache.fresh now l).
Qed.

(** X13. However the annotator has been used since the module was
    imported, its cache holds at most 100 entries and never two entries
    under the same key. *)
Theorem annotator_cache_bounded cs :
  let c := NLP.cache (after_calls E cs) in
  (List.length (TTLCache.links c) <= 100)%nat
  /\ NoDup (map (@TTLCache.key pyval) (TTLCache.links c)).
Proof.
  pose proof (@after_calls_keeps
                (fun c => cache_in_order c /\ TTLCache.maxsize c = 100%positive))
    as H.
  destruct (H ltac:(intros k now c [Ho Hm]; split;
                      [now apply get_in_order | now rewrite maxsize_get])
              ltac:(intros k v now c [Ho Hm]; split;
                      [now apply put_in_order | exact Hm])
              ltac:(split; [apply create_in_order | reflexivity])
              cs) as [[Hnd Hlen] Hmax].
  simpl. rewrite Hmax in Hlen. split; [exact Hlen | exact Hnd].
Qed.

End ReachableFacts.


(** ** The annotator: what is cached and what is not *)

Section AnnotatorCaching.
Variable E : NLP.env.
Implicit Types (st : NLP.state).


Lemma append_inj_l (s a b : string) : s ++ a = s ++ b -> a = b.
Proof. induction s as [|c s IH]; simpl; [auto|]. intros [= H]. auto. Qed.

Lemma trans_key_lang t lang1 lang2 :
  NLP.trans_key E t lang1 = NLP.trans_key E t lang2 -> lang1 = lang2.
Proof.
  unfold NLP.trans_key. intros H. apply append_inj_l in H.
  apply append_inj_l in H. now apply append_inj_l in H.
Qed.

(** X16. [translate_text] returns the text as it is, calls no translator
    and touches no state when the target is 'en' or the text is empty or
    missing.  Translations are cached per target language: after a
    translation into one language, the request for another language, for
    which nothing is cached, calls the translator and returns its own
    translation. *)
Theorem translate_text_per_language :
  (forall text target_lang now st,
     text = None \/ text = Some "" \/ target_lang = "en" ->
     NLP.translate_text E text target_lang now st = (NLP.text_val text, st))
  /\ (forall t lang1 lang2 s1 s2 now1 now2 st,
        cache_in_order (NLP.cache st) ->
        t <> "" -> lang1 <> "en" -> lang2 <> "en" -> lang1 <> lang2 ->
        cache_miss (NLP.trans_key E t lang1) now1 (NLP.cache st) ->
        cache_miss (NLP.trans_key E t lang2) now2 (NLP.cache st) ->
        NLP.translate E t lang1 = Some s1 ->
        NLP.translate E t lang2 = Some s2 ->
        let r1 := NLP.translate_text E (Some t) lang1 now1 st in
        let r2 := NLP.translate_text E (Some t) lang2 now2 (snd r1) in
        fst r1 = PStr s1 /\ fst r2 = PStr s2
        /\ NLP.calls (snd r2)
           = (NLP.calls st ++ [NLP.CallTranslator t lang1; NLP.CallTranslator t lang2])%list).
Proof.
  split.
  - intros text target_lang now st H. unfold NLP.translate_text.
    destruct text as [[|a t]|]; try reflexivity.
    destruct H as [H|[H|H]]; try discriminate. subst. reflexivity.
  - intros t lang1 lang2 s1 s2 now1 now2 st Hord Ht Hl1 Hl2 Hne Hm1 Hm2 Hs1 Hs2.
    unfold cache_miss in *.
    destruct t as [|a t]; [congruence|].
    assert (NLP.translate_text E (Some (String a t)) lang1 now1 st
            = (PStr s1,
               NLP.State (TTLCache.put (NLP.trans_key E (String a t) lang1) (PStr s1)
                            now1 (NLP.cache st))
                         (NLP.calls st ++ [NLP.CallTranslator (String a t) lang1])))
      as H1.
    { unfold NLP.translate_text.
      destruct (String.eqb_spec lang1 "en"); [congruence|].
      rewrite looked_up_eq, Hm1, (get_miss_same _ _ _ Hm1), Hs1. reflexivity. }
    cbv zeta. rewrite H1. cbn [fst snd]. split; [reflexivity|].
    unfold NLP.translate_text.
    destruct (String.eqb_spec lang2 "en"); [congruence|].
    rewrite looked_up_eq. cbn [NLP.cache NLP.calls].
    assert (fst (TTLCache.get (NLP.trans_key E (String a t) lang2) now2
                   (TTLCache.put (NLP.trans_key E (String a t) lang1) (PStr s1)
                      now1 (NLP.cache st))) = None) as Hm.
    { apply miss_after_put_other; [exact Hord| |exact Hm2].
      intros Hk. apply trans_key_lang in Hk. congruence. }
    rewrite Hm, Hs2. cbn [fst snd NLP.calls NLP.stored NLP.logged NLP.cache].
    split; [reflexivity|]. now rewrite <- app_assoc.
Qed.

End AnnotatorCaching.

(** ** Enrichment: the summary *)

Section SummaryFacts.
Variable E : API.env.
Implicit Types (st : NLP.state) (d : dict).
Local Abbreviation N := (API.nlp_env E).

Lemma downloads_app cs1 cs2 : downloads (cs1 ++ cs2) = (downloads cs1 ++ downloads cs2)%list.
Proof. apply filter_app. Qed.

Lemma analyze_sentiment_downloads text now st :
  downloads (NLP.calls (snd (NLP.analyze_sentiment N text now st)))
  = downloads (NLP.calls st).
Proof.
  unfold NLP.analyze_sentiment. destruct text as [[|a t]|]; try reflexivity.
  rewrite looked_up_eq.
  destruct (fst (TTLCache.get _ now (NLP.cache st))); [reflexivity|].
  destruct (NLP.polarity N _); simpl; rewrite downloads_app; simpl;
    now rewrite app_nil_r.
Qed.

Lemma extract_keywords_downloads text top_n now st :
  downloads (NLP.calls (snd (NLP.extract_keywords N text top_n now st)))
  = downloads (NLP.calls st).
Proof.
  unfold NLP.extract_keywords. destruct text as [[|a t]|]; try reflexivity.
  rewrite looked_up_eq.
  destruct (fst (TTLCache.get _ now (NLP.cache st))); [reflexivity|].
  destruct (NLP.nlp N _); simpl; rewrite downloads_app; simpl;
    now rewrite app_nil_r.
Qed.

Lemma get_named_entities_downloads text now st :
  downloads (NLP.calls (snd (NLP.get_named_entities N text now st)))
  = downloads (NLP.calls st).
Proof.
  unfold NLP.get_named_entities. destruct text as [[|a t]|]; try reflexivity.
  rewrite looked_up_eq.
  destruct (fst (TTLCache.get _ now (NLP.cache st))); [reflexivity|].
  destruct (NLP.nlp N _); simpl; rewrite downloads_app; simpl;
    now rewrite app_nil_r.
Qed.

End SummaryFacts.


(** ** The persistence store: preferences *)

Section PreferenceFacts.
Implicit Types (st : Store.state).

Lemma store_query_available q fetch now st :
  hd false (Store.faults st) = false ->
  Store.execute_query q fetch now st
  = match Store.sqlite_exec q now (Store.next_call st) with
    | inl e => (Raise e, Store.next_call st)
    | inr (result, st') => (Ok (if fetch then Some result else None), st')
    end.
Proof.
  unfold Store.execute_query. destruct (Store.faults st) as [|[|] rest]; simpl;
    [reflexivity | discriminate | reflexivity].
Qed.

Lemma append_nil_r (s : string) : s ++ "" = s.
Proof. induction s as [|c s IH]; simpl; [reflexivity | now rewrite IH]. Qed.

Lemma append_snoc (acc : string) c a : (acc ++ String c "") ++ a = acc ++ String c a.
Proof. induction acc as [|x acc IH]; simpl; [reflexivity | now rewrite IH]. Qed.

Lemma split_from_free a : forall acc,
  comma_free a = true -> Store.split_from acc a = [acc ++ a].
Proof.
  induction a as [|c a IH]; intros acc Hf; simpl.
  - now rewrite append_nil_r.
  - simpl in Hf. apply andb_true_iff in Hf. destruct Hf as [Hc Hf].
    apply negb_true_iff in Hc. rewrite Hc, IH by exact Hf. now rewrite append_snoc.
Qed.

Lemma split_from_sep a : forall acc rest,
  comma_free a = true ->
  Store.split_from acc (a ++ String ","%char rest) = (acc ++ a) :: Store.split_from "" rest.
Proof.
  induction a as [|c a IH]; intros acc rest Hf; simpl.
  - now rewrite append_nil_r.
  - simpl in Hf. apply andb_true_iff in Hf. destruct Hf as [Hc Hf].
    apply negb_true_iff in Hc. rewrite Hc, IH by exact Hf. now rewrite append_snoc.
Qed.

(** Splitting what was joined gives the items back. *)
Lemma split_join ss :
  ss <> [] -> Forall plain_item ss -> Store.py_split (String.concat "," ss) = ss.
Proof.
  unfold Store.py_split. induction ss as [|x [|y l] IH]; intros Hne Hall.
  - congruence.
  - inversion Hall as [|? ? [Hx _] _]; subst. simpl. now rewrite split_from_free.
  - inversion Hall as [|? ? [Hx _] Hrest]; subst.
    change (String.concat "," (x :: y :: l))
      with (x ++ String ","%char (String.concat "," (y :: l))).
    rewrite split_from_sep by exact Hx. simpl append.
    rewrite IH; [reflexivity | discriminate | exact Hrest].
Qed.

Lemma joined_empty ss :
  Forall plain_item ss -> String.concat "," ss = "" -> ss = [].
Proof.
  destruct ss as [|x [|y l]]; [reflexivity| |]; intros Hall Hj;
    inversion Hall as [|? ? [_ Hx] _]; subst; simpl in Hj.
  - congruence.
  - destruct x; [congruence | discriminate].
Qed.

Lemma strings_of_strs ss : Store.strings_of (map PStr ss) = Some ss.
Proof. induction ss as [|x l IH]; simpl; [reflexivity | now rewrite IH]. Qed.

(** What comes back for a list that was stored joined. *)
Lemma split_if_any_joined (S : Type) ss (s : S) :
  Forall plain_item ss ->
  Store.split_if_any (PStr (String.concat "," ss)) s = (Ok (PList (map PStr ss)), s).
Proof.
  intros Hall. unfold Store.split_if_any, truthy.
  destruct (String.eqb_spec (String.concat "," ss) "") as [He|Hne]; simpl.
  - now rewrite (joined_empty Hall He).
  - rewrite split_join; [reflexivity| |exact Hall].
    intros ->. now apply Hne.
Qed.

Lemma sql_value_text v : text_or_none v -> Store.sql_value v = inr v.
Proof. intros [->|[s ->]]; reflexivity. Qed.

(** The row [update_user_preferences] writes for well-formed preferences. *)
Lemma update_preferences_run uid preferences cats cos language sentiment now st :
  hd false (Store.faults st) = false ->
  int64 uid = true ->
  dict_get "categories" preferences = Some (PList (map PStr cats)) ->
  dict_get "countries" preferences = Some (PList (map PStr cos)) ->
  dict_get "language" preferences = Some language ->
  dict_get "sentiment" preferences = Some sentiment ->
  text_or_none language -> text_or_none sentiment ->
  Store.update_user_preferences uid preferences now st
  = (Ok true,
     Store.State
       (map (fun r =>
               if (Store.pr_user_id r =? uid)%Z
               then Store.Preferences uid (PStr (String.concat "," cats))
                                      (PStr (String.concat "," cos))
                                      language sentiment now
               else r)
            (Store.user_preferences st))
       (Store.reading_history st) (Store.article_cache st) (tl (Store.faults st))).
Proof.
  intros Hav Hu Hc Hk Hl Hs Hbl Hbs.
  unfold Store.update_user_preferences, try_except, bind, Store.subscript, Store.py_join.
  rewrite Hc, Hk, Hl, Hs. simpl. rewrite !strings_of_strs. simpl.
  rewrite store_query_available by exact Hav.
  cbn [Store.sqlite_exec]. rewrite (sql_value_text Hbl), (sql_value_text Hbs).
  unfold DB.bind_int. rewrite Hu. reflexivity.
Qed.

(** X19. Preferences come back as they were saved: for a user who has a
    preferences row and whose identifier fits 64 bits, categories and
    countries given as lists of items that are not empty and contain no
    comma, language and sentiment being text or None, and the database
    available, [update_user_preferences] returns True and
    [get_user_preferences] then returns the same two lists, language and
    sentiment. *)
Theorem preferences_round_trip uid preferences cats cos language sentiment now now' st :
  hd false (Store.faults st) = false ->
  hd false (tl (Store.faults st)) = false ->
  int64 uid = true ->
  existsb (fun r => (Store.pr_user_id r =? uid)%Z) (Store.user_preferences st) = true ->
  dict_get "categories" preferences = Some (PList (map PStr cats)) ->
  dict_get "countries" preferences = Some (PList (map PStr cos)) ->
  dict_get "language" preferences = Some language ->
  dict_get "sentiment" preferences = Some sentiment ->
  text_or_none language -> text_or_none sentiment ->
  Forall plain_item cats -> Forall plain_item cos ->
  let st1 := snd (Store.update_user_preferences uid preferences now st) in
  fst (Store.update_user_preferences uid preferences now st) = Ok true
  /\ fst (Store.get_user_preferences uid now' st1)
     = Ok (PDict [("categories", PList (map PStr cats));
                  ("countries", PList (map PStr cos));
                  ("language", language); ("sentiment", sentiment)]).
Proof.
  intros H1 H2 Hu Hrow Hc Hk Hl Hs Hbl Hbs Hcats Hcos st1. subst st1.
  rewrite (update_preferences_run uid preferences cats cos now st H1 Hu Hc Hk Hl Hs
             Hbl Hbs).
  simpl fst. simpl snd. split; [reflexivity|].
  unfold Store.get_user_preferences. unfold bind at 1.
  rewrite store_query_available by exact H2.
  cbn [Store.sqlite_exec Store.next_call Store.user_preferences].
  unfold DB.bind_int. rewrite Hu. cbn [Store.and_then].
  set (new := Store.Preferences uid (PStr (String.concat "," cats))
                                (PStr (String.concat "," cos)) language sentiment now).
  assert (exists rest,
             filter (fun r => (Store.pr_user_id r =? uid)%Z)
                    (map (fun r => if (Store.pr_user_id r =? uid)%Z then new else r)
                         (Store.user_preferences st))
             = new :: rest) as [rest ->].
  { apply existsb_exists in Hrow. destruct Hrow as (r0 & Hin & Hr0).
    clear -Hin Hr0. induction (Store.user_preferences st) as [|r rs IH]; [destruct Hin|].
    simpl. destruct (Store.pr_user_id r =? uid)%Z eqn:Hr.
    - simpl. rewrite Z.eqb_refl. eauto.
    - rewrite Hr. destruct Hin as [->|Hin]; [congruence | now apply IH]. }
  cbn [map]. cbn iota beta.
  unfold bind, DB.item. cbn [nth_error new Store.pr_categories Store.pr_countries
                               Store.pr_language Store.pr_sentiment ret].
  rewrite !split_if_any_joined by assumption. reflexivity.
Qed.

(** X20. [update_user_preferences] only updates: for a user without a
    preferences row (the identifier fitting 64 bits, language and
    sentiment being text or None) it still returns True, but no table
    changes and [get_user_preferences] goes on returning None. *)
Theorem update_preferences_without_row uid preferences cats cos language sentiment
        now now' st :
  hd false (Store.faults st) = false ->
  hd false (tl (Store.faults st)) = false ->
  int64 uid = true ->
  existsb (fun r => (Store.pr_user_id r =? uid)%Z) (Store.user_preferences st) = false ->
  dict_get "categories" preferences = Some (PList (map PStr cats)) ->
  dict_get "countries" preferences = Some (PList (map PStr cos)) ->
  dict_get "language" preferences = Some language ->
  dict_get "sentiment" preferences = Some sentiment ->
  text_or_none language -> text_or_none sentiment ->
  let st1 := snd (Store.update_user_preferences uid preferences now st) in
  fst (Store.update_user_preferences uid preferences now st) = Ok true
  /\ Store.user_preferences st1 = Store.user_preferences st
  /\ fst (Store.get_user_preferences uid now' st1) = Ok PNone.
Proof.
  intros H1 H2 Hu Hrow Hc Hk Hl Hs Hbl Hbs st1. subst st1.
  rewrite (update_preferences_run uid preferences cats cos now st H1 Hu Hc Hk Hl Hs
             Hbl Hbs).
  simpl fst. simpl snd.
  assert (forall new,
             map (fun r => if (Store.pr_user_id r =? uid)%Z then new else r)
                 (Store.user_preferences st) = Store.user_preferences st) as Hsame.
  { intros new. induction (Store.user_preferences st) as [|r rs IH]; [reflexivity|].
    simpl in Hrow |- *. apply orb_false_iff in Hrow. destruct Hrow as [Hr Hrs].
    now rewrite Hr, IH. }
  split; [reflexivity|]. split; [apply Hsame|].
  unfold Store.get_user_preferences, bind.
  rewrite store_query_available by exact H2.
  cbn [Store.sqlite_exec Store.next_call Store.user_preferences].
  unfold DB.bind_int. rewrite Hu. cbn [Store.and_then].
  rewrite Hsame, (filter_none _ _ Hrow). reflexivity.
Qed.

End PreferenceFacts.

(** ** The persistence store: reading history *)

Section HistoryFacts.
Implicit Types (st : Store.state) (rs : list Store.history_row).

(** X21. [add_reading_history] never raises; for an article without a
    [url] entry it returns False without sending any statement: the
    tables and the database are as before. *)
Theorem add_reading_history_without_url uid article_data now st :
  (exists b, fst (Store.add_reading_history uid article_data now st) = Ok b)
  /\ (dict_get "url" article_data = None ->
      Store.add_reading_history uid article_data now st = (Ok false, st)).
Proof.
  unfold Store.add_reading_history, try_except, bind, Store.subscript.
  destruct (dict_get "url" article_data) as [url|]; simpl.
  - split; [|discriminate].
    destruct (Store.execute_query _ false now st) as [[r|e] st']; simpl; eauto.
  - split; [eauto | reflexivity].
Qed.

Lemma insert_newest_Forall (P : Store.history_row -> Prop) r rs :
  P r -> Forall P rs -> Forall P (Store.insert_newest r rs).
Proof.
  intros Hr Hrs. induction Hrs as [|x xs Hx Hxs IH]; simpl.
  - constructor; [exact Hr | constructor].
  - destruct (Store.h_read_timestamp x <=? Store.h_read_timestamp r)%Z;
      repeat constructor; assumption.
Qed.

Lemma newest_first_Forall (P : Store.history_row -> Prop) rs :
  Forall P rs -> Forall P (Store.newest_first rs).
Proof.
  induction 1 as [|x xs Hx _ IH]; simpl; [constructor|].
  now apply insert_newest_Forall.
Qed.

Lemma insert_newest_length r rs :
  List.length (Store.insert_newest r rs) = S (List.length rs).
Proof.
  induction rs as [|x xs IH]; simpl; [reflexivity|].
  destruct (Store.h_read_timestamp x <=? Store.h_read_timestamp r)%Z; simpl;
    [reflexivity | now rewrite IH].
Qed.

Lemma newest_first_length rs : List.length (Store.newest_first rs) = List.length rs.
Proof.
  induction rs as [|x xs IH]; simpl; [reflexivity|].
  now rewrite insert_newest_length, IH.
Qed.

Lemma insert_newest_sorted r rs :
  Sorted newer_first rs -> Sorted newer_first (Store.insert_newest r rs).
Proof.
  induction 1 as [|x xs Hs IH Hhd]; simpl.
  - repeat constructor.
  - destruct (Z.leb_spec (Store.h_read_timestamp x) (Store.h_read_timestamp r))
      as [Hle|Hgt].
    + constructor; [constructor; assumption | constructor; exact Hle].
    + constructor; [exact IH|].
      destruct xs as [|z zs]; simpl.
      * constructor. unfold newer_first. lia.
      * inversion Hhd; subst.
        destruct (Store.h_read_timestamp z <=? Store.h_read_timestamp r)%Z;
          constructor; unfold newer_first in *; [lia | assumption].
Qed.

Lemma newest_first_sorted rs : StronglySorted newer_first (Store.newest_first rs).
Proof.
  apply Sorted_StronglySorted.
  - intros a b c Hab Hbc. unfold newer_first in *. lia.
  - induction rs as [|x xs IH]; simpl; [constructor | now apply insert_newest_sorted].
Qed.

Lemma history_entries_records rs st :
  Store.history_entries
    (map (fun r => [Store.h_article_url r; Store.h_title r; Store.h_category r;
                    PInt (Store.h_read_timestamp r)]) rs) st
  = (Ok (map history_record rs), st).
Proof.
  induction rs as [|r rs IH]; [reflexivity|].
  simpl. unfold bind at 1. unfold Store.history_entry, bind, DB.item. simpl.
  rewrite IH. reflexivity.
Qed.

Lemma sql_limit_sublist (A : Type) n (l : list A) x : In x (Store.sql_limit n l) -> In x l.
Proof.
  unfold Store.sql_limit. destruct (n <? 0)%Z; [auto|].
  intros Hin. rewrite <- (firstn_skipn (Z.to_nat n) l). apply in_or_app. now left.
Qed.

Lemma firstn_strongly_sorted (A : Type) (R : A -> A -> Prop) n (l : list A) :
  StronglySorted R l -> StronglySorted R (firstn n l).
Proof.
  intros Hs. revert n. induction Hs as [|x rest Hs IH Hall]; intros [|n]; simpl;
    try constructor.
  - apply IH.
  - rewrite Forall_forall in *. intros y Hy. apply Hall.
    rewrite <- (firstn_skipn n rest). apply in_or_app. now left.
Qed.

Lemma insert_newest_perm r rs : Permutation (Store.insert_newest r rs) (r :: rs).
Proof.
  induction rs as [|x xs IH]; simpl; [reflexivity|].
  destruct (Store.h_read_timestamp x <=? Store.h_read_timestamp r)%Z; [reflexivity|].
  rewrite IH. apply perm_swap.
Qed.

Lemma newest_first_perm rs : Permutation (Store.newest_first rs) rs.
Proof.
  induction rs as [|x xs IH]; simpl; [reflexivity|].
  rewrite insert_newest_perm. now constructor.
Qed.

(** In a sorted list, what comes first is related to what comes after. *)
Lemma sorted_firstn_skipn (A : Type) (R : A -> A -> Prop) n (l : list A) x y :
  StronglySorted R l -> In x (firstn n l) -> In y (skipn n l) -> R x y.
Proof.
  intros Hs. revert n. induction Hs as [|z rest Hs IH Hall]; intros [|n]; simpl;
    try tauto.
  intros [<-|Hx] Hy.
  - rewrite Forall_forall in Hall. apply Hall.
    rewrite <- (firstn_skipn n rest). apply in_or_app. now right.
  - now apply (IH n).
Qed.

(** X22. With the database available, and a user identifier and a limit
    that fit 64 bits, [get_reading_history] returns the records of rows of
    that user only, the newest first: when [limit] is not negative, as
    many of them as there are, up to [limit], none of those left out being
    newer than one returned; and all of them when [limit] is negative. *)
Theorem reading_history_listing uid limit now st :
  hd false (Store.faults st) = false ->
  int64 uid = true -> int64 limit = true ->
  let mine := filter (fun r => (Store.h_user_id r =? uid)%Z) (Store.reading_history st) in
  exists rs rest,
    fst (Store.get_reading_history uid limit now st) = Ok (PList (map history_record rs))
    /\ Permutation (rs ++ rest) mine
    /\ (forall r, In r rs -> In r (Store.reading_history st) /\ Store.h_user_id r = uid)
    /\ StronglySorted newer_first rs
    /\ (forall r r', In r rs -> In r' rest -> newer_first r r')
    /\ ((0 <= limit)%Z ->
        List.length rs = Nat.min (Z.to_nat limit) (List.length mine))
    /\ ((limit < 0)%Z -> rest = []).
Proof.
  intros Hav Hu Hl mine.
  set (sorted := Store.newest_first mine).
  exists (Store.sql_limit limit sorted).
  exists (if (limit <? 0)%Z then [] else skipn (Z.to_nat limit) sorted).
  assert (Permutation
            (Store.sql_limit limit sorted
             ++ (if (limit <? 0)%Z then [] else skipn (Z.to_nat limit) sorted)) mine)
    as Hperm.
  { unfold Store.sql_limit. destruct (limit <? 0)%Z.
    - rewrite app_nil_r. apply newest_first_perm.
    - rewrite firstn_skipn. apply newest_first_perm. }
  split; [|split; [exact Hperm|split; [|split; [|split; [|split]]]]].
  - unfold Store.get_reading_history, bind.
    rewrite store_query_available by exact Hav.
    cbn [Store.sqlite_exec Store.next_call Store.reading_history].
    unfold DB.bind_int. rewrite Hu, Hl. cbn [Store.and_then].
    fold mine. fold sorted.
    destruct (Store.sql_limit limit sorted) as [|r rs] eqn:Hrs; [reflexivity|].
    cbn [map].
    change ([Store.h_article_url r; Store.h_title r; Store.h_category r;
             PInt (Store.h_read_timestamp r)]
            :: map (fun r0 => [Store.h_article_url r0; Store.h_title r0;
                               Store.h_category r0; PInt (Store.h_read_timestamp r0)]) rs)
      with (map (fun r0 => [Store.h_article_url r0; Store.h_title r0;
                            Store.h_category r0; PInt (Store.h_read_timestamp r0)])
                (r :: rs)).
    now rewrite history_entries_records.
  - intros r Hin.
    assert (In r mine) as Hm.
    { apply (Permutation_in _ Hperm). apply in_or_app. now left. }
    apply filter_In in Hm. destruct Hm as [Hm Hid]. split; [exact Hm|].
    now apply Z.eqb_eq.
  - unfold Store.sql_limit. destruct (limit <? 0)%Z;
      [apply newest_first_sorted | apply firstn_strongly_sorted, newest_first_sorted].
  - unfold Store.sql_limit. destruct (limit <? 0)%Z; [intros r r' _ []|].
    intros r r' Hr Hr'.
    apply (@sorted_firstn_skipn _ _ (Z.to_nat limit) _ _ _ (newest_first_sorted mine) Hr Hr').
  - intros Hpos. unfold Store.sql_limit.
    destruct (Z.ltb_spec limit 0); [lia|].
    rewrite length_firstn. unfold sorted. now rewrite newest_first_length.
  - intros Hneg. destruct (Z.ltb_spec limit 0); [reflexivity | lia].
Qed.

End HistoryFacts.

(** ** The persistence store: cached articles *)

Section ArticleCacheFacts.
Implicit Types (st : Store.state).

Lemma no_other_row_for url now rows :
  filter (fun r => (Store.ca_url r =? url) && (now - Store.day <? Store.ca_cached_at r)%Z)%bool
         (filter (fun r => negb (Store.ca_url r =? url)) rows) = [].
Proof.
  induction rows as [|r rows IH]; [reflexivity|].
  simpl. destruct (Store.ca_url r =? url) eqn:Hu; simpl; [exact IH|].
  now rewrite Hu.
Qed.

(** X23. An article cached with [cache_article] (title, content, summary
    and sentiment being text or None) is returned by [get_cached_article]
    for the next 24 hours, with the values given and the time of caching,
    whatever was cached under that URL before; from 24 hours on
    [get_cached_article] returns None. *)
Theorem cached_article_round_trip url data now now' st :
  hd false (Store.faults st) = false ->
  hd false (tl (Store.faults st)) = false ->
  let t := dict_get_default "title" PNone data in
  let c := dict_get_default "content" PNone data in
  let s := dict_get_default "summary" PNone data in
  let e := dict_get_default "sentiment" PNone data in
  text_or_none t -> text_or_none c -> text_or_none s -> text_or_none e ->
  let st1 := snd (Store.cache_article url data now st) in
  fst (Store.cache_article url data now st) = Ok true
  /\ ((now' < now + Store.day)%Z ->
      fst (Store.get_cached_article url now' st1)
      = Ok (PDict [("title", t); ("content", c); ("summary", s);
                   ("sentiment", e); ("cached_at", PInt now)]))
  /\ ((now + Store.day <= now')%Z ->
      fst (Store.get_cached_article url now' st1) = Ok PNone).
Proof.
  intros H1 H2 t c s e Ht Hc Hs He st1.
  assert (Store.cache_article url data now st
          = (Ok true,
             Store.State (Store.user_preferences st) (Store.reading_history st)
                         (filter (fun r => negb (Store.ca_url r =? url))
                                 (Store.article_cache st)
                          ++ [Store.Cached url t c s e now])
                         (tl (Store.faults st)))) as Hrun.
  { unfold Store.cache_article, try_except, bind.
    rewrite store_query_available by exact H1.
    cbn [Store.sqlite_exec]. fold t c s e.
    rewrite (sql_value_text Ht), (sql_value_text Hc), (sql_value_text Hs),
      (sql_value_text He).
    reflexivity. }
  subst st1. rewrite Hrun. simpl fst. simpl snd. split; [reflexivity|].
  assert (forall b,
             (now' - Store.day <? now)%Z = b ->
             fst (Store.get_cached_article url now'
                    (Store.State (Store.user_preferences st) (Store.reading_history st)
                                 (filter (fun r => negb (Store.ca_url r =? url))
                                         (Store.article_cache st)
                                  ++ [Store.Cached url t c s e now])
                                 (tl (Store.faults st))))
             = if b then Ok (PDict [("title", t); ("content", c); ("summary", s);
                                    ("sentiment", e); ("cached_at", PInt now)])
               else Ok PNone) as Hget.
  { intros b Hb. unfold Store.get_cached_article, bind.
    rewrite store_query_available by exact H2.
    cbn [Store.sqlite_exec Store.next_call Store.article_cache].
    rewrite filter_app, no_other_row_for. simpl.
    rewrite String.eqb_refl, Hb. now destruct b. }
  split; intros Hlt.
  - apply (Hget true). apply Z.ltb_lt. lia.
  - apply (Hget false). apply Z.ltb_ge. lia.
Qed.

Lemma cleanup_run now st :
  hd false (Store.faults st) = false ->
  Store.cleanup_old_cache now st
  = (Ok tt,
     Store.State (Store.user_preferences st) (Store.reading_history st)
                 (filter (fun r => negb (Store.ca_cached_at r <? now - Store.day)%Z)
                         (Store.article_cache st))
                 (tl (Store.faults st))).
Proof.
  intros Hav. unfold Store.cleanup_old_cache, bind.
  now rewrite store_query_available by exact Hav.
Qed.

Lemma filter_filter_implied (A : Type) (f g : A -> bool) (l : list A) :
  (forall x, f x = true -> g x = true) -> filter f (filter g l) = filter f l.
Proof.
  intros Himp. induction l as [|x l IH]; [reflexivity|].
  simpl. destruct (g x) eqn:Hg; simpl.
  - now rewrite IH.
  - destruct (f x) eqn:Hf; [|exact IH]. apply Himp in Hf. congruence.
Qed.

Lemma get_cached_article_value url now st :
  hd false (Store.faults st) = false ->
  fst (Store.get_cached_article url now st)
  = Ok (cached_record
          (filter (fun r => (Store.ca_url r =? url)
                            && (now - Store.day <? Store.ca_cached_at r)%Z)%bool
                  (Store.article_cache st))).
Proof.
  intros Hav. unfold Store.get_cached_article, bind.
  rewrite store_query_available by exact Hav.
  cbn [Store.sqlite_exec Store.next_call Store.article_cache].
  now destruct (filter _ (Store.article_cache st)).
Qed.

(** X24. [cleanup_old_cache] removes only what [get_cached_article] no
    longer returns: after a cleanup every remaining row is at most 24
    hours old, and for every URL [get_cached_article], asked at the time
    of the cleanup or later, returns what it would have returned without
    the cleanup. *)
Theorem cleanup_keeps_live_articles url now now' st :
  hd false (Store.faults st) = false ->
  hd false (tl (Store.faults st)) = false ->
  (now <= now')%Z ->
  let st1 := snd (Store.cleanup_old_cache now st) in
  fst (Store.cleanup_old_cache now st) = Ok tt
  /\ (forall r, In r (Store.article_cache st1) ->
        In r (Store.article_cache st) /\ (now - Store.day <= Store.ca_cached_at r)%Z)
  /\ fst (Store.get_cached_article url now' st1)
     = fst (Store.get_cached_article url now' st).
Proof.
  intros H1 H2 Hle st1. subst st1. rewrite (cleanup_run now st H1).
  simpl fst. simpl snd. split; [reflexivity|]. split.
  - intros r Hin. apply filter_In in Hin. destruct Hin as [Hin Hold].
    split; [exact Hin|]. apply negb_true_iff, Z.ltb_ge in Hold. exact Hold.
  - rewrite get_cached_article_value by exact H2.
    rewrite (get_cached_article_value url now' st H1).
    cbn [Store.article_cache].
    rewrite filter_filter_implied; [reflexivity|].
    intros r Hr. apply andb_true_iff in Hr. destruct Hr as [_ Hr].
    apply Z.ltb_lt in Hr. apply negb_true_iff, Z.ltb_ge. lia.
Qed.

End ArticleCacheFacts.

(** ** Construction of the client *)

Section ConstructionFacts.
Variable E : API.env.

(** X25. A client that [NewsAPIClient] constructs has a key that is not
    empty, the one given when one is given and the configured one
    otherwise, and the configured base URL; construction fails exactly
    when neither key is there.  Every request [get_top_headlines] sends
    for such a client carries that key. *)
Theorem client_has_a_key cfg api_key :
  (forall self, NewsAPIClient cfg api_key = Some self ->
     API.api_key self <> ""
     /\ API.base_url self = BASE_URL cfg
     /\ (API.given api_key = true -> api_key = Some (API.api_key self))
     /\ (API.given api_key = false -> NEWS_API_KEY cfg = Some (API.api_key self))
     /\ forall country category q page_size page now st r,
          In r (API.requests
                  (snd (API.get_top_headlines E self country category q
                          page_size page now st))) ->
          In r (API.requests st)
          \/ exists k, k <> "" /\ dict_get "apiKey" (API.params r) = Some (PStr k))
  /\ (NewsAPIClient cfg api_key = None <->
      API.given api_key = false /\ API.given (NEWS_API_KEY cfg) = false).
Proof.
  unfold NewsAPIClient. split.
  - intros self Hc.
    assert (API.api_key self <> ""
            /\ API.base_url self = BASE_URL cfg
            /\ (API.given api_key = true -> api_key = Some (API.api_key self))
            /\ (API.given api_key = false -> NEWS_API_KEY cfg = Some (API.api_key self)))
      as (Hk & Hb & Hg & Hn).
    { destruct (API.given api_key) eqn:Hga.
      - rewrite Hga in Hc. destruct api_key as [k|]; [|discriminate].
        injection Hc as <-. simpl in *. apply negb_true_iff in Hga.
        apply String.eqb_neq in Hga. repeat split; auto; discriminate.
      - destruct (API.given (NEWS_API_KEY cfg)) eqn:Hgc; [|discriminate].
        destruct (NEWS_API_KEY cfg) as [k|]; [|discriminate].
        injection Hc as <-. simpl in *. apply negb_true_iff in Hgc.
        apply String.eqb_neq in Hgc. repeat split; auto; discriminate. }
    repeat split; auto.
    intros country category q page_size page now st r.
    unfold API.get_top_headlines.
    destruct (then_articles_frame E
                (API._make_request E self ""
                   (API.top_headlines_params country category q page_size page) now)
                now st) as (_ & _ & ->).
    intros Hin. apply make_request_sends in Hin. destruct Hin as [Hin|[_ Hkey]];
      [now left | right; eauto].
  - destruct (API.given api_key) eqn:Hga.
    + rewrite Hga. destruct api_key as [k|]; [|discriminate].
      split; [discriminate | intros [? _]; discriminate].
    + destruct (API.given (NEWS_API_KEY cfg)) eqn:Hgc; [|tauto].
      destruct (NEWS_API_KEY cfg) as [k|]; [|discriminate].
      split; [discriminate | intros [_ ?]; discriminate].
Qed.

End ConstructionFacts.


(** ** The annotator with its timer *)

Section TimedFacts.
Variable E : NLP.env.
Implicit Types (w : Timed.state) (st : NLP.state) (k t : string)
         (l : TTLCache.link pyval).

Lemma reading_later w : (Timed.time w <= Timed.next_reading w)%Z.
Proof. unfold Timed.next_reading. lia. Qed.

(** What a guarded operation does, by the two readings it takes. *)
Lemma guarded_run (A : Type) k c (outcome : option A) value default w :
  guarded k c outcome value default w
  = let w1 := Timed.after_reading w in
    let w2 := Timed.after_reading w1 in
    let st := Timed.annotator w in
    if TTLCache.contains k (Timed.time w1) (NLP.cache st) then
      (match fst (TTLCache.get k (Timed.time w2) (NLP.cache st)) with
       | Some v => Ok v
       | None => Raise KeyError
       end,
       Timed.State (NLP.State (snd (TTLCache.get k (Timed.time w2) (NLP.cache st)))
                              (NLP.calls st))
                   (Timed.time w2) (Timed.delays w2))
    else
      match outcome with
      | Some a =>
          (Ok (value a),
           Timed.State (NLP.stored k (value a) (Timed.time w2) (NLP.logged c st))
                       (Timed.time w2) (Timed.delays w2))
      | None =>
          (Ok default,
           Timed.State (NLP.logged c st) (Timed.time w1) (Timed.delays w1))
      end.
Proof.
  unfold guarded, bind, Timed.cache_contains, Timed.cache_getitem, Timed.cache_setitem,
    Timed.external, Timed.timer, bind, Timed.on_annotator, try_except,
    Timed.after_reading.
  cbv zeta. cbn [fst snd Timed.annotator Timed.time Timed.delays].
  destruct (TTLCache.contains k (Timed.next_reading w) (NLP.cache (Timed.annotator w))).
  - rewrite looked_up_eq. cbn [fst snd Timed.annotator Timed.time Timed.delays].
    match goal with
    | |- context [fst (TTLCache.get ?a ?b ?c)] => destruct (fst (TTLCache.get a b c))
    end; reflexivity.
  - destruct outcome as [a|]; reflexivity.
Qed.

Lemma analyze_sentiment_guarded t :
  t <> "" ->
  Timed.analyze_sentiment E (Some t)
  = guarded (NLP.sentiment_key E t) (NLP.CallTextBlob t) (NLP.polarity E t)
            (fun p => PStr (NLP.label_of p)) (PStr "neutral").
Proof. destruct t; [congruence | reflexivity]. Qed.

Lemma extract_keywords_guarded t top_n :
  t <> "" ->
  Timed.extract_keywords E (Some t) top_n
  = guarded (NLP.keywords_key E t) (NLP.CallSpacy t) (NLP.nlp E t)
            (fun d => PList (map NLP.keyword_val
                                 (NLP.most_common top_n (NLP.Counter (NLP.keywords_of d)))))
            (PList []).
Proof. destruct t; [congruence | reflexivity]. Qed.

Lemma get_named_entities_guarded t :
  t <> "" ->
  Timed.get_named_entities E (Some t)
  = guarded (NLP.ner_key E t) (NLP.CallSpacy t) (NLP.nlp E t)
            (fun d => PList (map NLP.entity_val (NLP.ents d))) (PList []).
Proof. destruct t; [congruence | reflexivity]. Qed.

Lemma summarize_article_guarded url :
  Timed.summarize_article E url
  = guarded (NLP.summary_key E url) (NLP.CallNewspaper url) (NLP.summary E url)
            PStr PNone.
Proof. reflexivity. Qed.

Lemma translate_text_guarded t target_lang :
  t <> "" -> target_lang <> "en" ->
  Timed.translate_text E (Some t) target_lang
  = guarded (NLP.trans_key E t target_lang) (NLP.CallTranslator t target_lang)
            (NLP.translate E t target_lang) PStr (PStr t).
Proof.
  intros Ht Hl. destruct t; [congruence|]. unfold Timed.translate_text.
  destruct (String.eqb_spec target_lang "en"); [contradiction | reflexivity].
Qed.

Lemma contains_found k now (c : TTLCache.t pyval) l :
  find (TTLCache.has_key k) (TTLCache.links c) = Some l ->
  TTLCache.contains k now c = TTLCache.fresh now l.
Proof. intros H. unfold TTLCache.contains. now rewrite H. Qed.

Lemma get_found k now (c : TTLCache.t pyval) l :
  find (TTLCache.has_key k) (TTLCache.links c) = Some l ->
  fst (TTLCache.get k now c)
  = if TTLCache.fresh now l then Some (TTLCache.value l) else None.
Proof.
  intros H. unfold TTLCache.get. rewrite H. now destruct (TTLCache.fresh now l).
Qed.

Lemma contains_after_put k v now now' (c : TTLCache.t pyval) :
  TTLCache.contains k now' (TTLCache.put k v now c)
  = (now' <? now + TTLCache.ttl c)%Z.
Proof. unfold TTLCache.contains. now rewrite find_put. Qed.

Lemma contains_uncached k now (c : TTLCache.t pyval) :
  uncached k c -> TTLCache.contains k now c = false.
Proof. intros H. unfold TTLCache.contains. now rewrite H. Qed.

(** Keys of texts with the same [hash] are the same key. *)
Lemma sentiment_key_hash t t' :
  NLP.hash E t' = NLP.hash E t -> NLP.sentiment_key E t' = NLP.sentiment_key E t.
Proof. intros H. unfold NLP.sentiment_key. now rewrite H. Qed.

Lemma copies_inj n : forall m, copies n = copies m -> n = m.
Proof.
  induction n as [|n IH]; intros [|m] H; try discriminate; [reflexivity|].
  injection H as H. f_equal. now apply IH.
Qed.

(** There are more texts than 64-bit integers: no [hash] keeps all texts
    apart. *)
Lemma no_hash_is_collision_free : hash_64bit E -> ~ collision_free E.
Proof.
  intros Hb Hcf.
  set (n64 := Z.to_nat (2 ^ 64)).
  set (g := fun n => NLP.hash E (copies n)).
  assert (NoDup (map g (seq 0 (S n64)))) as Hnd.
  { apply NoDup_map_NoDup_ForallPairs; [|apply seq_NoDup].
    intros x y _ _ Hxy. apply Hcf in Hxy. now apply copies_inj. }
  assert (incl (map g (seq 0 (S n64)))
               (map (fun i => (Z.of_nat i - 2 ^ 63)%Z) (seq 0 n64))) as Hincl.
  { intros z Hz. apply in_map_iff in Hz. destruct Hz as (n & <- & _).
    pose proof (Hb (copies n)) as Hn. fold (g n) in Hn.
    apply in_map_iff. exists (Z.to_nat (g n + 2 ^ 63)). split; [lia|].
    apply in_seq. unfold n64. lia. }
  pose proof (NoDup_incl_length Hnd Hincl) as Hlen.
  rewrite !length_map, !length_seq in Hlen. lia.
Qed.

(** C1. [analyze_sentiment] does not always return the label the
    thresholds give the polarity of its text: the lookup [cache[cache_key]]
    stands outside the [try] block, and the key is built from [hash(text)]
    alone.  When the entry of the key is live at the membership test and
    has expired at the subscript, the call raises KeyError.  And after the
    analysis of a text, the analysis of any other text with the same
    [hash], made before the entry expires, returns the label of the first
    text without asking the scorer. *)
Theorem analyze_sentiment_unguarded_lookup t w :
  t <> "" ->
  let k := NLP.sentiment_key E t in
  let c := NLP.cache (Timed.annotator w) in
  (forall l,
      find (TTLCache.has_key k) (TTLCache.links c) = Some l ->
      (Timed.reading 0 w < TTLCache.expires l <= Timed.reading 1 w)%Z ->
      fst (Timed.analyze_sentiment E (Some t) w) = Raise KeyError)
  /\ (forall t' p,
        t' <> "" -> NLP.hash E t' = NLP.hash E t ->
        NLP.polarity E t = Some p ->
        TTLCache.contains k (Timed.reading 0 w) c = false ->
        (Timed.reading 3 w < Timed.reading 1 w + TTLCache.ttl c)%Z ->
        let w1 := snd (Timed.analyze_sentiment E (Some t) w) in
        let r := Timed.analyze_sentiment E (Some t') w1 in
        fst r = Ok (PStr (NLP.label_of p))
        /\ NLP.calls (Timed.annotator (snd r)) = NLP.calls (Timed.annotator w1)).
Proof.
  intros Ht k c. split.
  - intros l Hf [Hlive Hdead].
    rewrite (analyze_sentiment_guarded Ht), guarded_run. cbv zeta.
    fold k. cbn [Timed.time Timed.after_reading]. fold c.
    rewrite (@contains_found _ _ _ _ Hf), (@get_found _ _ _ _ Hf).
    unfold TTLCache.fresh. cbn [Timed.reading] in Hlive, Hdead.
    destruct (Z.ltb_spec (Timed.next_reading w) (TTLCache.expires l)); [|lia].
    destruct (Z.ltb_spec (Timed.next_reading (Timed.after_reading w))
                         (TTLCache.expires l)); [lia | reflexivity].
  - intros t' p Ht' Hh Hp Hmiss Hsoon w1 r. subst r w1.
    rewrite (analyze_sentiment_guarded Ht'), (@sentiment_key_hash t t' Hh). fold k.
    rewrite (analyze_sentiment_guarded Ht). fold k.
    rewrite (guarded_run k _ (NLP.polarity E t)). cbv zeta.
    cbn [Timed.time Timed.after_reading]. fold c.
    cbn [Timed.reading] in Hmiss. rewrite Hmiss, Hp. cbn [snd].
    rewrite guarded_run. cbv zeta.
    cbn [Timed.time Timed.after_reading Timed.annotator Timed.delays NLP.cache
         NLP.stored NLP.logged NLP.calls].
    rewrite contains_after_put, get_after_put. fold c.
    unfold Timed.reading, Timed.after_reading, Timed.next_reading in *.
    cbn [Timed.time Timed.delays Timed.annotator] in *.
    match goal with
    | |- context [(?a <? ?b)%Z] => destruct (Z.ltb_spec a b); [|lia]
    end.
    match goal with
    | |- context [(?a <? ?b)%Z] => destruct (Z.ltb_spec a b); [|lia]
    end.
    split; reflexivity.
Qed.

(** Where the entries of [cache] come from after a guarded operation. *)
Lemma guarded_links (A : Type) k c (outcome : option A) value default w l :
  In l (TTLCache.links
          (NLP.cache (Timed.annotator (snd (guarded k c outcome value default w))))) ->
  In l (TTLCache.links (NLP.cache (Timed.annotator w)))
  \/ exists a e, outcome = Some a /\ l = TTLCache.Link k (value a) e.
Proof.
  rewrite guarded_run. cbv zeta.
  destruct (TTLCache.contains k _ _); cbn [snd Timed.annotator NLP.cache].
  - intros H. left. eapply in_links_get; exact H.
  - destruct outcome as [a|]; cbn [snd Timed.annotator NLP.cache NLP.stored NLP.logged];
      intros H; [|now left].
    apply in_links_put in H. destruct H as [H|H]; [now left | right; eauto].
Qed.

Lemma guarded_labelled (A : Type) k c (outcome : option A) value default w :
  (String.prefix "sentiment_" k = true ->
   forall a, outcome = Some a -> is_label (value a)) ->
  sentiment_labelled (NLP.cache (Timed.annotator w)) ->
  sentiment_labelled
    (NLP.cache (Timed.annotator (snd (guarded k c outcome value default w)))).
Proof.
  intros Hk Hinv l Hl. apply guarded_links in Hl.
  destruct Hl as [Hl|(a & e & Ha & ->)]; [now apply Hinv|].
  cbn [TTLCache.key TTLCache.value]. intros Hp. now apply (Hk Hp a).
Qed.

Lemma timed_analyze_sentiment_labelled text w :
  sentiment_labelled (NLP.cache (Timed.annotator w)) ->
  sentiment_labelled (NLP.cache (Timed.annotator (snd (Timed.analyze_sentiment E text w)))).
Proof.
  intros Hinv. destruct text as [t|]; [|exact Hinv].
  destruct (string_dec t "") as [->|Ht]; [exact Hinv|].
  rewrite (analyze_sentiment_guarded Ht). apply guarded_labelled; [|exact Hinv].
  intros _ p _. apply label_of_is_label.
Qed.

Lemma timed_extract_keywords_labelled text top_n w :
  sentiment_labelled (NLP.cache (Timed.annotator w)) ->
  sentiment_labelled
    (NLP.cache (Timed.annotator (snd (Timed.extract_keywords E text top_n w)))).
Proof.
  intros Hinv. destruct text as [t|]; [|exact Hinv].
  destruct (string_dec t "") as [->|Ht]; [exact Hinv|].
  rewrite (extract_keywords_guarded top_n Ht). apply guarded_labelled; [|exact Hinv].
  discriminate.
Qed.

Lemma timed_get_named_entities_labelled text w :
  sentiment_labelled (NLP.cache (Timed.annotator w)) ->
  sentiment_labelled
    (NLP.cache (Timed.annotator (snd (Timed.get_named_entities E text w)))).
Proof.
  intros Hinv. destruct text as [t|]; [|exact Hinv].
  destruct (string_dec t "") as [->|Ht]; [exact Hinv|].
  rewrite (get_named_entities_guarded Ht). apply guarded_labelled; [|exact Hinv].
  discriminate.
Qed.

Lemma timed_summarize_article_labelled url w :
  sentiment_labelled (NLP.cache (Timed.annotator w)) ->
  sentiment_labelled (NLP.cache (Timed.annotator (snd (Timed.summarize_article E url w)))).
Proof.
  intros Hinv. rewrite summarize_article_guarded. apply guarded_labelled; [|exact Hinv].
  discriminate.
Qed.

Lemma timed_translate_text_labelled text target_lang w :
  sentiment_labelled (NLP.cache (Timed.annotator w)) ->
  sentiment_labelled
    (NLP.cache (Timed.annotator (snd (Timed.translate_text E text target_lang w)))).
Proof.
  intros Hinv. destruct text as [t|]; [|exact Hinv].
  destruct (string_dec t "") as [->|Ht]; [exact Hinv|].
  destruct (string_dec target_lang "en") as [->|Hl].
  - destruct t; exact Hinv.
  - rewrite (translate_text_guarded Ht Hl). apply guarded_labelled; [|exact Hinv].
    discriminate.
Qed.

Lemma timed_enrich_article_labelled article w :
  sentiment_labelled (NLP.cache (Timed.annotator w)) ->
  sentiment_labelled (NLP.cache (Timed.annotator (snd (Timed.enrich_article E article w)))).
Proof.
  intros Hinv. destruct article; try exact Hinv. unfold Timed.enrich_article.
  set (text := Timed.article_text E entries).
  pose proof (@timed_analyze_sentiment_labelled (Some text) w Hinv) as H1.
  destruct (Timed.analyze_sentiment E (Some text) w) as [[v1|e1] w1]; [|exact H1].
  cbn [snd] in H1.
  pose proof (@timed_extract_keywords_labelled (Some text) 5 w1 H1) as H2.
  destruct (Timed.extract_keywords E (Some text) 5 w1) as [[v2|e2] w2]; [|exact H2].
  cbn [snd] in H2.
  pose proof (@timed_get_named_entities_labelled (Some text) w2 H2) as H3.
  destruct (Timed.get_named_entities E (Some text) w2) as [[v3|e3] w3]; [|exact H3].
  cbn [snd] in H3. cbv zeta.
  destruct (truthy _); [|exact H3].
  match goal with
  | |- context [Timed.summarize_article E ?u w3] =>
      pose proof (@timed_summarize_article_labelled u w3 H3) as H4;
      destruct (Timed.summarize_article E u w3) as [[v4|e4] w4]; exact H4
  end.
Qed.

Lemma timed_enrich_each_labelled articles : forall w,
  sentiment_labelled (NLP.cache (Timed.annotator w)) ->
  sentiment_labelled (NLP.cache (Timed.annotator (snd (Timed.enrich_each E articles w)))).
Proof.
  induction articles as [|a rest IH]; intros w Hinv; [exact Hinv|].
  simpl. pose proof (@timed_enrich_article_labelled a w Hinv) as H1.
  destruct (Timed.enrich_article E a w) as [a' w1]. cbn [snd] in H1.
  specialize (IH w1 H1). destruct (Timed.enrich_each E rest w1) as [out w2].
  exact IH.
Qed.

(** Cached sentiment entries are labels in every state the annotator can
    reach, whatever the timer does. *)
Lemma labelled_timed_after cs (t0 : Z) ds :
  sentiment_labelled (NLP.cache (Timed.annotator (timed_after E cs t0 ds))).
Proof.
  unfold timed_after.
  enough (forall w, sentiment_labelled (NLP.cache (Timed.annotator w)) ->
            sentiment_labelled
              (NLP.cache (Timed.annotator (fold_left (timed_perform E) cs w)))) as H
      by (apply H; intros l []).
  induction cs as [|c cs IH]; intros w Hw; [exact Hw|].
  simpl. apply IH. destruct c; simpl.
  - now apply timed_analyze_sentiment_labelled.
  - now apply timed_extract_keywords_labelled.
  - now apply timed_summarize_article_labelled.
  - now apply timed_translate_text_labelled.
  - now apply timed_get_named_entities_labelled.
  - unfold Timed.enrich_articles. destruct (API.py_iter articles) as [l|]; [|exact Hw].
    pose proof (@timed_enrich_each_labelled l w Hw) as H.
    now destruct (Timed.enrich_each E l w).
Qed.

(** X14. However the annotator has been used before and whatever the
    timer does, [analyze_sentiment] either returns one of the three labels
    or raises KeyError, and it raises only when the entry of the text's
    key is live at the membership test and has expired at the subscript.
    For an empty or missing text it returns 'neutral' and nothing
    happens.  When the membership test fails it returns the label the
    thresholds give the polarity of the text ('positive' above the float
    0.1, 'negative' below -0.1, 'neutral' in between), and 'neutral' when
    the scorer fails. *)
Theorem analyze_sentiment_after_any_use cs (t0 : Z) ds text :
  let w := timed_after E cs t0 ds in
  let c := NLP.cache (Timed.annotator w) in
  let r := fst (Timed.analyze_sentiment E text w) in
  ((exists v, r = Ok v /\ is_label v) \/ r = Raise KeyError)
  /\ (r = Raise KeyError ->
      exists t l,
        text = Some t
        /\ find (TTLCache.has_key (NLP.sentiment_key E t)) (TTLCache.links c) = Some l
        /\ (Timed.reading 0 w < TTLCache.expires l <= Timed.reading 1 w)%Z)
  /\ (text = None \/ text = Some "" ->
      Timed.analyze_sentiment E text w = (Ok (PStr "neutral"), w))
  /\ (forall t, text = Some t -> t <> "" ->
      TTLCache.contains (NLP.sentiment_key E t) (Timed.reading 0 w) c = false ->
      r = Ok (PStr (match NLP.polarity E t with
                    | Some p => NLP.label_of p
                    | None => "neutral"
                    end))
      /\ forall p, NLP.polarity E t = Some p ->
           ((NLP.float_0_1 < p)%Q -> r = Ok (PStr "positive"))
           /\ ((p < - NLP.float_0_1)%Q -> r = Ok (PStr "negative"))
           /\ ((- NLP.float_0_1 <= p)%Q -> (p <= NLP.float_0_1)%Q ->
               r = Ok (PStr "neutral"))).
Proof.
  intros w c r.
  pose proof (labelled_timed_after cs t0 ds) as Hinv. fold w in Hinv. fold c in Hinv.
  assert (forall t, t <> "" ->
            fst (Timed.analyze_sentiment E (Some t) w)
            = if TTLCache.contains (NLP.sentiment_key E t) (Timed.reading 0 w) c
              then match fst (TTLCache.get (NLP.sentiment_key E t)
                                (Timed.reading 1 w) c) with
                   | Some v => Ok v
                   | None => Raise KeyError
                   end
              else Ok (PStr (match NLP.polarity E t with
                             | Some p => NLP.label_of p
                             | None => "neutral"
                             end))) as Hrun.
  { intros t Ht. rewrite (analyze_sentiment_guarded Ht), guarded_run. cbv zeta.
    cbn [Timed.reading Timed.time Timed.after_reading]. fold c.
    destruct (TTLCache.contains _ _ c); [reflexivity|].
    now destruct (NLP.polarity E t). }
  assert (is_label (PStr "neutral")) as Hneutral by (unfold is_label; auto).
  split; [|split; [|split]].
  - subst r.
    assert (forall x : Timed.state,
               (exists v, fst (Ok (PStr "neutral"), x) = Ok v /\ is_label v)
               \/ fst (Ok (PStr "neutral"), x) = Raise (A := pyval) KeyError) as Hskip.
    { intros x. left. exists (PStr "neutral"). split; [reflexivity | exact Hneutral]. }
    destruct text as [t|]; [|apply Hskip].
    destruct (string_dec t "") as [->|Ht]; [apply Hskip|].
    rewrite (Hrun t Ht).
    destruct (TTLCache.contains _ _ c).
    + destruct (fst (TTLCache.get _ _ c)) as [v|] eqn:Hget; [left|now right].
      exists v. split; [reflexivity|].
      apply get_hit in Hget. destruct Hget as (l & Hin & Hk & <-).
      apply (Hinv l Hin). rewrite Hk. unfold NLP.sentiment_key. simpl.
      now destruct (py_int_str _).
    + left. eexists. split; [reflexivity|].
      destruct (NLP.polarity E t); [apply label_of_is_label | exact Hneutral].
  - subst r. destruct text as [t|]; [|discriminate].
    destruct (string_dec t "") as [->|Ht]; [discriminate|].
    rewrite (Hrun t Ht). unfold TTLCache.contains, TTLCache.get.
    destruct (find _ (TTLCache.links c)) as [l|] eqn:Hf; [|discriminate].
    unfold TTLCache.fresh.
    destruct (Z.ltb_spec (Timed.reading 0 w) (TTLCache.expires l)); [|discriminate].
    destruct (Z.ltb_spec (Timed.reading 1 w) (TTLCache.expires l)); [discriminate|].
    intros _. exists t, l. repeat split; auto.
  - intros [->| ->]; reflexivity.
  - intros t -> Ht Hmiss. subst r. rewrite (Hrun t Ht), Hmiss. split; [reflexivity|].
    intros p ->. repeat split; intros.
    + now rewrite label_of_positive.
    + now rewrite label_of_negative.
    + now rewrite label_of_neutral.
Qed.

(** *** A timer that stands still

    When the timer does not advance while a call runs, every operation
    behaves as its counterpart in [NLP], which takes one reading. *)

Lemma guarded_one_reading (A : Type) k c (outcome : option A) value default w :
  Timed.delays w = [] ->
  let r := one_reading k c outcome value default (Timed.time w) (Timed.annotator w) in
  guarded k c outcome value default w
  = (Ok (fst r), Timed.State (snd r) (Timed.time w) []).
Proof.
  intros Hd. cbv zeta. rewrite guarded_run. cbv zeta.
  unfold Timed.after_reading, Timed.next_reading.
  cbn [Timed.time Timed.delays Timed.annotator]. rewrite Hd.
  cbn [hd tl Z.of_N]. rewrite !Z.add_0_r.
  unfold one_reading. rewrite looked_up_eq.
  destruct (Timed.annotator w) as [cache calls]. cbn [NLP.cache NLP.calls].
  unfold TTLCache.contains, TTLCache.get.
  destruct (find (TTLCache.has_key k) (TTLCache.links cache)) as [l|].
  - destruct (TTLCache.fresh (Timed.time w) l); [reflexivity|].
    now destruct outcome.
  - now destruct outcome.
Qed.

Lemma timer_standing_still w :
  Timed.delays w = [] ->
  let now := Timed.time w in
  let st := Timed.annotator w in
  let same (r : result pyval * Timed.state) (r' : pyval * NLP.state) :=
    r = (Ok (fst r'), Timed.State (snd r') now []) in
  (forall text,
      same (Timed.analyze_sentiment E text w) (NLP.analyze_sentiment E text now st))
  /\ (forall text top_n,
        same (Timed.extract_keywords E text top_n w)
             (NLP.extract_keywords E text top_n now st))
  /\ (forall url,
        same (Timed.summarize_article E url w) (NLP.summarize_article E url now st))
  /\ (forall text target_lang,
        same (Timed.translate_text E text target_lang w)
             (NLP.translate_text E text target_lang now st))
  /\ (forall text,
        same (Timed.get_named_entities E text w) (NLP.get_named_entities E text now st)).
Proof.
  intros Hd now st same. subst same now st.
  assert (w = Timed.State (Timed.annotator w) (Timed.time w) []) as Hw
      by (destruct w; simpl in *; now subst).
  repeat split.
  - intros [[|a t]|]; try (simpl; now rewrite <- Hw).
    rewrite analyze_sentiment_guarded by discriminate.
    now rewrite guarded_one_reading.
  - intros [[|a t]|] top_n; try (simpl; now rewrite <- Hw).
    rewrite extract_keywords_guarded by discriminate.
    now rewrite guarded_one_reading.
  - intros url. rewrite summarize_article_guarded. now rewrite guarded_one_reading.
  - intros [[|a t]|] target_lang; try (simpl; now rewrite <- Hw).
    destruct (String.eqb_spec target_lang "en") as [->|Hl].
    + simpl. now rewrite <- Hw.
    + rewrite translate_text_guarded by (discriminate || exact Hl).
      rewrite guarded_one_reading by exact Hd. cbv zeta.
      unfold NLP.translate_text.
      destruct (String.eqb_spec target_lang "en"); [contradiction | reflexivity].
  - intros [[|a t]|]; try (simpl; now rewrite <- Hw).
    rewrite get_named_entities_guarded by discriminate.
    now rewrite guarded_one_reading.
Qed.

(** *** Enrichment *)

Lemma article_text_nonempty (d : dict) : Timed.article_text E d <> "".
Proof.
  unfold Timed.article_text.
  destruct (NLP.py_format E (dict_get_default "title" (PStr "") d)); discriminate.
Qed.

(** A lookup of one key leaves the entries of the other keys where they
    are found. *)
Lemma find_after_get k k' now (c : TTLCache.t pyval) :
  k <> k' ->
  find (TTLCache.has_key k') (TTLCache.links (snd (TTLCache.get k now c)))
  = find (TTLCache.has_key k') (TTLCache.links c).
Proof.
  intros Hne. unfold TTLCache.get.
  destruct (find (TTLCache.has_key k) (TTLCache.links c)) as [l|] eqn:Hf;
    [|reflexivity].
  destruct (TTLCache.fresh now l); [|reflexivity].
  cbn [snd TTLCache.links].
  apply find_some in Hf. destruct Hf as [_ Hl].
  unfold TTLCache.has_key in Hl. apply String.eqb_eq in Hl.
  assert (forall x : TTLCache.link pyval,
             TTLCache.has_key k x = true -> TTLCache.has_key k' x = false) as Hother.
  { intros x Hx. unfold TTLCache.has_key in *. apply String.eqb_eq in Hx.
    apply String.eqb_neq. congruence. }
  induction (TTLCache.links c) as [|x xs IH]; simpl.
  - rewrite Hother; [reflexivity|]. unfold TTLCache.has_key. rewrite Hl.
    apply String.eqb_refl.
  - destruct (TTLCache.has_key k x) eqn:Hx; simpl.
    + rewrite (Hother x Hx). exact IH.
    + destruct (TTLCache.has_key k' x); [reflexivity | exact IH].
Qed.

Lemma uncached_put k k' v now (c : TTLCache.t pyval) :
  k <> k' -> uncached k' c -> uncached k' (TTLCache.put k v now c).
Proof.
  intros Hne Hun. unfold uncached in *.
  destruct (find _ (TTLCache.links (TTLCache.put k v now c))) as [l|] eqn:Hf;
    [exfalso|reflexivity].
  apply find_some in Hf. destruct Hf as [Hin Hk].
  apply in_links_put in Hin. destruct Hin as [Hin| ->].
  - pose proof (find_none _ _ Hun l Hin). congruence.
  - unfold TTLCache.has_key in Hk. cbn [TTLCache.key] in Hk.
    apply String.eqb_eq in Hk. congruence.
Qed.

(** A guarded operation whose entry expires between its two readings. *)
Lemma guarded_expired (A : Type) k c (outcome : option A) value default w l :
  find (TTLCache.has_key k) (TTLCache.links (NLP.cache (Timed.annotator w))) = Some l ->
  (Timed.reading 0 w < TTLCache.expires l <= Timed.reading 1 w)%Z ->
  fst (guarded k c outcome value default w) = Raise KeyError.
Proof.
  intros Hf [Hlive Hdead]. rewrite guarded_run. cbv zeta.
  cbn [Timed.time Timed.after_reading Timed.reading] in *.
  rewrite (@contains_found _ _ _ _ Hf), (@get_found _ _ _ _ Hf).
  unfold TTLCache.fresh.
  destruct (Z.ltb_spec (Timed.next_reading w) (TTLCache.expires l)); [|lia].
  destruct (Z.ltb_spec (Timed.next_reading (Timed.after_reading w))
                       (TTLCache.expires l)); [lia | reflexivity].
Qed.

(** A guarded operation whose entry is live at both readings. *)
Lemma guarded_hit (A : Type) k c (outcome : option A) value default w l :
  find (TTLCache.has_key k) (TTLCache.links (NLP.cache (Timed.annotator w))) = Some l ->
  (Timed.reading 1 w < TTLCache.expires l)%Z ->
  guarded k c outcome value default w
  = (Ok (TTLCache.value l),
     Timed.State
       (NLP.State (snd (TTLCache.get k (Timed.reading 1 w)
                          (NLP.cache (Timed.annotator w))))
                  (NLP.calls (Timed.annotator w)))
       (Timed.reading 1 w) (tl (tl (Timed.delays w)))).
Proof.
  intros Hf Hlive. rewrite guarded_run. cbv zeta.
  cbn [Timed.time Timed.after_reading Timed.reading Timed.delays] in *.
  rewrite (@contains_found _ _ _ _ Hf), (@get_found _ _ _ _ Hf).
  unfold TTLCache.fresh.
  pose proof (reading_later (Timed.after_reading w)) as Hlater.
  cbn [Timed.time Timed.after_reading] in Hlater.
  destruct (Z.ltb_spec (Timed.next_reading w) (TTLCache.expires l)); [|lia].
  destruct (Z.ltb_spec (Timed.next_reading (Timed.after_reading w))
                       (TTLCache.expires l)); [reflexivity | lia].
Qed.

(** A guarded operation on a key under which nothing is stored. *)
Lemma guarded_uncached (A : Type) k c (outcome : option A) value default w :
  uncached k (NLP.cache (Timed.annotator w)) ->
  let r := guarded k c outcome value default w in
  fst r = Ok (match outcome with Some a => value a | None => default end)
  /\ NLP.calls (Timed.annotator (snd r)) = (NLP.calls (Timed.annotator w) ++ [c])%list
  /\ forall k', k <> k' -> uncached k' (NLP.cache (Timed.annotator w)) ->
       uncached k' (NLP.cache (Timed.annotator (snd r))).
Proof.
  intros Hun r. subst r. rewrite guarded_run. cbv zeta.
  rewrite (contains_uncached _ Hun).
  destruct outcome as [a|]; cbn [fst snd Timed.annotator NLP.cache NLP.calls
                                  NLP.stored NLP.logged];
    repeat split; intros k' Hne Hun'; [now apply uncached_put | exact Hun'].
Qed.

(** A guarded operation downloads a page only if its external call does. *)
Lemma guarded_downloads (A : Type) k c (outcome : option A) value default w :
  downloads [c] = [] ->
  downloads (NLP.calls (Timed.annotator (snd (guarded k c outcome value default w))))
  = downloads (NLP.calls (Timed.annotator w)).
Proof.
  intros Hc. rewrite guarded_run. cbv zeta.
  destruct (TTLCache.contains k _ _); [reflexivity|].
  destruct outcome as [a|];
    cbn [snd Timed.annotator NLP.calls NLP.stored NLP.logged];
    rewrite downloads_app, Hc; apply app_nil_r.
Qed.

(** The keys of the four enrichments of an article are four keys. *)
Lemma keys_apart t t' (url : pyval) :
  NLP.sentiment_key E t <> NLP.keywords_key E t'
  /\ NLP.sentiment_key E t <> NLP.ner_key E t'
  /\ NLP.sentiment_key E t <> NLP.summary_key E url
  /\ NLP.keywords_key E t <> NLP.ner_key E t'
  /\ NLP.keywords_key E t <> NLP.summary_key E url
  /\ NLP.ner_key E t <> NLP.summary_key E url.
Proof.
  unfold NLP.sentiment_key, NLP.keywords_key, NLP.ner_key, NLP.summary_key.
  repeat split; simpl; discriminate.
Qed.

(** C3. [enrich_articles] does not always pass an article whose enrichment
    fails through unchanged, nor give every article with a title a
    sentiment.  The lookups of the annotator stand outside its [try]
    blocks and the loop changes the article in place before its handler
    appends it.  When the sentiment entry of the article's text expires
    between the membership test and the subscript, the KeyError ends the
    enrichment and the article comes back as it was, without a sentiment.
    When the sentiment is served from the cache and it is the keywords
    entry that expires, the article comes back with the sentiment set and
    nothing else: neither unchanged nor enriched. *)
Theorem enrich_articles_failure_after_first_field d w :
  let text := Timed.article_text E d in
  let c := NLP.cache (Timed.annotator w) in
  (forall l,
      find (TTLCache.has_key (NLP.sentiment_key E text)) (TTLCache.links c) = Some l ->
      (Timed.reading 0 w < TTLCache.expires l <= Timed.reading 1 w)%Z ->
      fst (Timed.enrich_articles E (PList [PDict d]) w) = Ok [PDict d])
  /\ (forall ls lk,
        find (TTLCache.has_key (NLP.sentiment_key E text)) (TTLCache.links c) = Some ls ->
        find (TTLCache.has_key (NLP.keywords_key E text)) (TTLCache.links c) = Some lk ->
        (Timed.reading 1 w < TTLCache.expires ls)%Z ->
        (Timed.reading 2 w < TTLCache.expires lk <= Timed.reading 3 w)%Z ->
        fst (Timed.enrich_articles E (PList [PDict d]) w)
        = Ok [PDict (dict_set "sentiment" (TTLCache.value ls) d)]).
Proof.
  intros text c.
  pose proof (article_text_nonempty d) as Htext. fold text in Htext.
  unfold Timed.enrich_articles. cbn [API.py_iter Timed.enrich_each].
  unfold Timed.enrich_article. fold text.
  rewrite (analyze_sentiment_guarded Htext). split.
  - intros l Hf Hexp.
    pose proof (@guarded_expired _ _ (NLP.CallTextBlob text) (NLP.polarity E text)
                  (fun p => PStr (NLP.label_of p)) (PStr "neutral") w l Hf Hexp) as Hr.
    destruct (guarded _ _ _ _ _ w) as [[v|e] w1]; [discriminate | reflexivity].
  - intros ls lk Hfs Hfk Hlive Hexp.
    rewrite (@guarded_hit _ _ (NLP.CallTextBlob text) (NLP.polarity E text)
               (fun p => PStr (NLP.label_of p)) (PStr "neutral") w ls Hfs Hlive).
    rewrite (extract_keywords_guarded 5 Htext).
    match goal with
    | |- context [guarded ?k ?cl ?o ?v ?dflt ?w1] =>
        pose proof (@guarded_expired _ k cl o v dflt w1 lk) as Hr;
        destruct (guarded k cl o v dflt w1) as [[v2|e2] w2]
    end.
    + exfalso.
      assert (Ok v2 = Raise (A := pyval) KeyError) as Hc; [|discriminate].
      apply Hr.
      * cbn [Timed.annotator NLP.cache]. rewrite find_after_get; [exact Hfk|].
        apply keys_apart; exact PNone.
      * exact Hexp.
    + reflexivity.
Qed.

(** Whatever happens during its enrichment, an article keeps its own
    fields. *)
Lemma enrich_article_kept a w : kept a (fst (Timed.enrich_article E a w)).
Proof.
  destruct a as [| | | | | | |d]; try reflexivity.
  assert (forall d' : dict,
             (forall k, enrichment_field k = false -> dict_get k d' = dict_get k d) ->
             forall f v k, enrichment_field f = true -> enrichment_field k = false ->
               dict_get k (dict_set f v d') = dict_get k d) as Hset.
  { intros d' Hd' f v k Hf Hk. rewrite dict_get_set.
    destruct (String.eqb_spec k f) as [->|_]; [congruence | now apply Hd']. }
  assert (forall k, enrichment_field k = false -> dict_get k d = dict_get k d) as H0
      by reflexivity.
  unfold Timed.enrich_article, kept.
  destruct (Timed.analyze_sentiment E _ w) as [[v1|e1] w1];
    [|eexists; split; [reflexivity | exact H0]].
  pose proof (fun k => Hset d H0 "sentiment" v1 k eq_refl) as H1.
  destruct (Timed.extract_keywords E _ 5 w1) as [[v2|e2] w2];
    [|eexists; split; [reflexivity | exact H1]].
  pose proof (fun k => Hset _ H1 "keywords" v2 k eq_refl) as H2.
  destruct (Timed.get_named_entities E _ w2) as [[v3|e3] w3];
    [|eexists; split; [reflexivity | exact H2]].
  pose proof (fun k => Hset _ H2 "named_entities" v3 k eq_refl) as H3.
  cbv zeta. destruct (truthy _); [|eexists; split; [reflexivity | exact H3]].
  destruct (Timed.summarize_article E _ w3) as [[v4|e4] w4];
    [|eexists; split; [reflexivity | exact H3]].
  pose proof (fun k => Hset _ H3 "summary" v4 k eq_refl) as H4.
  eexists; split; [reflexivity | exact H4].
Qed.

(** X26. [enrich_articles] never drops an article and never raises on a
    list, whatever the cache holds and whatever the timer does: its
    result has one entry per input article, in order; an article that is
    not a dict is the entry itself; a dict comes back as a dict in which
    every field other than the four enrichment fields is as it came.  On
    an argument that cannot be iterated it raises TypeError. *)
Theorem enrich_articles_returns_every_article articles w :
  (forall items, API.py_iter articles = Some items ->
     exists out,
       fst (Timed.enrich_articles E articles w) = Ok out
       /\ List.length out = List.length items
       /\ Forall2 kept items out)
  /\ (API.py_iter articles = None ->
      fst (Timed.enrich_articles E articles w) = Raise TypeError).
Proof.
  unfold Timed.enrich_articles. split.
  - intros items ->.
    assert (forall w0, Forall2 kept items (fst (Timed.enrich_each E items w0))) as Hall.
    { induction items as [|a rest IH]; intros w0; simpl; [constructor|].
      pose proof (enrich_article_kept a w0) as Ha.
      destruct (Timed.enrich_article E a w0) as [a' w1].
      specialize (IH w1). destruct (Timed.enrich_each E rest w1) as [out w2].
      now constructor. }
    specialize (Hall w). destruct (Timed.enrich_each E items w) as [out w'].
    exists out. cbn [fst] in *. split; [reflexivity|]. split; [|exact Hall].
    symmetry. eapply Forall2_length; eauto.
  - now intros ->.
Qed.

(** X17. The enrichment of an article none of whose keys is in the cache
    is decided by the external services alone, whatever the timer does:
    the sentiment is the label of the polarity of the text made of title
    and description ('neutral' when the scorer fails), keywords and
    entities are those of that text (empty when the tokenizer fails), and
    the summary is written only when the article has a URL, with one
    download of that URL (None when the page cannot be summarised).
    Without a description the text is the title followed by a space.  And
    whatever the cache holds, an article without a URL causes no download
    and keeps the [summary] field it came with. *)
Theorem enrichment_of_an_unseen_article d w :
  let text := Timed.article_text E d in
  let url := dict_get_default "url" PNone d in
  let c := NLP.cache (Timed.annotator w) in
  let r := Timed.enrich_article E (PDict d) w in
  let sentiment := PStr (match NLP.polarity E text with
                         | Some p => NLP.label_of p
                         | None => "neutral"
                         end) in
  let keywords := match NLP.nlp E text with
                  | Some doc =>
                      PList (map NLP.keyword_val
                               (NLP.most_common 5 (NLP.Counter (NLP.keywords_of doc))))
                  | None => PList []
                  end in
  let entities := match NLP.nlp E text with
                  | Some doc => PList (map NLP.entity_val (NLP.ents doc))
                  | None => PList []
                  end in
  let d3 := dict_set "named_entities" entities
              (dict_set "keywords" keywords (dict_set "sentiment" sentiment d)) in
  (uncached (NLP.sentiment_key E text) c -> uncached (NLP.keywords_key E text) c ->
   uncached (NLP.ner_key E text) c -> uncached (NLP.summary_key E url) c ->
   (truthy url = false ->
    fst r = PDict d3
    /\ downloads (NLP.calls (Timed.annotator (snd r)))
       = downloads (NLP.calls (Timed.annotator w)))
   /\ (truthy url = true ->
       fst r = PDict (dict_set "summary"
                        (match NLP.summary E url with
                         | Some s => PStr s
                         | None => PNone
                         end) d3)
       /\ downloads (NLP.calls (Timed.annotator (snd r)))
          = (downloads (NLP.calls (Timed.annotator w)) ++ [NLP.CallNewspaper url])%list))
  /\ (dict_get "description" d = None ->
      text = NLP.py_format E (dict_get_default "title" (PStr "") d) ++ " ")
  /\ (truthy url = false ->
      exists d', fst r = PDict d'
        /\ dict_get "summary" d' = dict_get "summary" d
        /\ downloads (NLP.calls (Timed.annotator (snd r)))
           = downloads (NLP.calls (Timed.annotator w))).
Proof.
  intros text url c r sentiment keywords entities d3.
  pose proof (article_text_nonempty d) as Htext. fold text in Htext.
  assert (forall v1 v2 v3,
             dict_get_default "url" PNone
               (dict_set "named_entities" v3
                  (dict_set "keywords" v2 (dict_set "sentiment" v1 d))) = url) as Hurl.
  { intros v1 v2 v3. unfold url, dict_get_default. now rewrite !dict_get_set. }
  split; [|split].
  - intros Hs Hk Hn Hu.
    destruct (keys_apart text text url) as (K1 & K2 & K3 & K4 & K5 & K6).
    subst r. unfold Timed.enrich_article. fold text.
    rewrite (analyze_sentiment_guarded Htext).
    destruct (@guarded_uncached _ _ (NLP.CallTextBlob text) (NLP.polarity E text)
                (fun p => PStr (NLP.label_of p)) (PStr "neutral") w Hs)
      as (R1 & C1 & U1).
    destruct (guarded _ _ _ _ _ w) as [[v1|e1] w1]; [|discriminate].
    cbn [fst snd] in R1, C1, U1. injection R1 as ->.
    rewrite (extract_keywords_guarded 5 Htext).
    destruct (@guarded_uncached _ _ (NLP.CallSpacy text) (NLP.nlp E text)
                (fun doc => PList (map NLP.keyword_val
                                     (NLP.most_common 5
                                        (NLP.Counter (NLP.keywords_of doc)))))
                (PList []) w1 (U1 _ K1 Hk))
      as (R2 & C2 & U2).
    destruct (guarded _ _ _ _ _ w1) as [[v2|e2] w2]; [|discriminate].
    cbn [fst snd] in R2, C2, U2. injection R2 as ->.
    rewrite (get_named_entities_guarded Htext).
    destruct (@guarded_uncached _ _ (NLP.CallSpacy text) (NLP.nlp E text)
                (fun doc => PList (map NLP.entity_val (NLP.ents doc)))
                (PList []) w2 (U2 _ K4 (U1 _ K2 Hn)))
      as (R3 & C3 & U3).
    destruct (guarded _ _ _ _ _ w2) as [[v3|e3] w3]; [|discriminate].
    cbn [fst snd] in R3, C3, U3. injection R3 as ->.
    cbv zeta. rewrite Hurl.
    assert (downloads (NLP.calls (Timed.annotator w3))
            = downloads (NLP.calls (Timed.annotator w))) as Hd.
    { rewrite C3, C2, C1, !downloads_app. simpl. now rewrite !app_nil_r. }
    assert ((match NLP.polarity E text with
             | Some a => PStr (NLP.label_of a)
             | None => PStr "neutral"
             end) = sentiment) as -> by (unfold sentiment; now destruct (NLP.polarity E text)).
    assert ((match NLP.nlp E text with
             | Some a => PList (map NLP.keyword_val
                                  (NLP.most_common 5 (NLP.Counter (NLP.keywords_of a))))
             | None => PList []
             end) = keywords) as -> by reflexivity.
    assert ((match NLP.nlp E text with
             | Some a => PList (map NLP.entity_val (NLP.ents a))
             | None => PList []
             end) = entities) as -> by reflexivity.
    fold d3. split; intros Ht; rewrite Ht.
    + split; [reflexivity | exact Hd].
    + rewrite summarize_article_guarded.
      destruct (@guarded_uncached _ _ (NLP.CallNewspaper url) (NLP.summary E url)
                  PStr PNone w3 (U3 _ K6 (U2 _ K5 (U1 _ K3 Hu))))
        as (R4 & C4 & _).
      destruct (guarded _ _ _ _ _ w3) as [[v4|e4] w4]; [|discriminate].
      cbn [fst snd] in R4, C4 |- *. injection R4 as ->.
      split; [reflexivity|].
      rewrite C4, downloads_app, Hd. reflexivity.
  - intros Hnone. unfold text, Timed.article_text.
    unfold dict_get_default at 2. rewrite Hnone. cbn [NLP.py_format].
    now rewrite append_nil_r.
  - intros Ht. subst r. unfold Timed.enrich_article. fold text.
    assert (forall text0 w0,
               downloads (NLP.calls (Timed.annotator
                                       (snd (Timed.analyze_sentiment E text0 w0))))
               = downloads (NLP.calls (Timed.annotator w0))) as D1.
    { intros [t0|] w0; [|reflexivity].
      destruct (string_dec t0 "") as [->|Hne]; [reflexivity|].
      rewrite (analyze_sentiment_guarded Hne). apply guarded_downloads. reflexivity. }
    assert (forall text0 n w0,
               downloads (NLP.calls (Timed.annotator
                                       (snd (Timed.extract_keywords E text0 n w0))))
               = downloads (NLP.calls (Timed.annotator w0))) as D2.
    { intros [t0|] n w0; [|reflexivity].
      destruct (string_dec t0 "") as [->|Hne]; [reflexivity|].
      rewrite (extract_keywords_guarded n Hne). apply guarded_downloads. reflexivity. }
    assert (forall text0 w0,
               downloads (NLP.calls (Timed.annotator
                                       (snd (Timed.get_named_entities E text0 w0))))
               = downloads (NLP.calls (Timed.annotator w0))) as D3.
    { intros [t0|] w0; [|reflexivity].
      destruct (string_dec t0 "") as [->|Hne]; [reflexivity|].
      rewrite (get_named_entities_guarded Hne). apply guarded_downloads. reflexivity. }
    specialize (D1 (Some text) w).
    destruct (Timed.analyze_sentiment E (Some text) w) as [[v1|e1] w1]; cbn [fst snd] in *;
      [|eexists; split; [reflexivity|]; split; [reflexivity | exact D1]].
    specialize (D2 (Some text) 5%Z w1).
    destruct (Timed.extract_keywords E (Some text) 5 w1) as [[v2|e2] w2];
      cbn [fst snd] in *;
      [|eexists; split; [reflexivity|]; split;
        [now rewrite ?dict_get_set | congruence]].
    specialize (D3 (Some text) w2).
    destruct (Timed.get_named_entities E (Some text) w2) as [[v3|e3] w3];
      cbn [fst snd] in *;
      [|eexists; split; [reflexivity|]; split;
        [now rewrite ?dict_get_set | congruence]].
    cbv zeta. rewrite Hurl, Ht. cbn [fst snd].
    eexists; split; [reflexivity|]; split; [now rewrite ?dict_get_set | congruence].
Qed.

End TimedFacts.

(** ** What happens to external failures, operation by operation *)

Section FailureFacts.
Variable E : API.env.
Variable self : API.client.
Local Abbreviation N := (API.nlp_env E).







End FailureFacts.

(** ** Integers that SQLite cannot hold *)

Section OverflowFacts.
Implicit Types (st : Store.state).

Lemma store_query_tables q fetch now st :
  (forall e, fst (Store.execute_query q fetch now st) = Raise e ->
     Store.user_preferences (snd (Store.execute_query q fetch now st))
     = Store.user_preferences st
     /\ Store.reading_history (snd (Store.execute_query q fetch now st))
        = Store.reading_history st
     /\ Store.article_cache (snd (Store.execute_query q fetch now st))
        = Store.article_cache st).
Proof.
  intros e. unfold Store.execute_query.
  destruct (Store.faults st) as [|[|] rest]; simpl;
    try (destruct (Store.sqlite_exec q now (Store.next_call st)) as [e'|[rows st']];
         simpl; [|discriminate]);
    intros _; repeat split.
Qed.

(** X27. A user identifier outside the 64 bits of a SQLite integer cannot
    be bound to a statement: [sqlite3] raises OverflowError, which is no
    [sqlite3.Error].  [update_user_preferences] and [add_reading_history]
    absorb it and return False, no table changing, whatever else they are
    given; [get_user_preferences] and [get_reading_history], which have no
    handler, raise it when the database can be reached. *)
Theorem user_id_outside_64_bits uid now st :
  int64 uid = false ->
  (forall preferences,
      let r := Store.update_user_preferences uid preferences now st in
      fst r = Ok false
      /\ Store.user_preferences (snd r) = Store.user_preferences st
      /\ Store.reading_history (snd r) = Store.reading_history st
      /\ Store.article_cache (snd r) = Store.article_cache st)
  /\ (forall article_data,
        let r := Store.add_reading_history uid article_data now st in
        fst r = Ok false
        /\ Store.user_preferences (snd r) = Store.user_preferences st
        /\ Store.reading_history (snd r) = Store.reading_history st
        /\ Store.article_cache (snd r) = Store.article_cache st)
  /\ (hd false (Store.faults st) = false ->
      fst (Store.get_user_preferences uid now st) = Raise OverflowError
      /\ forall limit,
           fst (Store.get_reading_history uid limit now st) = Raise OverflowError).
Proof.
  intros Hu.
  assert (forall q,
             (forall st', exists e, Store.sqlite_exec q now st' = inl e) ->
             exists e, fst (Store.execute_query q false now st) = Raise e) as Hfails.
  { intros q Hq. unfold Store.execute_query.
    destruct (Hq (Store.next_call st)) as [e He].
    destruct (Store.faults st) as [|[|] rest]; rewrite ?He; simpl; eauto. }
  split; [|split].
  - intros preferences r. subst r.
    unfold Store.update_user_preferences, try_except, bind, Store.subscript,
      Store.py_join.
    destruct (dict_get "categories" preferences) as [c|]; simpl; [|now repeat split].
    destruct (API.py_iter c) as [cs|]; simpl; [|now repeat split].
    destruct (Store.strings_of cs) as [cats|]; simpl; [|now repeat split].
    destruct (dict_get "countries" preferences) as [k|]; simpl; [|now repeat split].
    destruct (API.py_iter k) as [ks|]; simpl; [|now repeat split].
    destruct (Store.strings_of ks) as [cos|]; simpl; [|now repeat split].
    destruct (dict_get "language" preferences) as [l|]; simpl; [|now repeat split].
    destruct (dict_get "sentiment" preferences) as [s|]; simpl; [|now repeat split].
    set (q := Store.UpdatePreferences _ _ l s uid).
    destruct (Hfails q) as [e He].
    { intros st'. unfold q. cbn [Store.sqlite_exec]. unfold DB.bind_int. rewrite Hu.
      destruct (Store.sql_value l); cbn [Store.and_then]; eauto.
      destruct (Store.sql_value s); cbn [Store.and_then]; eauto. }
    pose proof (@store_query_tables q false now st e He) as Htab.
    destruct (Store.execute_query q false now st) as [[v|e'] st1]; [discriminate|].
    exact (conj eq_refl Htab).
  - intros article_data r. subst r.
    unfold Store.add_reading_history, try_except, bind, Store.subscript.
    destruct (dict_get "url" article_data) as [url|]; simpl; [|now repeat split].
    set (q := Store.InsertHistory uid url _ _).
    destruct (Hfails q) as [e He].
    { intros st'. unfold q. cbn [Store.sqlite_exec]. unfold DB.bind_int. rewrite Hu.
      cbn [Store.and_then]. eauto. }
    pose proof (@store_query_tables q false now st e He) as Htab.
    destruct (Store.execute_query q false now st) as [[v|e'] st1]; [discriminate|].
    exact (conj eq_refl Htab).
  - intros Hdb. split; [|intros limit].
    + unfold Store.get_user_preferences, bind.
      rewrite store_query_available by exact Hdb.
      cbn [Store.sqlite_exec]. unfold DB.bind_int. now rewrite Hu.
    + unfold Store.get_reading_history, bind.
      rewrite store_query_available by exact Hdb.
      cbn [Store.sqlite_exec]. unfold DB.bind_int. now rewrite Hu.
Qed.

End OverflowFacts.

(** ** Instances of the further properties *)

Definition two_users : DB.state :=
  DB.State [DB.User 1 "alice" "pw" 0; DB.User 2 "bob" "pw" 1]
           [DB.Feedback 1 "https://news.example/a" (Some "Helpful") (Some 4) 2;
            DB.Feedback 2 "https://news.example/a" (Some "Not Helpful") None 3;
            DB.Feedback 2 "https://news.example/a" (Some "Helpful") (Some 5) 4;
            DB.Feedback 1 "https://news.example/b" None (Some 0) 5]
           [].

Lemma create_user_then_lookup_witness :
  fst (DB.get_user "carol" 9 (snd (DB.create_user "carol" "pw" 5 two_users)))
  = Ok (PDict [("id", PInt 3); ("username", PStr "carol"); ("created_at", PInt 5)])
  /\ fst (DB.verify_user "carol" "pw" 9 (snd (DB.create_user "carol" "pw" 5 two_users)))
     = Ok true.
Proof.
  pose proof (@create_user_then_lookup "carol" "pw" 5 9 two_users eq_refl eq_refl)
    as (_ & H2 & H3 & _).
  exact (conj H2 H3).
Defined.

Lemma two_users_distinct : users_distinct (DB.users two_users).
Proof.
  split; simpl; repeat constructor; simpl; intuition discriminate.
Qed.

Lemma users_stay_distinct_witness :
  users_distinct (DB.users two_users)
  /\ users_distinct (DB.users (snd (DB.create_user "carol" "pw" 5 two_users))).
Proof.
  split; [exact two_users_distinct|].
  exact (proj2 (@users_stay_distinct two_users two_users_distinct) "carol" "pw" 5).
Defined.

Lemma failed_or_reading_statement_changes_nothing_witness :
  DB.users (snd (DB.execute_query (DB.InsertUser "alice" "other") false 7 two_users))
  = DB.users two_users
  /\ DB.article_feedback
       (snd (DB.execute_query (DB.InsertUser "alice" "other") false 7 two_users))
     = DB.article_feedback two_users.
Proof.
  exact (proj1 (@failed_or_reading_statement_changes_nothing
                  (DB.InsertUser "alice" "other") false 7 two_users)
               (ex_intro _ IntegrityError eq_refl)).
Defined.

Lemma feedback_counts_witness :
  exists d,
    fst (DB.get_article_feedback "https://news.example/a" 9 two_users) = Ok (PDict d)
    /\ dict_get "total_feedback" d = Some (PInt 3)
    /\ dict_get "helpful_count" d = Some (PInt 2)
    /\ dict_get "not_helpful_count" d = Some (PInt 1).
Proof.
  destruct (@feedback_counts "https://news.example/a" 9 two_users eq_refl
              ltac:(discriminate)) as (d & H1 & H2 & H3 & H4 & _).
  exists d. repeat split; assumption.
Defined.

Definition rated_three_times : DB.state :=
  DB.State []
           [DB.Feedback 1 "https://news.example/c" None (Some 1) 2;
            DB.Feedback 2 "https://news.example/c" None (Some 1) 3;
            DB.Feedback 3 "https://news.example/c" None (Some 2) 4]
           [].

Lemma average_rating_reported_witness :
  exists d,
    fst (DB.get_article_feedback "https://news.example/c" 9 rated_three_times)
    = Ok (PDict d)
    /\ dict_get "average_rating" d
       = Some (PFloat (6004799503160661 # 4503599627370496)).
Proof.
  assert (forall r,
             In r (DB.ratings (filter (DB.about "https://news.example/c")
                                      (DB.article_feedback rated_three_times))) ->
             (0 <= r)%Z) as Hpos.
  { intros r [<-|[<-|[<-|[]]]]; discriminate. }
  destruct (@average_rating_reported "https://news.example/c" 9 rated_three_times
              eq_refl Hpos eq_refl) as (d & H1 & H2 & _).
  exists d. split; [exact H1 | exact H2].
Defined.

Lemma feedback_recorded_witness :
  fst (DB.add_article_feedback 1 "https://news.example/a" (Some "Helpful") None 8
         two_users) = Ok true
  /\ (exists d,
        fst (DB.get_article_feedback "https://news.example/a" 9
               (snd (DB.add_article_feedback 1 "https://news.example/a"
                       (Some "Helpful") None 8 two_users))) = Ok (PDict d)
        /\ dict_get "total_feedback" d = Some (PInt 4)
        /\ dict_get "helpful_count" d = Some (PInt 3))
  /\ fst (DB.add_article_feedback (2 ^ 63) "https://news.example/a" (Some "Helpful")
            None 8 two_users) = Ok false.
Proof.
  destruct (proj1 (@feedback_recorded 1 "https://news.example/a" (Some "Helpful") None
                     8 9 two_users eq_refl eq_refl) eq_refl)
    as (H1 & _ & d & H2 & H3 & H4).
  split; [exact H1|]. split.
  - exists d. split; [exact H2|]. split; [exact H3|]. exact (H4 eq_refl).
  - exact (proj1 (proj2 (@feedback_recorded (2 ^ 63) "https://news.example/a"
                           (Some "Helpful") None 8 9 two_users eq_refl eq_refl)
                        eq_refl)).
Defined.

Lemma requests_carry_the_key_witness :
  (List.length
     (API.requests
        (snd (API.get_top_headlines Sample.env Sample.client (Some "us") None None
                20 1 0 (API.init [API.Failed]))))
   <= 1)%nat.
Proof.
  exact (proj1 (proj1 (@requests_carry_the_key Sample.env Sample.client 0
                         (API.init [API.Failed]))
                      (Some "us") None None 20%Z 1%Z)).
Defined.

Lemma body_that_is_no_object_raises_witness :
  fst (API.get_top_headlines Sample.env Sample.client (Some "us") None None 20 1 0
         (API.init [API.Json (PList [])]))
  = Raise AttributeError.
Proof.
  exact (proj1 (@body_that_is_no_object_raises Sample.env Sample.client
                  (PList []) [] 0 (API.init [API.Json (PList [])]) eq_refl
                  (fun d => ltac:(discriminate)))
               (Some "us") None None 20%Z 1%Z eq_refl).
Defined.

Lemma unsuccessful_reply_not_cached_witness :
  let st := API.init [API.Json (PDict [("status", PStr "error");
                                       ("message", PStr "rate limited")])] in
  fst (API.get_top_headlines Sample.env Sample.client (Some "us") None None 20 1 0 st)
  = Ok []
  /\ API.news_cache
       (snd (API.get_top_headlines Sample.env Sample.client (Some "us") None None
               20 1 0 st))
     = API.news_cache st.
Proof.
  intros st.
  destruct (proj1 (@unsuccessful_reply_not_cached Sample.env Sample.client 0 st eq_refl)
              (Some "us") None None 20%Z 1%Z eq_refl) as (H1 & H2 & _).
  exact (conj H1 H2).
Defined.

Lemma headlines_by_body_witness :
  fst (API.get_top_headlines Sample.env Sample.client (Some "us") None None 20 1 0
         (API.init [API.Json (PDict [("status", PStr "ok"); ("articles", PNone)])]))
  = Raise TypeError
  /\ fst (API.get_top_headlines Sample.env Sample.client (Some "us") None None 20 1 0
            (API.init [API.Json (PDict [("status", PStr "ok")])]))
     = Ok [].
Proof.
  split.
  - exact (proj2 (proj2 (@headlines_by_body Sample.env Sample.client
                           (Some "us") None None 20 1 0
                           (API.init [API.Json (PDict [("status", PStr "ok");
                                                       ("articles", PNone)])])
                           [("status", PStr "ok"); ("articles", PNone)] []
                           eq_refl eq_refl eq_refl))
                 PNone eq_refl eq_refl).
  - exact (proj1 (@headlines_by_body Sample.env Sample.client
                    (Some "us") None None 20 1 0
                    (API.init [API.Json (PDict [("status", PStr "ok")])])
                    [("status", PStr "ok")] [] eq_refl eq_refl eq_refl)
                 eq_refl).
Defined.

Definition sources_body : dict :=
  [("status", PStr "ok");
   ("sources", PList [PDict [("id", PStr "bbc-news"); ("name", PStr "BBC News")]])].

Lemma get_sources_result_witness :
  fst (API.get_sources Sample.env Sample.client None "en" None 0
         (API.init [API.Json (PDict sources_body)]))
  = Ok (PList [PDict [("id", PStr "bbc-news"); ("name", PStr "BBC News")]]).
Proof.
  exact (proj2 (@get_sources_result Sample.env Sample.client None "en" None 0
                  (API.init [API.Json (PDict sources_body)]))
               sources_body [] eq_refl eq_refl eq_refl).
Defined.



Lemma translate_text_per_language_witness :
  let r1 := NLP.translate_text Sample.nlp_env (Some "good morning") "fr" 0 NLP.init in
  fst r1 = PStr "[fr] good morning"
  /\ fst (NLP.translate_text Sample.nlp_env (Some "good morning") "de" 1 (snd r1))
     = PStr "[de] good morning".
Proof.
  intros r1.
  destruct (proj2 (@translate_text_per_language Sample.nlp_env)
              "good morning" "fr" "de" "[fr] good morning" "[de] good morning"
              0%Z 1%Z NLP.init
              (@create_in_order pyval 100%positive 300%Z)
              ltac:(discriminate) ltac:(discriminate) ltac:(discriminate)
              ltac:(discriminate) eq_refl eq_refl eq_refl eq_refl)
    as (H1 & H2 & _).
  exact (conj H1 H2).
Defined.

Lemma extract_keywords_on_miss_witness :
  exists kws,
    fst (NLP.extract_keywords Sample.nlp_env (Some "apple banana apple cherry") 2 0
           NLP.init) = PList (map NLP.keyword_val kws)
    /\ (Z.of_nat (List.length kws) <= 2)%Z
    /\ StronglySorted by_count_desc kws.
Proof.
  destruct (@extract_keywords_on_miss Sample.nlp_env NLP.init
              "apple banana apple cherry" 2 0
              (NLP.Doc (map Sample.token_of
                          (Sample.words_from "" "apple banana apple cherry")) [])
              ltac:(discriminate) eq_refl eq_refl ltac:(discriminate))
    as (kws & H1 & H2 & _ & H4).
  exists kws. repeat split; assumption.
Defined.

Definition a_reader : Store.state :=
  Store.State [Store.Preferences 7 (PStr "") (PStr "") (PStr "en") PNone 0]
              [Store.History 7 (PStr "https://news.example/a") (PStr "A") PNone 10;
               Store.History 8 (PStr "https://news.example/b") (PStr "B") PNone 11;
               Store.History 7 (PStr "https://news.example/c") (PStr "C") PNone 12]
              [Store.Cached "https://news.example/old" (PStr "Old") PNone PNone PNone 0]
              [].

Definition some_preferences : dict :=
  [("categories", PList [PStr "business"; PStr "science"]);
   ("countries", PList [PStr "us"]);
   ("language", PStr "en"); ("sentiment", PNone)].

Lemma plain_items_sample :
  Forall plain_item ["business"; "science"] /\ Forall plain_item ["us"].
Proof. split; repeat constructor; discriminate. Qed.

Lemma preferences_round_trip_witness :
  fst (Store.get_user_preferences 7 2
         (snd (Store.update_user_preferences 7 some_preferences 1 a_reader)))
  = Ok (PDict [("categories", PList [PStr "business"; PStr "science"]);
               ("countries", PList [PStr "us"]);
               ("language", PStr "en"); ("sentiment", PNone)]).
Proof.
  exact (proj2 (@preferences_round_trip 7 some_preferences ["business"; "science"] ["us"]
                  (PStr "en") PNone 1 2 a_reader
                  eq_refl eq_refl eq_refl eq_refl eq_refl eq_refl eq_refl eq_refl
                  (or_intror (ex_intro _ "en" eq_refl)) (or_introl eq_refl)
                  (proj1 plain_items_sample) (proj2 plain_items_sample))).
Defined.

Lemma update_preferences_without_row_witness :
  fst (Store.update_user_preferences 9 some_preferences 1 a_reader) = Ok true
  /\ fst (Store.get_user_preferences 9 2
            (snd (Store.update_user_preferences 9 some_preferences 1 a_reader)))
     = Ok PNone.
Proof.
  destruct (@update_preferences_without_row 9 some_preferences
              ["business"; "science"] ["us"] (PStr "en") PNone
              1 2 a_reader
              eq_refl eq_refl eq_refl eq_refl eq_refl eq_refl eq_refl eq_refl
              (or_intror (ex_intro _ "en" eq_refl)) (or_introl eq_refl))
    as (H1 & _ & H3).
  exact (conj H1 H3).
Defined.

Lemma add_reading_history_without_url_witness :
  Store.add_reading_history 7 [("title", PStr "No link")] 20 a_reader
  = (Ok false, a_reader).
Proof.
  exact (proj2 (@add_reading_history_without_url 7 [("title", PStr "No link")] 20
                  a_reader) eq_refl).
Defined.

Lemma reading_history_listing_witness :
  exists rs rest : list Store.history_row,
    fst (Store.get_reading_history 7 1 20 a_reader) = Ok (PList (map history_record rs))
    /\ List.length rs = 1%nat
    /\ List.length rest = 1%nat.
Proof.
  destruct (@reading_history_listing 7 1 20 a_reader eq_refl eq_refl eq_refl)
    as (rs & rest & H1 & H2 & _ & _ & _ & H6 & _).
  exists rs, rest. split; [exact H1|].
  assert (List.length rs = 1%nat) as Hrs by (apply H6; discriminate).
  split; [exact Hrs|].
  apply Permutation_length in H2. rewrite length_app, Hrs in H2.
  simpl in H2. now injection H2.
Defined.

Lemma cached_article_round_trip_witness :
  let st1 := snd (Store.cache_article "https://news.example/a"
                    [("title", PStr "A"); ("summary", PStr "short")] 100 a_reader) in
  fst (Store.get_cached_article "https://news.example/a" 86499 st1)
  = Ok (PDict [("title", PStr "A"); ("content", PNone); ("summary", PStr "short");
               ("sentiment", PNone); ("cached_at", PInt 100)])
  /\ fst (Store.get_cached_article "https://news.example/a" 86500 st1) = Ok PNone.
Proof.
  intros st1. split.
  - exact (proj1 (proj2 (@cached_article_round_trip "https://news.example/a"
                           [("title", PStr "A"); ("summary", PStr "short")]
                           100 86499 a_reader eq_refl eq_refl
                           (or_intror (ex_intro _ "A" eq_refl)) (or_introl eq_refl)
                           (or_intror (ex_intro _ "short" eq_refl)) (or_introl eq_refl)))
                 eq_refl).
  - exact (proj2 (proj2 (@cached_article_round_trip "https://news.example/a"
                           [("title", PStr "A"); ("summary", PStr "short")]
                           100 86500 a_reader eq_refl eq_refl
                           (or_intror (ex_intro _ "A" eq_refl)) (or_introl eq_refl)
                           (or_intror (ex_intro _ "short" eq_refl)) (or_introl eq_refl)))
                 ltac:(discriminate)).
Defined.

Lemma cleanup_keeps_live_articles_witness :
  Store.article_cache (snd (Store.cleanup_old_cache 90000 a_reader)) = []
  /\ fst (Store.get_cached_article "https://news.example/old" 90000
            (snd (Store.cleanup_old_cache 90000 a_reader)))
     = fst (Store.get_cached_article "https://news.example/old" 90000 a_reader).
Proof.
  split; [reflexivity|].
  exact (proj2 (proj2 (@cleanup_keeps_live_articles "https://news.example/old"
                         90000 90000 a_reader eq_refl eq_refl ltac:(discriminate)))).
Defined.

Lemma client_has_a_key_witness :
  NewsAPIClient {| NEWS_API_KEY := Some "k3y"; BASE_URL := "https://news.example/v2" |}
                (Some "")
  = Some (API.Client "k3y" "https://news.example/v2")
  /\ API.api_key (API.Client "k3y" "https://news.example/v2") <> "".
Proof.
  split; [reflexivity|].
  exact (proj1 (proj1 (@client_has_a_key Sample.env
                         {| NEWS_API_KEY := Some "k3y";
                            BASE_URL := "https://news.example/v2" |} (Some ""))
                      (API.Client "k3y" "https://news.example/v2") eq_refl)).
Defined.

(** ** Instances for the annotator with its timer *)

Definition great_day : dict := [("title", PStr "a great day")].

Definition with_a_url : dict :=
  [("title", PStr "a great day"); ("url", PStr "https://news.example/a")].

(** The state after one enrichment of [great_day], begun at second 0. *)
Definition enriched_once (delays : list N) : Timed.state :=
  snd (Timed.enrich_articles Sample.nlp_env (PList [PDict great_day])
         (Timed.start 0 delays)).

(** The entry expires between the membership test at second 299 and the
    subscript at second 300; and a text with the hash of another gets the
    label of that other text. *)
Lemma analyze_sentiment_unguarded_lookup_witness :
  (let w := snd (Timed.analyze_sentiment Sample.nlp_env (Some "a great day")
                   (Timed.start 0 [0; 0; 299; 1]%N)) in
   fst (Timed.analyze_sentiment Sample.nlp_env (Some "a great day") w) = Raise KeyError)
  /\ (let w1 := snd (Timed.analyze_sentiment Sample.nlp_env (Some "awful: what a day")
                       (Timed.start 0 [])) in
      NLP.polarity Sample.nlp_env "great: what a day" = Some (8 # 10)
      /\ fst (Timed.analyze_sentiment Sample.nlp_env (Some "great: what a day") w1)
         = Ok (PStr "negative")).
Proof.
  split.
  - intros w.
    refine (proj1 (@analyze_sentiment_unguarded_lookup Sample.nlp_env "a great day" w _)
                  (TTLCache.Link (NLP.sentiment_key Sample.nlp_env "a great day")
                                 (PStr "positive") 300) _ _).
    + discriminate.
    + vm_compute. reflexivity.
    + vm_compute. split; [reflexivity | discriminate].
  - intros w1. split; [reflexivity|].
    refine (proj1 (proj2 (@analyze_sentiment_unguarded_lookup Sample.nlp_env
                            "awful: what a day" (Timed.start 0 []) _)
                         "great: what a day" (-7 # 10) _ _ _ _ _)).
    + discriminate.
    + discriminate.
    + vm_compute. reflexivity.
    + reflexivity.
    + vm_compute. reflexivity.
    + vm_compute. reflexivity.
Defined.

(** One enrichment at second 0 fills the cache; at the next one the
    sentiment entry, or the keywords entry, expires before its subscript. *)
Lemma enrich_articles_failure_after_first_field_witness :
  fst (Timed.enrich_articles Sample.nlp_env (PList [PDict great_day])
         (enriched_once [0; 0; 0; 0; 0; 0; 299; 1]%N))
  = Ok [PDict great_day]
  /\ fst (Timed.enrich_articles Sample.nlp_env (PList [PDict great_day])
            (enriched_once [0; 0; 0; 0; 0; 0; 299; 0; 0; 1]%N))
     = Ok [PDict [("title", PStr "a great day"); ("sentiment", PStr "positive")]].
Proof.
  split.
  - refine (proj1 (@enrich_articles_failure_after_first_field Sample.nlp_env great_day
                     (enriched_once [0; 0; 0; 0; 0; 0; 299; 1]%N))
                  (TTLCache.Link (NLP.sentiment_key Sample.nlp_env "a great day ")
                                 (PStr "positive") 300) _ _).
    + vm_compute. reflexivity.
    + vm_compute. split; [reflexivity | discriminate].
  - refine (proj2 (@enrich_articles_failure_after_first_field Sample.nlp_env great_day
                     (enriched_once [0; 0; 0; 0; 0; 0; 299; 0; 0; 1]%N))
                  (TTLCache.Link (NLP.sentiment_key Sample.nlp_env "a great day ")
                                 (PStr "positive") 300)
                  (TTLCache.Link (NLP.keywords_key Sample.nlp_env "a great day ")
                                 (PList [PTuple [PStr "great"; PInt 1];
                                         PTuple [PStr "day"; PInt 1]]) 300)
                  _ _ _ _).
    + vm_compute. reflexivity.
    + vm_compute. reflexivity.
    + vm_compute. reflexivity.
    + vm_compute. split; [reflexivity | discriminate].
Defined.

Lemma analyze_sentiment_after_any_use_witness :
  let w := timed_after Sample.nlp_env [DoAnalyze (Some "a great day")] 0 [] in
  fst (Timed.analyze_sentiment Sample.nlp_env (Some "awful news") w)
  = Ok (PStr "negative")
  /\ Timed.analyze_sentiment Sample.nlp_env (Some "") w = (Ok (PStr "neutral"), w).
Proof.
  intros w. split.
  - refine (proj1 (proj2 (proj2 (proj2 (proj2 (proj2
              (@analyze_sentiment_after_any_use Sample.nlp_env
                 [DoAnalyze (Some "a great day")] 0 [] (Some "awful news"))))
              "awful news" eq_refl _ _) (-7 # 10) _)) _).
    + discriminate.
    + vm_compute. reflexivity.
    + reflexivity.
    + vm_compute. reflexivity.
  - exact (proj1 (proj2 (proj2
             (@analyze_sentiment_after_any_use Sample.nlp_env
                [DoAnalyze (Some "a great day")] 0 [] (Some ""))))
             (or_intror eq_refl)).
Defined.

Lemma enrich_articles_returns_every_article_witness :
  (exists out,
      fst (Timed.enrich_articles Sample.nlp_env (PList [PDict great_day; PInt 1])
             (Timed.start 0 [])) = Ok out
      /\ List.length out = 2%nat)
  /\ fst (Timed.enrich_articles Sample.nlp_env (PInt 1) (Timed.start 0 []))
     = Raise TypeError.
Proof.
  split.
  - destruct (proj1 (@enrich_articles_returns_every_article Sample.nlp_env
                       (PList [PDict great_day; PInt 1]) (Timed.start 0 []))
                    [PDict great_day; PInt 1] eq_refl) as (out & H1 & H2 & _).
    exists out. split; assumption.
  - exact (proj2 (@enrich_articles_returns_every_article Sample.nlp_env
                    (PInt 1) (Timed.start 0 [])) eq_refl).
Defined.

Lemma enrichment_of_an_unseen_article_witness :
  (let r := Timed.enrich_article Sample.nlp_env (PDict with_a_url) (Timed.start 0 []) in
   fst r = PDict [("title", PStr "a great day");
                  ("url", PStr "https://news.example/a");
                  ("sentiment", PStr "positive");
                  ("keywords", PList [PTuple [PStr "great"; PInt 1];
                                      PTuple [PStr "day"; PInt 1]]);
                  ("named_entities", PList []);
                  ("summary", PStr "About https://news.example/a")]
   /\ downloads (NLP.calls (Timed.annotator (snd r)))
      = [NLP.CallNewspaper (PStr "https://news.example/a")])
  /\ (let r := Timed.enrich_article Sample.nlp_env (PDict great_day) (Timed.start 0 []) in
      fst r = PDict [("title", PStr "a great day"); ("sentiment", PStr "positive");
                     ("keywords", PList [PTuple [PStr "great"; PInt 1];
                                         PTuple [PStr "day"; PInt 1]]);
                     ("named_entities", PList [])]
      /\ downloads (NLP.calls (Timed.annotator (snd r))) = []).
Proof.
  split.
  - pose proof (proj2 (proj1 (@enrichment_of_an_unseen_article Sample.nlp_env with_a_url
                                (Timed.start 0 []))
                             eq_refl eq_refl eq_refl eq_refl) eq_refl) as H.
    vm_compute in H. vm_compute. exact H.
  - pose proof (proj1 (proj1 (@enrichment_of_an_unseen_article Sample.nlp_env great_day
                                (Timed.start 0 []))
                             eq_refl eq_refl eq_refl eq_refl) eq_refl) as H.
    vm_compute in H. vm_compute. exact H.
Defined.

(** ** Instances for the failure policy and the similarity of texts *)





Lemma user_id_outside_64_bits_witness :
  fst (Store.update_user_preferences (2 ^ 63)
         [("categories", PList []); ("countries", PList []);
          ("language", PStr "en"); ("sentiment", PNone)] 20 a_reader) = Ok false
  /\ fst (Store.add_reading_history (2 ^ 63) [("url", PStr "https://news.example/a")]
            20 a_reader) = Ok false
  /\ fst (Store.get_user_preferences (2 ^ 63) 20 a_reader) = Raise OverflowError
  /\ fst (Store.get_reading_history (2 ^ 63) 50 20 a_reader) = Raise OverflowError.
Proof.
  pose proof (@user_id_outside_64_bits (2 ^ 63) 20 a_reader eq_refl)
    as (Hupdate & Hadd & Hget).
  split; [exact (proj1 (Hupdate _))|]. split; [exact (proj1 (Hadd _))|].
  exact (conj (proj1 (Hget eq_refl)) (proj2 (Hget eq_refl) 50)).
Defined.
